(** * Kleanup: a shallow embedding of the manifest cleaner

    The Go program decodes a stream of Kubernetes manifests into
    [KubernetesObject] structs, runs a kind-specific cleaner over each one
    and encodes the result.  This file embeds the cleaning engine as Rocq
    functions over a tree of dynamically typed values and states its
    documented properties about them.

    Conventions of the embedding.
    - A Go [interface{}] value is a [value].  Both map types the program
      meets are kept apart: [VMap] is [map[string]interface{}] (what the
      cleaners assert on), [VIMap] is [map[interface{}]interface{}] (what
      [removeEmptyFields] additionally accepts, "from yaml.v2 decoding").
    - Go maps are finite maps with no iteration order, hence [gmap].  A loop
      that deletes entries while ranging is a [filter]; a loop that copies
      entries into a fresh map is an [omap].
    - A nil map stored in an interface behaves like the empty map in every
      function below (reads find nothing, [len] is zero, [delete] does
      nothing, and nothing is ever written through it), so both are [VMap ∅].
      The five top-level struct fields do distinguish nil from empty, so they
      are [option]s.
    - In-place mutation of a nested map is a functional update of the tree.
    - [log.Printf] calls are diagnostics only and are left out.
    - A failed unchecked type assertion is a [Panic]. *)

From Stdlib Require Import Ascii String.
From stdpp Require Import gmap strings list fin_maps.

#[local] Set Warnings "-register-all".

(** ** Values *)

(** Keys of a [map[interface{}]interface{}]: the hashable scalars. *)
Inductive ikey :=
| KStr (s : string)
| KInt (z : Z)
| KBool (b : bool)
| KFloat (bits : Z)
| KNil.

Global Instance ikey_eq_dec : EqDecision ikey.
Proof. solve_decision. Defined.

Definition ikey_encode (k : ikey) : string + (Z + (bool + (Z + unit))) :=
  match k with
  | KStr s => inl s
  | KInt z => inr (inl z)
  | KBool b => inr (inr (inl b))
  | KFloat f => inr (inr (inr (inl f)))
  | KNil => inr (inr (inr (inr ())))
  end.

Definition ikey_decode (x : string + (Z + (bool + (Z + unit)))) : ikey :=
  match x with
  | inl s => KStr s
  | inr (inl z) => KInt z
  | inr (inr (inl b)) => KBool b
  | inr (inr (inr (inl f))) => KFloat f
  | inr (inr (inr (inr _))) => KNil
  end.

Global Instance ikey_countable : Countable ikey.
Proof.
  apply (inj_countable' ikey_encode ikey_decode).
  intros []; reflexivity.
Defined.

(** An [interface{}] as the decoder and the cleaners build it. *)
Inductive value :=
| VNil
| VStr (s : string)
| VInt (z : Z)
| VBool (b : bool)
| VFloat (bits : Z)
| VList (l : list value)
| VMap (m : gmap string value)
| VIMap (m : gmap ikey value).

(** Size of a value, used only to justify induction over the nesting. *)
Fixpoint vsize (v : value) : nat :=
  match v with
  | VList l => S (foldr (λ x acc, vsize x + acc) 0 l)
  | VMap m => S (map_fold (λ _ x acc, vsize x + acc) 0 m)
  | VIMap m => S (map_fold (λ _ x acc, vsize x + acc) 0 m)
  | _ => 1
  end.

(** ** The Structural Pruner *)

(** The test made on every map entry: keep the cleaned value when it is not
    nil, keep an intentional empty string, drop everything else. *)
Definition keep_entry (v cleanedValue : value) : option value :=
  match cleanedValue with
  | VNil => match v with
            | VStr "" => Some (VStr "")
            | _ => None
            end
  | c => Some c
  end.

(** The test made on every slice element. *)
Definition keep_item (cleanedItem : value) : option value :=
  match cleanedItem with
  | VNil => None
  | c => Some c
  end.

(** [stringKey, keyIsString := k.(string)]: entries under other keys are
    skipped. *)
Definition string_keys {A} (m : gmap ikey A) : gmap string A :=
  map_fold (λ k v acc, match k with KStr s => <[s:=v]> acc | _ => acc end) ∅ m.

Definition len_zero {K A} `{Countable K} (m : gmap K A) : bool :=
  bool_decide (size m = 0).

Fixpoint removeEmptyFields (data : value) : value :=
  match data with
  | VNil => VNil
  | VMap m =>
      let cleanedMap := omap (λ v, keep_entry v (removeEmptyFields v)) m in
      if len_zero cleanedMap then VNil else VMap cleanedMap
  | VIMap m =>
      let cleanedMap :=
        string_keys (omap (λ v, keep_entry v (removeEmptyFields v)) m) in
      if len_zero cleanedMap then VNil else VMap cleanedMap
  | VList l =>
      match l with
      | [] => VNil
      | _ =>
          let cleanedSlice := omap (λ item, keep_item (removeEmptyFields item)) l in
          match cleanedSlice with
          | [] => VNil
          | _ => VList cleanedSlice
          end
      end
  | _ => data
  end.

(** [cleanupEmptyTopLevelFields] handles one struct field: a nil map stays
    nil, otherwise the field receives the pruned map, or nil when nothing
    survives.  The third branch keeps the field when the pruner returns
    something that is not a map. *)
Definition prune_top_level (field : option (gmap string value))
  : option (gmap string value) :=
  match field with
  | None => None
  | Some m =>
      match removeEmptyFields (VMap m) with
      | VNil => None
      | VMap cleaned => Some cleaned
      | _ => Some m
      end
  end.

(** ** Go's [strings] package, on byte strings *)

(** [strings.Split(s, sep)] for a one-byte separator. *)
Fixpoint Split (s : string) (sep : ascii) : list string :=
  match s with
  | EmptyString => [EmptyString]
  | String c s' =>
      if Ascii.eqb c sep then EmptyString :: Split s' sep
      else match Split s' sep with
           | x :: xs => String c x :: xs
           | [] => [String c EmptyString]
           end
  end.

(** [strings.Join(elems, sep)] for a one-byte separator. *)
Fixpoint Join (elems : list string) (sep : ascii) : string :=
  match elems with
  | [] => EmptyString
  | [x] => x
  | x :: rest => x +:+ String sep (Join rest sep)
  end.

Definition HasPrefix (s pre : string) : bool := String.prefix pre s.

Definition HasSuffix (s suffix : string) : bool :=
  (String.length suffix <=? String.length s)%nat &&
  String.eqb
    (String.substring (String.length s - String.length suffix)
                      (String.length suffix) s)
    suffix.

Definition TrimSuffix (s suffix : string) : string :=
  if HasSuffix s suffix
  then String.substring 0 (String.length s - String.length suffix) s
  else s.

(** [strings.LastIndex]; Go's [-1] is [None]. *)
Fixpoint LastIndex (s substr : string) : option nat :=
  match s with
  | EmptyString => if String.eqb substr "" then Some 0 else None
  | String _ s' =>
      match LastIndex s' substr with
      | Some i => Some (S i)
      | None => if String.prefix substr s then Some 0 else None
      end
  end.

Definition upper_ascii (c : ascii) : ascii :=
  let n := nat_of_ascii c in
  if (97 <=? n)%nat && (n <=? 122)%nat then ascii_of_nat (n - 32) else c.

(** [strings.ToUpper] on ASCII letters.  No other rune has [T], [C] or [P]
    as its upper case, so the comparison with ["TCP"] below is exact. *)
Fixpoint ToUpper (s : string) : string :=
  match s with
  | EmptyString => EmptyString
  | String c s' => String (upper_ascii c) (ToUpper s')
  end.

(** ** Objects and options *)

Record KubernetesObject := {
  APIVersion : string;
  Kind : string;
  Metadata : option (gmap string value);
  Spec : option (gmap string value);
  Status : option (gmap string value);
  Data : option (gmap string value);
  StringData : option (gmap string value);
  Type_ : string
}.

Record CleanupOptions := {
  RemoveManagedFields : bool;
  RemoveStatus : bool;
  RemoveNamespace : bool;
  RemoveClusterName : bool;
  RemoveLabels : list string;
  RemoveAnnotations : list string;
  RemoveEmpty : bool;
  CleanupFinalizers : bool;
  RevertToDeployment : bool;
  PreserveResourceState : bool;
  ResourceStateMode : string
}.

Definition set_Metadata (obj : KubernetesObject) (v : option (gmap string value)) :=
  {| APIVersion := APIVersion obj; Kind := Kind obj; Metadata := v;
     Spec := Spec obj; Status := Status obj; Data := Data obj;
     StringData := StringData obj; Type_ := Type_ obj |}.
Definition set_Spec (obj : KubernetesObject) (v : option (gmap string value)) :=
  {| APIVersion := APIVersion obj; Kind := Kind obj; Metadata := Metadata obj;
     Spec := v; Status := Status obj; Data := Data obj;
     StringData := StringData obj; Type_ := Type_ obj |}.
Definition set_Status (obj : KubernetesObject) (v : option (gmap string value)) :=
  {| APIVersion := APIVersion obj; Kind := Kind obj; Metadata := Metadata obj;
     Spec := Spec obj; Status := v; Data := Data obj;
     StringData := StringData obj; Type_ := Type_ obj |}.
Definition set_Data (obj : KubernetesObject) (v : option (gmap string value)) :=
  {| APIVersion := APIVersion obj; Kind := Kind obj; Metadata := Metadata obj;
     Spec := Spec obj; Status := Status obj; Data := v;
     StringData := StringData obj; Type_ := Type_ obj |}.
Definition set_StringData (obj : KubernetesObject) (v : option (gmap string value)) :=
  {| APIVersion := APIVersion obj; Kind := Kind obj; Metadata := Metadata obj;
     Spec := Spec obj; Status := Status obj; Data := Data obj;
     StringData := v; Type_ := Type_ obj |}.
Definition set_Type (obj : KubernetesObject) (v : string) :=
  {| APIVersion := APIVersion obj; Kind := Kind obj; Metadata := Metadata obj;
     Spec := Spec obj; Status := Status obj; Data := Data obj;
     StringData := StringData obj; Type_ := v |}.

(** [main]'s default options. *)
Definition default_options : CleanupOptions :=
  {| RemoveManagedFields := true;
     RemoveStatus := true;
     RemoveNamespace := true;
     RemoveClusterName := false;
     RemoveLabels := [];
     RemoveAnnotations := [];
     RemoveEmpty := true;
     CleanupFinalizers := true;
     RevertToDeployment := true;
     PreserveResourceState := false;
     ResourceStateMode := "Desired" |}.

(** A call either returns or panics. *)
Inductive outcome (A : Type) :=
| Done (a : A)
| Panic (msg : string).
Arguments Done {A} a.
Arguments Panic {A} msg.

Global Instance outcome_ret : MRet outcome := λ A a, Done a.
Global Instance outcome_bind : MBind outcome := λ A B f m,
  match m with
  | Done a => f a
  | Panic msg => Panic msg
  end.

(** ** The State Classifier *)

(** The three tables of [resourceStateFields]: [true] marks desired state,
    [false] runtime state. *)
Definition deployment_stateFields : gmap string bool :=
  {[ "metadata.generation" := false;
     "spec.replicas" := true;
     "spec.strategy" := true;
     "spec.template" := true;
     "status" := false ]}.

Definition service_stateFields : gmap string bool :=
  {[ "spec.clusterIP" := false;
     "spec.clusterIPs" := false;
     "spec.ports" := true;
     "spec.selector" := true;
     "status" := false ]}.

Definition pod_stateFields : gmap string bool :=
  {[ "metadata.generation" := false;
     "spec.containers" := true;
     "spec.initContainers" := true;
     "spec.nodeName" := false;
     "spec.nodeSelector" := true;
     "spec.volumes" := true;
     "status" := false ]}.

Definition resourceStateFields : gmap string (gmap string bool) :=
  {[ "Deployment" := deployment_stateFields;
     "Service" := service_stateFields;
     "Pod" := pod_stateFields ]}.

(** [isDesired, exists := stateFields[path]; exists && !isDesired], after
    [stateFields, ok := resourceStateFields[kind]]. *)
Definition flagged_runtime (kind path : string) : bool :=
  match resourceStateFields !! kind with
  | Some stateFields =>
      match stateFields !! path with
      | Some isDesired => negb isDesired
      | None => false
      end
  | None => false
  end.

(** ** The Path Resolver *)

(** The walk over [parts[1:]]: every segment but the last must resolve to a
    [map[string]interface{}]; the last one is deleted from the map reached.
    The source mutates that map in place, here the spine is rebuilt. *)
Fixpoint delete_path (parts : list string) (currentMap : gmap string value)
  : gmap string value :=
  match parts with
  | [] => currentMap
  | [final] => delete final currentMap
  | part :: rest =>
      match currentMap !! part with
      | Some (VMap next) => <[part := VMap (delete_path rest next)]> currentMap
      | _ => currentMap
      end
  end.

Definition removeField (obj : KubernetesObject) (fieldPath : string)
  : KubernetesObject :=
  match Split fieldPath "." with
  | [] => obj
  | [top] =>
      if String.eqb top "metadata" then set_Metadata obj None
      else if String.eqb top "spec" then set_Spec obj None
      else if String.eqb top "status" then set_Status obj None
      else if String.eqb top "data" then set_Data obj None
      else if String.eqb top "stringData" then set_StringData obj None
      else if String.eqb top "type" then set_Type obj ""
      else obj
  | top :: rest =>
      let walk (field : option (gmap string value))
               (store : KubernetesObject → option (gmap string value) → KubernetesObject) :=
        match field with
        | None => obj
        | Some currentMap => store obj (Some (delete_path rest currentMap))
        end in
      if String.eqb top "metadata" then walk (Metadata obj) set_Metadata
      else if String.eqb top "spec" then walk (Spec obj) set_Spec
      else if String.eqb top "status" then walk (Status obj) set_Status
      else if String.eqb top "data" then walk (Data obj) set_Data
      else if String.eqb top "stringData" then walk (StringData obj) set_StringData
      else obj
  end.

(** ** The Metadata Rule Set *)

Definition cleanLabels (labels : gmap string value) (removeLabels : list string)
  : gmap string value :=
  filter (λ kv, existsb (String.eqb kv.1) removeLabels = false) labels.

Definition annotationPrefixesToRemove : list string :=
  [ "kubectl.kubernetes.io/";
    "deployment.kubernetes.io/";
    "apps.kubernetes.io/";
    "statefulset.kubernetes.io/";
    "service.kubernetes.io/";
    "batch.kubernetes.io/";
    "networking.k8s.io/";
    "rbac.authorization.k8s.io/";
    "argocd.argoproj.io/";
    "helm.sh/";
    "meta.helm.sh/";
    "fluxcd.io/";
    "kustomize.config.k8s.io/";
    "reloader.stakater.com/" ].

Definition annotationExactToRemove : gmap string bool :=
  {[ "kubernetes.io/change-cause" := true;
     "controller-revision-hash" := true;
     "deprecated.daemonset.template.generation" := true;
     "pod-template-hash" := true ]}.

Definition shouldDelete (removeAnnotations : list string) (key : string) : bool :=
  default false (annotationExactToRemove !! key)
  || existsb (λ pre, HasPrefix key pre) annotationPrefixesToRemove
  || existsb (String.eqb key) removeAnnotations.

Definition cleanAnnotations (annotations : gmap string value)
    (removeAnnotations : list string) : gmap string value :=
  filter (λ kv, shouldDelete removeAnnotations kv.1 = false) annotations.

Definition preserves_runtime (options : CleanupOptions) : bool :=
  PreserveResourceState options && String.eqb (ResourceStateMode options) "Runtime".

Definition preserves_desired (options : CleanupOptions) : bool :=
  PreserveResourceState options && String.eqb (ResourceStateMode options) "Desired".

Definition metadata_fieldsToRemove (kind : string) (options : CleanupOptions)
  : list string :=
  [ "creationTimestamp"; "resourceVersion"; "selfLink"; "uid"; "ownerReferences" ]
  ++ (if negb (preserves_runtime options && flagged_runtime kind "metadata.generation")
      then ["generation"] else [])
  ++ (if RemoveManagedFields options then ["managedFields"] else [])
  ++ (if CleanupFinalizers options then ["finalizers"] else [])
  ++ (if RemoveNamespace options then ["namespace"] else []).

Definition GenericMetadataCleaner_Clean (obj : KubernetesObject)
    (options : CleanupOptions) : KubernetesObject :=
  match Metadata obj with
  | None => obj
  | Some metadata =>
      let metadata := foldr delete metadata (metadata_fieldsToRemove (Kind obj) options) in
      let metadata :=
        match metadata !! "annotations" with
        | Some (VMap annotations) =>
            let annotations := cleanAnnotations annotations (RemoveAnnotations options) in
            if len_zero annotations then delete "annotations" metadata
            else <["annotations" := VMap annotations]> metadata
        | _ => metadata
        end in
      let metadata :=
        match metadata !! "labels" with
        | Some (VMap labels) =>
            let labels := cleanLabels labels (RemoveLabels options) in
            if len_zero labels then delete "labels" metadata
            else <["labels" := VMap labels]> metadata
        | _ => metadata
        end in
      set_Metadata obj (Some metadata)
  end.

(** The [MetadataCleaner] interface and its one implementation. *)
Inductive MetadataCleaner := GenericMetadataCleaner.

Definition MetadataCleaner_Clean (c : MetadataCleaner)
  : KubernetesObject → CleanupOptions → KubernetesObject :=
  match c with
  | GenericMetadataCleaner => GenericMetadataCleaner_Clean
  end.

(** ** The Generic Rule Set *)

(** The preservation gate: which table entries are queued for removal. *)
Definition queued_for_removal (mode : string) (isDesired : bool) : bool :=
  if String.eqb mode "Desired" && negb isDesired then true
  else if String.eqb mode "Runtime" && isDesired then true
  else false.

Definition fieldsToRemoveForState (mode : string) (stateFields : gmap string bool)
  : list string :=
  omap (λ entry, if queued_for_removal mode entry.2 then Some entry.1 else None)
       (map_to_list stateFields).

(** [removeEmptyFields] is also called on something that is not a [value]:
    the generic cleaner passes the pointer to the object.  That is the
    [reflect.Ptr] case: the pointer is not nil, so the function calls itself
    on [Elem().Interface()], the struct, whose kind [reflect.Struct] falls
    to the [default] case, which returns its argument. *)
Inductive reflected :=
| PtrToObject (obj : KubernetesObject)
| StructObject (obj : KubernetesObject).

Definition removeEmptyFields_reflected (data : reflected) : reflected :=
  match data with
  | PtrToObject obj => StructObject obj
  | StructObject obj => StructObject obj
  end.

Definition GenericObjectCleaner_Clean (metadataCleaner : MetadataCleaner)
    (obj : KubernetesObject) (options : CleanupOptions) : KubernetesObject :=
  let obj :=
    if PreserveResourceState options then
      match resourceStateFields !! Kind obj with
      | Some stateFields =>
          foldl removeField obj
                (fieldsToRemoveForState (ResourceStateMode options) stateFields)
      | None => obj
      end
    else obj in
  let obj :=
    match Metadata obj with
    | Some _ => MetadataCleaner_Clean metadataCleaner obj options
    | None => obj
    end in
  let obj :=
    if RemoveStatus options
       && negb (preserves_runtime options && flagged_runtime (Kind obj) "status")
    then set_Status obj None
    else obj in
  (* the call's result is dropped and nothing was mutated *)
  if RemoveEmpty options
  then (let _ := removeEmptyFields_reflected (PtrToObject obj) in obj)
  else obj.

Definition cleanupEmptyTopLevelFields (obj : KubernetesObject) : KubernetesObject :=
  {| APIVersion := APIVersion obj;
     Kind := Kind obj;
     Metadata := prune_top_level (Metadata obj);
     Spec := prune_top_level (Spec obj);
     Status := prune_top_level (Status obj);
     Data := prune_top_level (Data obj);
     StringData := prune_top_level (StringData obj);
     Type_ := Type_ obj |}.

(** ** Container-Spec, Volume and Pod-Spec rules *)

(** One entry of a [ports] list, as both the Service cleaner and the
    container cleaner treat it: a [map[string]interface{}] loses a protocol
    that upper-cases to ["TCP"] and is dropped when left empty; anything
    else is kept as it is. *)
Definition clean_port_entry (p : value) : option value :=
  match p with
  | VMap portMap =>
      let portMap :=
        match portMap !! "protocol" with
        | Some (VStr protoStr) =>
            if String.eqb (ToUpper protoStr) "TCP"
            then delete "protocol" portMap else portMap
        | _ => portMap
        end in
      if len_zero portMap then None else Some (VMap portMap)
  | _ => Some p
  end.

Definition container_fieldsToRemove : list string :=
  [ "terminationMessagePath"; "terminationMessagePolicy"; "imagePullPolicy";
    "tty"; "stdin"; "stdinOnce" ].

Definition cleanContainerSpec (container : gmap string value)
    (options : CleanupOptions) : gmap string value :=
  let container := foldr delete container container_fieldsToRemove in
  match container !! "ports" with
  | Some (VList ports) =>
      match omap clean_port_entry ports with
      | [] => delete "ports" container
      | cleanedPorts => <["ports" := VList cleanedPorts]> container
      end
  | _ => container
  end.

(** [name, exists := m["name"].(string)] *)
Definition string_name (m : gmap string value) : option string :=
  match m !! "name" with
  | Some (VStr name) => Some name
  | _ => None
  end.

(** Does [volumeMap["projected"]["sources"]] hold a source with a
    [serviceAccountToken] key? *)
Definition isServiceAccountToken (volumeMap : gmap string value) : bool :=
  match volumeMap !! "projected" with
  | Some (VMap projected) =>
      match projected !! "sources" with
      | Some (VList sources) =>
          existsb (λ source,
                     match source with
                     | VMap sourceMap =>
                         bool_decide (is_Some (sourceMap !! "serviceAccountToken"))
                     | _ => false
                     end) sources
      | _ => false
      end
  | _ => false
  end.

(** The two checks on one volume: the names it adds to [volumesToRemove]
    and its [shouldKeep] flag. *)
Definition inspect_volume (volume : value) : gset string * bool :=
  match volume with
  | VMap volumeMap =>
      let first : gset string * bool :=
        match string_name volumeMap with
        | Some name =>
            if HasPrefix name "kube-api-access-" then ({[ name ]}, false)
            else (∅, true)
        | None => (∅, true)
        end in
      if isServiceAccountToken volumeMap then
        match string_name volumeMap with
        | Some name => ({[ name ]} ∪ first.1, false)
        | None => first
        end
      else first
  | _ => (∅, true)
  end.

(** The loop over [volumes]: the names to remove and [cleanedVolumes]. *)
Fixpoint scan_volumes (volumes : list value) : gset string * list value :=
  match volumes with
  | [] => (∅, [])
  | volume :: rest =>
      let '(marked, shouldKeep) := inspect_volume volume in
      let '(volumesToRemove, cleanedVolumes) := scan_volumes rest in
      (marked ∪ volumesToRemove,
       if shouldKeep then volume :: cleanedVolumes else cleanedVolumes)
  end.

Definition shouldKeepMount (volumesToRemove : gset string) (vm : value) : bool :=
  match vm with
  | VMap vmMap =>
      match string_name vmMap with
      | Some name => negb (bool_decide (name ∈ volumesToRemove))
      | None => true
      end
  | _ => true
  end.

Definition filter_container_mounts (volumesToRemove : gset string)
    (container : value) : value :=
  match container with
  | VMap containerMap =>
      match containerMap !! "volumeMounts" with
      | Some (VList volumeMounts) =>
          match filter (λ vm, shouldKeepMount volumesToRemove vm = true) volumeMounts with
          | [] => VMap (delete "volumeMounts" containerMap)
          | cleanedVolumeMounts =>
              VMap (<["volumeMounts" := VList cleanedVolumeMounts]> containerMap)
          end
      | _ => container
      end
  | _ => container
  end.

Definition containerTypes : list string := [ "containers"; "initContainers" ].

(** The body of the loop over the two container lists in [cleanPodVolumes]. *)
Definition filter_mounts_of_type (volumesToRemove : gset string)
    (spec : gmap string value) (containerType : string) : gmap string value :=
  match spec !! containerType with
  | Some (VList containers) =>
      <[containerType :=
          VList (map (filter_container_mounts volumesToRemove) containers)]> spec
  | _ => spec
  end.

Definition cleanPodVolumes (spec : gmap string value) : gmap string value :=
  let '(volumesToRemove, spec) :=
    match spec !! "volumes" with
    | Some (VList volumes) =>
        let '(volumesToRemove, cleanedVolumes) := scan_volumes volumes in
        (volumesToRemove,
         match cleanedVolumes with
         | [] => delete "volumes" spec
         | _ => <["volumes" := VList cleanedVolumes]> spec
         end)
    | _ => (∅, spec)
    end in
  if bool_decide (size volumesToRemove = 0) then spec
  else foldl (filter_mounts_of_type volumesToRemove) spec containerTypes.

Definition pod_fieldsToRemove : list string :=
  [ "nodeName"; "dnsPolicy"; "schedulerName"; "enableServiceLinks";
    "preemptionPolicy"; "terminationGracePeriodSeconds"; "hostIP"; "podIP";
    "podIPs"; "hostPID"; "hostNetwork"; "hostIPC"; "hostname"; "subdomain";
    "shareProcessNamespace"; "runtimeClassName"; "readinessGates";
    "setHostnameAsFQDN" ].

(** The [remove] flag computed for one field when preservation is on. *)
Definition pod_field_remove (mode field : string) : bool :=
  let fieldPath := "spec." +:+ field in
  match resourceStateFields !! "Pod" with
  | Some podStateFields =>
      match podStateFields !! fieldPath with
      | Some isDesired =>
          if String.eqb mode "Desired" && isDesired then false
          else if String.eqb mode "Runtime" && negb isDesired then false
          else true
      | None => if String.eqb mode "Runtime" then false else true
      end
  | None => if String.eqb mode "Runtime" then false else true
  end.

Definition clean_container_entry (options : CleanupOptions) (container : value)
  : option value :=
  match container with
  | VMap containerMap =>
      let containerMap := cleanContainerSpec containerMap options in
      if len_zero containerMap then None else Some (VMap containerMap)
  | _ => Some container
  end.

(** The body of the loop over the two container lists in [cleanPodSpec]. *)
Definition clean_containers_of_type (options : CleanupOptions)
    (spec : gmap string value) (containerType : string) : gmap string value :=
  match spec !! containerType with
  | Some (VList containers) =>
      match omap (clean_container_entry options) containers with
      | [] => delete containerType spec
      | cleanedContainers => <[containerType := VList cleanedContainers]> spec
      end
  | _ => spec
  end.

Definition cleanPodSpec (spec : gmap string value) (options : CleanupOptions)
  : gmap string value :=
  let fieldsToRemove :=
    if PreserveResourceState options
    then filter (λ field, pod_field_remove (ResourceStateMode options) field = true)
                pod_fieldsToRemove
    else pod_fieldsToRemove in
  let spec := foldr delete spec fieldsToRemove in
  let spec := foldl (clean_containers_of_type options) spec containerTypes in
  let spec := cleanPodVolumes spec in
  match spec !! "volumes" with
  | Some (VList []) => delete "volumes" spec
  | _ => spec
  end.

(** ** The Controller Reconstructor *)

(** [deriveBaseName]; the Go pair [(name, ok)] is an [option]. *)
Definition deriveBaseName (podName hash : string) : option string :=
  let hashSuffixPattern := "-" +:+ hash +:+ "-" in
  match LastIndex podName hashSuffixPattern with
  | Some index => Some (String.substring 0 index podName)
  | None =>
      let hashSuffix := "-" +:+ hash in
      if HasSuffix podName hashSuffix then Some (TrimSuffix podName hashSuffix)
      else None
  end.

(** Returns the object as the call leaves it together with the boolean
    result.  [originalName.(string)] is the one unchecked assertion. *)
Definition revertPodToDeployment (obj : KubernetesObject)
  : outcome (KubernetesObject * bool) :=
  if negb (String.eqb (Kind obj) "Pod") then Done (obj, false) else
  match Metadata obj with
  | None => Done (obj, false)
  | Some metadata =>
      match metadata !! "labels" with
      | Some (VMap podLabels) =>
          match podLabels !! "pod-template-hash" with
          | None => Done (obj, false)
          | Some (VStr hashStr) =>
              if String.eqb hashStr "" then Done (obj, false) else
              let originalName := default VNil (metadata !! "name") in
              let originalNamespace := default VNil (metadata !! "namespace") in
              match originalName with
              | VStr podName =>
                  let deploymentName :=
                    match deriveBaseName podName hashStr with
                    | Some baseName => baseName
                    | None => podName +:+ "-reverted"
                    end in
                  let deploymentLabels :=
                    filter (λ kv, kv.1 ≠ "pod-template-hash") podLabels in
                  let deploymentLabels :=
                    if len_zero deploymentLabels
                    then <["app" := VStr deploymentName]> deploymentLabels
                    else deploymentLabels in
                  let templateLabels := deploymentLabels in
                  let newMetadata : gmap string value :=
                    {[ "name" := VStr deploymentName;
                       "labels" := VMap deploymentLabels ]} in
                  let newMetadata :=
                    match originalNamespace with
                    | VNil => newMetadata
                    | _ => <["namespace" := originalNamespace]> newMetadata
                    end in
                  let newMetadata := delete "generateName" newMetadata in
                  let originalPodSpec := default ∅ (Spec obj) in
                  let newSpec : gmap string value :=
                    {[ "replicas" := VInt 1;
                       "selector" := VMap {[ "matchLabels" := VMap templateLabels ]};
                       "template" :=
                         VMap {[ "metadata" := VMap {[ "labels" := VMap templateLabels ]};
                                 "spec" := VMap originalPodSpec ]} ]} in
                  Done ({| APIVersion := "apps/v1";
                           Kind := "Deployment";
                           Metadata := Some newMetadata;
                           Spec := Some newSpec;
                           Status := None;
                           Data := None;
                           StringData := None;
                           Type_ := "" |}, true)
              | _ => Panic "interface conversion: interface {} is not string"
              end
          | Some _ => Done (obj, false)
          end
      | _ => Done (obj, false)
      end
  end.

(** ** Kind-specific Rule Sets *)

(** [template["metadata"]]: drop the creation timestamp, prune, and remove
    the key when nothing is left. *)
Definition clean_template_metadata (template : gmap string value)
  : gmap string value :=
  match template !! "metadata" with
  | Some (VMap templateMeta) =>
      let templateMeta := delete "creationTimestamp" templateMeta in
      match removeEmptyFields (VMap templateMeta) with
      | VNil => delete "metadata" template
      | VMap tm => <["metadata" := VMap tm]> template
      | _ => <["metadata" := VMap templateMeta]> template
      end
  | _ => template
  end.

(** [template["spec"]]: Pod-Spec cleaning, prune, and remove the key when
    nothing is left. *)
Definition clean_template_spec (template : gmap string value)
    (options : CleanupOptions) : gmap string value :=
  match template !! "spec" with
  | Some (VMap spec) =>
      let spec := cleanPodSpec spec options in
      match removeEmptyFields (VMap spec) with
      | VNil => delete "spec" template
      | VMap sp => <["spec" := VMap sp]> template
      | _ => <["spec" := VMap spec]> template
      end
  | _ => template
  end.

(** The block shared by the Deployment, StatefulSet and DaemonSet cleaners. *)
Definition clean_workload_template (spec : gmap string value)
    (options : CleanupOptions) : gmap string value :=
  match spec !! "template" with
  | Some (VMap template) =>
      let template := clean_template_metadata template in
      let template := clean_template_spec template options in
      <["template" := VMap template]> spec
  | _ => spec
  end.

(** The block of [PodCleaner.Clean] that runs after a successful revert. *)
Definition clean_reverted_template (spec : gmap string value)
    (options : CleanupOptions) : gmap string value :=
  match spec !! "template" with
  | Some (VMap template) =>
      <["template" := VMap (clean_template_spec template options)]> spec
  | _ => spec
  end.

Definition cleanConfigMapData (data : gmap string value) : gmap string value :=
  filter (λ kv, kv.1 ≠ "kubectl.kubernetes.io/last-applied-configuration") data.

Definition service_fieldsToRemove : list string :=
  [ "clusterIP"; "clusterIPs"; "ipFamilies"; "ipFamilyPolicy";
    "internalTrafficPolicy" ].

Definition final_cleanup (obj : KubernetesObject) (options : CleanupOptions)
  : KubernetesObject :=
  if RemoveEmpty options then cleanupEmptyTopLevelFields obj else obj.

(** Apply [f] to [obj.Spec] when it is not nil. *)
Definition with_Spec (obj : KubernetesObject)
    (f : gmap string value → option (gmap string value)) : KubernetesObject :=
  match Spec obj with
  | Some spec => set_Spec obj (f spec)
  | None => obj
  end.

(** The [ObjectCleaner] interface: every specific cleaner holds the generic
    one behind the interface type. *)
Inductive ObjectCleaner :=
| GenericObjectCleaner (metadataCleaner : MetadataCleaner)
| DeploymentCleaner (genericCleaner : ObjectCleaner)
| ServiceCleaner (genericCleaner : ObjectCleaner)
| StatefulSetCleaner (genericCleaner : ObjectCleaner)
| DaemonSetCleaner (genericCleaner : ObjectCleaner)
| PodCleaner (genericCleaner : ObjectCleaner)
| ConfigMapCleaner (genericCleaner : ObjectCleaner)
| SecretCleaner (genericCleaner : ObjectCleaner).

Fixpoint Clean (c : ObjectCleaner) (obj : KubernetesObject)
    (options : CleanupOptions) : outcome KubernetesObject :=
  match c with
  | GenericObjectCleaner metadataCleaner =>
      Done (GenericObjectCleaner_Clean metadataCleaner obj options)
  | DeploymentCleaner genericCleaner =>
      obj ← Clean genericCleaner obj options;
      let obj :=
        with_Spec obj (λ spec,
          let spec :=
            if negb (preserves_runtime options)
            then delete "progressDeadlineSeconds" (delete "revisionHistoryLimit" spec)
            else spec in
          Some (clean_workload_template spec options)) in
      Done (final_cleanup obj options)
  | ServiceCleaner genericCleaner =>
      obj ← Clean genericCleaner obj options;
      let obj :=
        with_Spec obj (λ spec,
          let spec :=
            if negb (preserves_desired options)
            then foldr delete spec service_fieldsToRemove
            else spec in
          Some match spec !! "ports" with
               | Some (VList ports) =>
                   match omap clean_port_entry ports with
                   | [] => delete "ports" spec
                   | cleanedPorts => <["ports" := VList cleanedPorts]> spec
                   end
               | _ => spec
               end) in
      Done (final_cleanup obj options)
  | StatefulSetCleaner genericCleaner
  | DaemonSetCleaner genericCleaner =>
      obj ← Clean genericCleaner obj options;
      let obj :=
        with_Spec obj (λ spec,
          let spec :=
            if negb (preserves_runtime options)
            then delete "revisionHistoryLimit" spec
            else spec in
          Some (clean_workload_template spec options)) in
      Done (final_cleanup obj options)
  | PodCleaner genericCleaner =>
      '(obj, reverted) ←
        (if RevertToDeployment options then revertPodToDeployment obj
         else Done (obj, false));
      if reverted : bool then
        obj ← Clean genericCleaner obj options;
        let obj := with_Spec obj (λ spec, Some (clean_reverted_template spec options)) in
        Done (final_cleanup obj options)
      else
        obj ← Clean genericCleaner obj options;
        let obj :=
          with_Spec obj (λ spec,
            let spec := cleanPodSpec spec options in
            match removeEmptyFields (VMap spec) with
            | VNil => None
            | VMap sp => Some sp
            | _ => Some spec
            end) in
        Done (final_cleanup obj options)
  | ConfigMapCleaner genericCleaner =>
      obj ← Clean genericCleaner obj options;
      let obj :=
        match Data obj with
        | Some data =>
            let data := cleanConfigMapData data in
            set_Data obj (if len_zero data then None else Some data)
        | None => obj
        end in
      Done (final_cleanup obj options)
  | SecretCleaner genericCleaner =>
      obj ← Clean genericCleaner obj options;
      let obj :=
        match Data obj with
        | Some data => if len_zero data then set_Data obj None else obj
        | None => obj
        end in
      let obj :=
        match StringData obj with
        | Some stringData => if len_zero stringData then set_StringData obj None else obj
        | None => obj
        end in
      Done (final_cleanup obj options)
  end.

(** ** The Dispatch Registry *)

Record ObjectCleanerFactory := { cleaners : gmap string ObjectCleaner }.

(** [None] is the nil interface a missing ["Generic"] entry would yield. *)
Definition GetCleaner (f : ObjectCleanerFactory) (kind : string)
  : option ObjectCleaner :=
  if String.eqb kind "" then cleaners f !! "Generic"
  else match cleaners f !! kind with
       | Some cleaner => Some cleaner
       | None => cleaners f !! "Generic"
       end.

Definition NewObjectCleanerFactory : ObjectCleanerFactory :=
  let genericMetaCleaner := GenericMetadataCleaner in
  let genericObjCleaner := GenericObjectCleaner genericMetaCleaner in
  {| cleaners :=
       {[ "Generic" := genericObjCleaner;
          "Deployment" := DeploymentCleaner genericObjCleaner;
          "Service" := ServiceCleaner genericObjCleaner;
          "StatefulSet" := StatefulSetCleaner genericObjCleaner;
          "DaemonSet" := DaemonSetCleaner genericObjCleaner;
          "Pod" := PodCleaner genericObjCleaner;
          "ConfigMap" := ConfigMapCleaner genericObjCleaner;
          "Secret" := SecretCleaner genericObjCleaner ]} |}.

Definition cleanupKubernetesObject (obj : KubernetesObject)
    (options : CleanupOptions) (cleanerFactory : ObjectCleanerFactory)
  : outcome KubernetesObject :=
  if String.eqb (Kind obj) "" then Done obj
  else match GetCleaner cleanerFactory (Kind obj) with
       | Some cleaner => Clean cleaner obj options
       | None => Panic "invalid memory address or nil pointer dereference"
       end.

(** ** The manifest loop *)

(** What [decoder.Decode] yields before [io.EOF]: a document, or an error. *)
Inductive decoded :=
| Document (obj : KubernetesObject)
| Malformed.

(** How a run ends.  The indices are the 1-based [documentCount]. *)
Inductive run_end :=
| Finished
| DecodeFailure (index : nat)
| EncodeFailure (index : nat)
| Panicked (msg : string).

Section Manifest.
(** The output collaborator: does the sink accept this document? *)
Variable encode : KubernetesObject → bool.

(** The documents written to the output, in order, and how the run ends;
    [input] is the decoder's stream, its end is [io.EOF]. *)
Fixpoint manifest_loop (options : CleanupOptions)
    (cleanerFactory : ObjectCleanerFactory) (documentCount : nat)
    (input : list decoded) : list KubernetesObject * run_end :=
  match input with
  | [] => ([], Finished)
  | Malformed :: _ => ([], DecodeFailure (S documentCount))
  | Document obj :: rest =>
      let documentCount := S documentCount in
      if String.eqb (Kind obj) "" && String.eqb (APIVersion obj) ""
      then manifest_loop options cleanerFactory documentCount rest
      else if String.eqb (Kind obj) ""
      then manifest_loop options cleanerFactory documentCount rest
      else if String.eqb (APIVersion obj) ""
      then manifest_loop options cleanerFactory documentCount rest
      else
        match cleanupKubernetesObject obj options cleanerFactory with
        | Panic msg => ([], Panicked msg)
        | Done cleaned =>
            if encode cleaned then
              let '(written, ending) :=
                manifest_loop options cleanerFactory documentCount rest in
              (cleaned :: written, ending)
            else ([], EncodeFailure documentCount)
        end
  end.

Definition cleanupManifest (input : list decoded) (options : CleanupOptions)
  : list KubernetesObject * run_end :=
  manifest_loop options NewObjectCleanerFactory 0 input.
End Manifest.

(** ** Vocabulary of the properties *)

(** Reading a dot path the way the resolver walks it: the first segment
    names a top-level field, every further one a key of a
    [map[string]interface{}]. *)
Definition top_field (obj : KubernetesObject) (top : string)
  : option (gmap string value) :=
  if String.eqb top "metadata" then Metadata obj
  else if String.eqb top "spec" then Spec obj
  else if String.eqb top "status" then Status obj
  else if String.eqb top "data" then Data obj
  else if String.eqb top "stringData" then StringData obj
  else None.

Fixpoint descend (m : gmap string value) (segments : list string)
  : option (gmap string value) :=
  match segments with
  | [] => Some m
  | k :: rest =>
      match m !! k with
      | Some (VMap next) => descend next rest
      | _ => None
      end
  end.

(** The document that the intermediate segments resolve to, if they do. *)
Definition resolve (obj : KubernetesObject) (top : string) (mids : list string)
  : option (gmap string value) :=
  m ← top_field obj top; descend m mids.

(** The value stored at [keys] below a map. *)
Fixpoint value_at (m : gmap string value) (keys : list string) : option value :=
  match keys with
  | [] => Some (VMap m)
  | [k] => m !! k
  | k :: rest =>
      match m !! k with
      | Some (VMap next) => value_at next rest
      | _ => None
      end
  end.

Definition field_at (obj : KubernetesObject) (top : string) (keys : list string)
  : option value :=
  m ← top_field obj top; value_at m keys.

(** Two key paths are related when one is a prefix of the other: the
    shorter one then holds, or is held by, what the longer one addresses. *)
Definition related (p q : list string) : Prop :=
  p `prefix_of` q ∨ q `prefix_of` p.

(** The parts of an object that [removeField] cannot address. *)
Definition same_identity (obj obj' : KubernetesObject) : Prop :=
  APIVersion obj' = APIVersion obj ∧ Kind obj' = Kind obj.

(** Storing into the top-level field a first segment names. *)
Definition set_top (top : string) (obj : KubernetesObject)
    (v : option (gmap string value)) : KubernetesObject :=
  if String.eqb top "metadata" then set_Metadata obj v
  else if String.eqb top "spec" then set_Spec obj v
  else if String.eqb top "status" then set_Status obj v
  else if String.eqb top "data" then set_Data obj v
  else if String.eqb top "stringData" then set_StringData obj v
  else obj.

(** A decoded document with exactly one of [kind] and [apiVersion] empty. *)
Definition half_identified (obj : KubernetesObject) : Prop :=
  (Kind obj = "" ∧ APIVersion obj ≠ "") ∨ (Kind obj ≠ "" ∧ APIVersion obj = "").

Definition set_ResourceStateMode (options : CleanupOptions) (mode : string)
  : CleanupOptions :=
  {| RemoveManagedFields := RemoveManagedFields options;
     RemoveStatus := RemoveStatus options;
     RemoveNamespace := RemoveNamespace options;
     RemoveClusterName := RemoveClusterName options;
     RemoveLabels := RemoveLabels options;
     RemoveAnnotations := RemoveAnnotations options;
     RemoveEmpty := RemoveEmpty options;
     CleanupFinalizers := CleanupFinalizers options;
     RevertToDeployment := RevertToDeployment options;
     PreserveResourceState := PreserveResourceState options;
     ResourceStateMode := mode |}.

(** A key is absent from a top-level field (a nil field has no keys). *)
Definition lacks (field : option (gmap string value)) (k : string) : Prop :=
  ∀ m, field = Some m → m !! k = None.

(** The bookkeeping keys the cluster assigns under [metadata]. *)
Definition cluster_assigned : list string :=
  [ "creationTimestamp"; "resourceVersion"; "selfLink"; "uid"; "ownerReferences" ].

(** Does a value hold an empty map or an empty sequence, itself included? *)
Fixpoint has_empty (v : value) : bool :=
  match v with
  | VList l =>
      match l with
      | [] => true
      | _ => existsb has_empty l
      end
  | VMap m => len_zero m || map_fold (λ _ x acc, has_empty x || acc) false m
  | VIMap m => len_zero m || map_fold (λ _ x acc, has_empty x || acc) false m
  | _ => false
  end.

(** Does a top-level field hold a nested empty map or sequence?  The field
    itself is not counted: the encoder omits an empty top-level field. *)
Definition holds_empty (field : option (gmap string value)) : bool :=
  match field with
  | Some m => map_fold (λ _ x acc, has_empty x || acc) false m
  | None => false
  end.

Definition output_holds_empty (obj : KubernetesObject) : bool :=
  holds_empty (Metadata obj) || holds_empty (Spec obj) || holds_empty (Status obj)
  || holds_empty (Data obj) || holds_empty (StringData obj).

(** A cleaner other than the generic one. *)
Definition kind_specific (c : ObjectCleaner) : bool :=
  match c with
  | GenericObjectCleaner _ => false
  | _ => true
  end.

(** Example documents. *)
Definition example_object (apiVersion kind : string)
    (metadata spec : option (gmap string value)) : KubernetesObject :=
  {| APIVersion := apiVersion; Kind := kind; Metadata := metadata; Spec := spec;
     Status := None; Data := None; StringData := None; Type_ := "" |}.

(** An Ingress (a kind with no cleaner of its own) as yaml.v2 decodes
    [spec: {rules: [], defaultBackend: {}}]. *)
Definition ingress_with_empties : KubernetesObject :=
  example_object "networking.k8s.io/v1" "Ingress"
    (Some {[ "name" := VStr "web" ]})
    (Some {[ "rules" := VList []; "defaultBackend" := VIMap ∅ ]}).

(** A Service as yaml.v2 decodes [spec: {ports: [{port: 80, protocol: TCP}]}]:
    the port entry is a [map[interface{}]interface{}]. *)
Definition service_decoded : KubernetesObject :=
  example_object "v1" "Service"
    (Some {[ "name" := VStr "web" ]})
    (Some {[ "ports" :=
               VList [ VIMap {[ KStr "port" := VInt 80;
                                KStr "protocol" := VStr "TCP" ]} ] ]}).

(** The port entry of Scenario D as a [map[string]interface{}]. *)
Definition tcp_port_entry : value :=
  VMap {[ "port" := VInt 80; "protocol" := VStr "TCP" ]}.

(** The name the Volume Rule reads off a volume or a mount entry: the entry
    must be a [map[string]interface{}] with a string under ["name"]. *)
Definition entry_name (v : value) : option string :=
  match v with
  | VMap m => string_name m
  | _ => None
  end.

(** The volumes the Volume Rule removes: a [map[string]interface{}] with a
    string name that has the credential prefix or that projects a
    service-account token. *)
Definition injected_volume (volume : value) : bool :=
  match volume with
  | VMap volumeMap =>
      match string_name volumeMap with
      | Some name =>
          HasPrefix name "kube-api-access-" || isServiceAccountToken volumeMap
      | None => false
      end
  | _ => false
  end.

(** A field of a document entry as the written YAML shows it, whichever of
    the two Go map types holds the entry. *)
Definition entry_field (entry : value) (key : string) : option value :=
  match entry with
  | VMap m => m !! key
  | VIMap m => m !! KStr key
  | _ => None
  end.

(** The name an entry carries in the written YAML. *)
Definition written_name (entry : value) : option string :=
  match entry_field entry "name" with
  | Some (VStr name) => Some name
  | _ => None
  end.

(** An entry the cleaners can read: a [map[string]interface{}]. *)
Definition string_keyed (entry : value) : bool :=
  match entry with
  | VMap _ => true
  | _ => false
  end.

(** The entries of the [volumes] list of a pod spec. *)
Definition declared_volumes (spec : gmap string value) : list value :=
  match spec !! "volumes" with
  | Some (VList volumes) => volumes
  | _ => []
  end.

(** The containers and init-containers of a pod spec. *)
Definition listed_containers (spec : gmap string value) : list value :=
  containerType ← containerTypes;
  match spec !! containerType with
  | Some (VList containers) => containers
  | _ => []
  end.

(** The entries of the [volumeMounts] list of one container. *)
Definition container_mounts (container : value) : list value :=
  match entry_field container "volumeMounts" with
  | Some (VList volumeMounts) => volumeMounts
  | _ => []
  end.

(** Every [volumeMounts] entry of every container and init-container. *)
Definition all_mounts (spec : gmap string value) : list value :=
  listed_containers spec ≫= container_mounts.

(** No dangling mount: every name a mount entry carries is the name of an
    entry of the volumes list. *)
Definition no_dangling_mount (spec : gmap string value) : Prop :=
  ∀ name, name ∈ omap written_name (all_mounts spec) →
          name ∈ omap written_name (declared_volumes spec).

Global Instance no_dangling_mount_dec (spec : gmap string value) :
  Decision (no_dangling_mount spec).
Proof.
  refine (cast_if (decide (omap written_name (all_mounts spec)
                           ⊆ omap written_name (declared_volumes spec)))); done.
Defined.

(** The names of the volumes the Volume Rule removes from a pod spec. *)
Definition removed_volume_names (spec : gmap string value) : list string :=
  omap written_name
       (filter (λ volume, injected_volume volume = true) (declared_volumes spec)).

(** A mount entry that carries the name of a removed volume. *)
Definition names_removed_volume (spec : gmap string value) (vm : value) : bool :=
  match written_name vm with
  | Some name => bool_decide (name ∈ removed_volume_names spec)
  | None => false
  end.

(** Every mount that names a removed volume is one the Volume Rule can read:
    a string-keyed entry of a string-keyed container. *)
Definition rule_reads_mounts (spec : gmap string value) : Prop :=
  Forall (λ container,
            Forall (λ vm, names_removed_volume spec vm = true →
                          string_keyed container = true ∧ string_keyed vm = true)
                   (container_mounts container))
         (listed_containers spec).

Global Instance rule_reads_mounts_dec (spec : gmap string value) :
  Decision (rule_reads_mounts spec).
Proof. unfold rule_reads_mounts. apply _. Defined.

(** A pod spec whose one container mounts a volume that is not declared. *)
Definition pod_spec_dangling : gmap string value :=
  {[ "containers" :=
       VList [ VMap {[ "name" := VStr "app";
                       "image" := VStr "nginx";
                       "volumeMounts" :=
                         VList [ VMap {[ "name" := VStr "data";
                                         "mountPath" := VStr "/data" ]} ] ]} ] ]}.

(** A pod spec with an injected credential volume and a declared one, both
    mounted. *)
Definition pod_spec_injected : gmap string value :=
  {[ "volumes" :=
       VList [ VMap {[ "name" := VStr "kube-api-access-x7k2p";
                       "projected" := VMap {[ "sources" := VList [] ]} ]};
               VMap {[ "name" := VStr "data"; "emptyDir" := VMap ∅ ]} ];
     "containers" :=
       VList [ VMap {[ "name" := VStr "app";
                       "volumeMounts" :=
                         VList [ VMap {[ "name" := VStr "kube-api-access-x7k2p" ]};
                                 VMap {[ "name" := VStr "data" ]} ] ]} ] ]}.

(** A hand-built pod spec that mixes the two map types: the injected volume
    is string-keyed, the mount that names it is not. *)
Definition pod_spec_mixed : gmap string value :=
  {[ "volumes" :=
       VList [ VMap {[ "name" := VStr "kube-api-access-x7k2p";
                       "projected" := VMap {[ "sources" := VList [] ]} ]} ];
     "containers" :=
       VList [ VMap {[ "name" := VStr "app";
                       "volumeMounts" :=
                         VList [ VIMap {[ KStr "name" :=
                                            VStr "kube-api-access-x7k2p" ]} ] ]} ] ]}.

(** The labels the reconstructor derives: the pod labels without the
    template hash, or one synthetic label when none remain. *)
Definition derived_labels (podLabels : gmap string value)
    (deploymentName : string) : gmap string value :=
  let rest := delete "pod-template-hash" podLabels in
  if decide (rest = ∅) then {[ "app" := VStr deploymentName ]} else rest.

(** Scenario B with a pod spec that names its node. *)
Definition scenario_pod_spec : gmap string value :=
  {[ "nodeName" := VStr "node-1";
     "containers" :=
       VList [ VMap {[ "name" := VStr "app"; "image" := VStr "nginx" ]} ] ]}.

Definition scenario_pod : KubernetesObject :=
  example_object "v1" "Pod"
    (Some {[ "name" := VStr "myapp-abc123-xk2qz";
             "labels" := VMap {[ "app" := VStr "myapp";
                                 "pod-template-hash" := VStr "abc123" ]} ]})
    (Some scenario_pod_spec).

(** A Deployment built from string-keyed documents, the way the
    repository's tests build their inputs. *)
Definition deployment_example : KubernetesObject :=
  {| APIVersion := "apps/v1";
     Kind := "Deployment";
     Metadata :=
       Some {[ "name" := VStr "myapp";
               "uid" := VStr "a174f3d1-0b1d-4ec5-9da4-8b7c889362ca";
               "resourceVersion" := VStr "4433";
               "generation" := VInt 2 ]};
     Spec :=
       Some {[ "replicas" := VInt 1;
               "template" :=
                 VMap {[ "metadata" :=
                           VMap {[ "creationTimestamp" := VNil;
                                   "labels" := VMap {[ "app" := VStr "myapp" ]} ]};
                         "spec" :=
                           VMap {[ "containers" :=
                                     VList [ VMap {[ "name" := VStr "nginx";
                                                     "image" := VStr "nginx" ]} ] ]} ]} ]};
     Status := Some {[ "readyReplicas" := VInt 1 ]};
     Data := None;
     StringData := None;
     Type_ := "" |}.

Definition preserving_options : CleanupOptions :=
  {| RemoveManagedFields := true;
     RemoveStatus := true;
     RemoveNamespace := true;
     RemoveClusterName := false;
     RemoveLabels := [];
     RemoveAnnotations := [];
     RemoveEmpty := true;
     CleanupFinalizers := true;
     RevertToDeployment := true;
     PreserveResourceState := true;
     ResourceStateMode := "Desired" |}.

(** A Pod that passes the revert guard and has no name. *)
Definition nameless_pod : KubernetesObject :=
  example_object "v1" "Pod"
    (Some {[ "labels" := VMap {[ "pod-template-hash" := VStr "abc123" ]} ]})
    (Some {[ "containers" := VList [ VMap {[ "image" := VStr "nginx" ]} ] ]}).

(** The same Pod decoded from a document without [apiVersion]. *)
Definition nameless_pod_no_version : KubernetesObject :=
  example_object "" "Pod"
    (Some {[ "labels" := VMap {[ "pod-template-hash" := VStr "abc123" ]} ]})
    (Some {[ "containers" := VList [ VMap {[ "image" := VStr "nginx" ]} ] ]}).

Definition configmap_example : KubernetesObject :=
  {| APIVersion := "v1";
     Kind := "ConfigMap";
     Metadata := Some {[ "name" := VStr "settings"; "uid" := VStr "1f0c" ]};
     Spec := None;
     Status := None;
     Data := Some {[ "mode" := VStr "fast" ]};
     StringData := None;
     Type_ := "" |}.

(** A path of one or two segments, as every path of the state tables is. *)
Definition shallow (fieldPath : string) : Prop :=
  (length (Split fieldPath ".") ≤ 2)%nat.

(** A Pod as yaml.v2 decodes Scenario B: the labels are a
    [map[interface{}]interface{}]. *)
Definition scenario_pod_decoded : KubernetesObject :=
  example_object "v1" "Pod"
    (Some {[ "name" := VStr "myapp-abc123-xk2qz";
             "labels" := VIMap {[ KStr "app" := VStr "myapp";
                                  KStr "pod-template-hash" := VStr "abc123" ]} ]})
    (Some {[ "containers" :=
               VList [ VIMap {[ KStr "name" := VStr "app";
                                KStr "image" := VStr "nginx" ]} ] ]}).

Definition set_RemoveEmpty (options : CleanupOptions) (b : bool) : CleanupOptions :=
  {| RemoveManagedFields := RemoveManagedFields options;
     RemoveStatus := RemoveStatus options;
     RemoveNamespace := RemoveNamespace options;
     RemoveClusterName := RemoveClusterName options;
     RemoveLabels := RemoveLabels options;
     RemoveAnnotations := RemoveAnnotations options;
     RemoveEmpty := b;
     CleanupFinalizers := CleanupFinalizers options;
     RevertToDeployment := RevertToDeployment options;
     PreserveResourceState := PreserveResourceState options;
     ResourceStateMode := ResourceStateMode options |}.

(** The pod spec [pod_spec_injected] as yaml.v2 decodes it below the
    top-level [spec] field: every nested document is a
    [map[interface{}]interface{}]. *)
Definition pod_spec_injected_decoded : gmap string value :=
  {[ "volumes" :=
       VList [ VIMap {[ KStr "name" := VStr "kube-api-access-x7k2p";
                        KStr "projected" := VIMap {[ KStr "sources" := VList [] ]} ]};
               VIMap {[ KStr "name" := VStr "data"; KStr "emptyDir" := VIMap ∅ ]} ];
     "containers" :=
       VList [ VIMap {[ KStr "name" := VStr "app";
                        KStr "volumeMounts" :=
                          VList [ VIMap {[ KStr "name" := VStr "kube-api-access-x7k2p" ]};
                                  VIMap {[ KStr "name" := VStr "data" ]} ] ]} ] ]}.

(** ** Vocabulary of the further properties *)

(** The guard of [revertPodToDeployment]: the hash it reads off a Pod whose
    labels are a [map[string]interface{}] with a non-empty string under
    [pod-template-hash]. *)
Definition revert_hash (obj : KubernetesObject) : option string :=
  if String.eqb (Kind obj) "Pod" then
    match Metadata obj with
    | Some metadata =>
        match metadata !! "labels" with
        | Some (VMap podLabels) =>
            match podLabels !! "pod-template-hash" with
            | Some (VStr hashStr) =>
                if String.eqb hashStr "" then None else Some hashStr
            | _ => None
            end
        | _ => None
        end
    | None => None
    end
  else None.

(** [metadata["name"]] when it is a string. *)
Definition metadata_name (obj : KubernetesObject) : option string :=
  match Metadata obj with
  | Some metadata => string_name metadata
  | None => None
  end.

(** The shapes of the paths in the state tables. *)
Definition table_path (fieldPath : string) : Prop :=
  fieldPath = "status" ∨ fieldPath = "metadata.generation" ∨
  ∃ key, Split fieldPath "." = ["spec"; key].

(** The fields no state-table path names. *)
Definition same_payload (obj obj' : KubernetesObject) : Prop :=
  APIVersion obj' = APIVersion obj ∧ Kind obj' = Kind obj ∧
  Data obj' = Data obj ∧ StringData obj' = StringData obj ∧
  Type_ obj' = Type_ obj.

(** A Pod without the template-hash label (Scenario C). *)
Definition bare_pod : KubernetesObject :=
  example_object "v1" "Pod"
    (Some {[ "name" := VStr "standalone";
             "namespace" := VStr "tools";
             "uid" := VStr "77aa" ]})
    (Some {[ "nodeName" := VStr "node-1";
             "containers" :=
               VList [ VMap {[ "name" := VStr "app"; "image" := VStr "nginx" ]} ] ]}).

(** What the pruner is meant to leave nowhere below the root: a nil, an
    empty map or sequence, and a [map[interface{}]interface{}]. *)
Definition prunable (v : value) : bool :=
  match v with
  | VNil => true
  | VList l => bool_decide (l = [])
  | VMap m => len_zero m
  | VIMap _ => true
  | _ => false
  end.

Fixpoint holds_prunable (v : value) : bool :=
  match v with
  | VList l => existsb (λ x, prunable x || holds_prunable x) l
  | VMap m => map_fold (λ _ x acc, (prunable x || holds_prunable x) || acc) false m
  | VIMap m => map_fold (λ _ x acc, (prunable x || holds_prunable x) || acc) false m
  | _ => false
  end.

(** A top-level field after pruning: nil, or a non-empty map that holds
    nothing prunable. *)
Definition field_pruned (field : option (gmap string value)) : Prop :=
  match field with
  | None => True
  | Some m => m ≠ ∅ ∧ holds_prunable (VMap m) = false
  end.

(** The values that are neither nil nor containers. *)
Definition is_scalar (v : value) : bool :=
  match v with
  | VStr _ | VInt _ | VBool _ | VFloat _ => true
  | _ => false
  end.

(** The kinds [NewObjectCleanerFactory] registers a cleaner for. *)
Definition specific_kinds : list string :=
  [ "Deployment"; "Service"; "StatefulSet"; "DaemonSet"; "Pod"; "ConfigMap";
    "Secret" ].

(** A document with empty containers at several depths, as yaml.v2 decodes
    it. *)
Definition nested_empties : value :=
  VIMap {[ KStr "a" := VIMap {[ KStr "b" := VList [VIMap ∅; VNil] ]};
           KStr "c" := VStr "";
           KStr "d" := VList [VInt 0; VList []];
           KInt 7 := VStr "dropped" ]}.

(** The final step of the kind-specific cleaners on one top-level field. *)
Definition prune_if (options : CleanupOptions)
    (field : option (gmap string value)) : option (gmap string value) :=
  if RemoveEmpty options then prune_top_level field else field.

(** Every key the Metadata Rule Set can delete by name. *)
Definition managed_metadata_keys : list string :=
  [ "creationTimestamp"; "resourceVersion"; "selfLink"; "uid"; "ownerReferences";
    "generation"; "managedFields"; "finalizers"; "namespace" ].

(** The kinds that have a state table. *)
Definition stateful_kinds : list string := [ "Deployment"; "Service"; "Pod" ].

(** The options with another status switch. *)
Definition set_RemoveStatus (options : CleanupOptions) (b : bool) : CleanupOptions :=
  {| RemoveManagedFields := RemoveManagedFields options;
     RemoveStatus := b;
     RemoveNamespace := RemoveNamespace options;
     RemoveClusterName := RemoveClusterName options;
     RemoveLabels := RemoveLabels options;
     RemoveAnnotations := RemoveAnnotations options;
     RemoveEmpty := RemoveEmpty options;
     CleanupFinalizers := CleanupFinalizers options;
     RevertToDeployment := RevertToDeployment options;
     PreserveResourceState := PreserveResourceState options;
     ResourceStateMode := ResourceStateMode options |}.

(** A CronJob, a kind with no cleaner of its own, carrying what the
    kind-specific cleaners would remove. *)
Definition cronjob_example : KubernetesObject :=
  {| APIVersion := "batch/v1";
     Kind := "CronJob";
     Metadata := Some {[ "name" := VStr "nightly"; "uid" := VStr "c0ffee" ]};
     Spec := Some {[ "schedule" := VStr "0 3 * * *";
                     "nodeName" := VStr "node-1";
                     "suspend" := VBool false;
                     "jobTemplate" := VMap ∅ ]};
     Status := Some {[ "lastScheduleTime" := VStr "2024-01-01T03:00:00Z" ]};
     Data := None;
     StringData := None;
     Type_ := "" |}.

(** A Deployment as [kubectl get -o yaml] prints it, with string-keyed
    labels and annotations. *)
Definition annotated_deployment : KubernetesObject :=
  {| APIVersion := "apps/v1";
     Kind := "Deployment";
     Metadata :=
       Some {[ "name" := VStr "web";
               "namespace" := VStr "shop";
               "uid" := VStr "a174f3d1";
               "generation" := VInt 3;
               "labels" := VMap {[ "app" := VStr "web"; "tier" := VStr "" ]};
               "annotations" :=
                 VMap {[ "deployment.kubernetes.io/revision" := VStr "3";
                         "kubernetes.io/change-cause" := VStr "rollout";
                         "team" := VStr "payments" ]} ]};
     Spec := Some {[ "replicas" := VInt 2 ]};
     Status := Some {[ "readyReplicas" := VInt 2 ]};
     Data := None;
     StringData := None;
     Type_ := "" |}.

(** The key a state-table path names under [spec]. *)
Definition spec_key (fieldPath : string) : option string :=
  match Split fieldPath "." with
  | [top; key] => if String.eqb top "spec" then Some key else None
  | _ => None
  end.

(** The keys the preservation gate deletes from [spec]. *)
Definition gate_spec_keys (kind : string) (options : CleanupOptions) : list string :=
  if PreserveResourceState options then
    match resourceStateFields !! kind with
    | Some stateFields =>
        omap spec_key (fieldsToRemoveForState (ResourceStateMode options) stateFields)
    | None => []
    end
  else [].

(** The one key [cleanConfigMapData] deletes. *)
Definition last_applied : string :=
  "kubectl.kubernetes.io/last-applied-configuration".

(** Scenario A's Service with the addresses the cluster assigned. *)
Definition service_example : KubernetesObject :=
  example_object "v1" "Service"
    (Some {[ "name" := VStr "web" ]})
    (Some {[ "clusterIP" := VStr "10.0.0.12";
             "clusterIPs" := VList [VStr "10.0.0.12"];
             "ipFamilies" := VList [VStr "IPv4"];
             "type" := VStr "ClusterIP";
             "selector" := VMap {[ "app" := VStr "web" ]} ]}).

(** Scenario E: the marker is the content of an entry, not its key. *)
Definition configmap_marker_content : KubernetesObject :=
  {| APIVersion := "v1";
     Kind := "ConfigMap";
     Metadata := Some {[ "name" := VStr "settings" ]};
     Spec := None;
     Status := None;
     Data :=
       Some {[ "extra" := VStr "kubectl.kubernetes.io/last-applied-configuration=1";
               "kubectl.kubernetes.io/last-applied-configuration" := VStr "{}";
               "mode" := VStr "fast" ]};
     StringData := None;
     Type_ := "" |}.

(** A default service-account token, the Secret the cleaner only logs. *)
Definition token_secret : KubernetesObject :=
  {| APIVersion := "v1";
     Kind := "Secret";
     Metadata := Some {[ "name" := VStr "default-token-x7k2p" ]};
     Spec := None;
     Status := None;
     Data := Some {[ "ca.crt" := VStr ""; "token" := VStr "ZXlK" ]};
     StringData := None;
     Type_ := "kubernetes.io/service-account-token" |}.

(** The kinds whose cleaners share the pod-template block. *)
Definition workload_kinds : list string :=
  [ "Deployment"; "StatefulSet"; "DaemonSet" ].

(** The keys of a pod spec that hold lists the Pod-Spec Rule Set rewrites. *)
Definition pod_list_keys : list string := [ "containers"; "initContainers"; "volumes" ].

(** A port entry that still names the default protocol. *)
Definition default_protocol (p : value) : bool :=
  match p with
  | VMap portMap =>
      match portMap !! "protocol" with
      | Some (VStr protoStr) => String.eqb (ToUpper protoStr) "TCP"
      | _ => false
      end
  | _ => false
  end.

(** An entry that is an empty [map[string]interface{}]. *)
Definition empty_entry (p : value) : bool :=
  match p with
  | VMap m => len_zero m
  | _ => false
  end.




Section Stream.
Variable encode : KubernetesObject → bool.

(** A document the manifest loop gets past: it is skipped, or it is cleaned
    and the sink accepts the result. *)
Definition passes (options : CleanupOptions) (d : decoded) : Prop :=
  match d with
  | Malformed => False
  | Document obj =>
      Kind obj = "" ∨ APIVersion obj = "" ∨
      ∃ cleaned,
        cleanupKubernetesObject obj options NewObjectCleanerFactory = Done cleaned ∧
        encode cleaned = true
  end.
End Stream.

(** What the loop writes for one document it gets past. *)
Definition written_for (options : CleanupOptions) (d : decoded)
  : list KubernetesObject :=
  match d with
  | Malformed => []
  | Document obj =>
      if String.eqb (Kind obj) "" || String.eqb (APIVersion obj) "" then []
      else match cleanupKubernetesObject obj options NewObjectCleanerFactory with
           | Done cleaned => [cleaned]
           | Panic _ => []
           end
  end.

(** A stream of three documents: a Service, a document without a kind and a
    ConfigMap. *)
Definition three_documents : list decoded :=
  [ Document service_example;
    Document (example_object "v1" "" None None);
    Document configmap_example ].

(** The bookkeeping keys a workload cleaner deletes from [spec]. *)
Definition workload_fieldsToRemove (kind : string) : list string :=
  if String.eqb kind "Deployment"
  then [ "progressDeadlineSeconds"; "revisionHistoryLimit" ]
  else [ "revisionHistoryLimit" ].

(** A StatefulSet with a string-keyed pod template. *)
Definition statefulset_example : KubernetesObject :=
  {| APIVersion := "apps/v1";
     Kind := "StatefulSet";
     Metadata := Some {[ "name" := VStr "db" ]};
     Spec :=
       Some {[ "replicas" := VInt 3;
               "revisionHistoryLimit" := VInt 10;
               "serviceName" := VStr "db";
               "template" :=
                 VMap {[ "metadata" := VMap {[ "creationTimestamp" := VNil ]};
                         "spec" :=
                           VMap {[ "nodeName" := VStr "node-1";
                                   "dnsPolicy" := VStr "ClusterFirst";
                                   "containers" :=
                                     VList [ VMap {[ "name" := VStr "db";
                                                     "imagePullPolicy" :=
                                                       VStr "Always" ]} ] ]} ]} ]};
     Status := Some {[ "readyReplicas" := VInt 3 ]};
     Data := None;
     StringData := None;
     Type_ := "" |}.

(** ** The first cleaner: [removeRuntimeFields]

    The repository also holds the cleaner the engine above replaced, which
    works on the whole document as one [map[string]interface{}].  Its path
    walk differs from the Path Resolver's. *)
Module Legacy.

Definition runtimeFieldsToRemove : list string :=
  [ "status";
    "template.generation";
    "metadata.generation";
    "metadata.resourceVersion";
    "metadata.selfLink";
    "metadata.uid";
    "metadata.creationTimestamp";
    "metadata.deletionTimestamp";
    "metadata.deletionGracePeriodSeconds";
    "metadata.managedFields" ].

(** The walk over [parts[:len(parts)-1]] followed by
    [delete(current, parts[len(parts)-1])]: a segment that does not resolve
    to a [map[string]interface{}] ends the walk with [break], and the last
    segment is then deleted from the map reached so far. *)
Fixpoint delete_last_reached (parts : list string) (current : gmap string value)
  : gmap string value :=
  match parts with
  | [] => current
  | [final] => delete final current
  | part :: rest =>
      match current !! part with
      | Some (VMap next) => <[part := VMap (delete_last_reached rest next)]> current
      | _ => delete (default part (last rest)) current
      end
  end.

Definition removeRuntimeFields (m : gmap string value) : gmap string value :=
  foldl (λ m path, delete_last_reached (Split path ".") m) m runtimeFieldsToRemove.

(** The last segments of the eight [metadata.*] paths. *)
Definition metadata_finals : list string :=
  [ "generation"; "resourceVersion"; "selfLink"; "uid"; "creationTimestamp";
    "deletionTimestamp"; "deletionGracePeriodSeconds"; "managedFields" ].

(** A document as yaml.v2 unmarshals it into a [map[string]interface{}]:
    the nested [metadata] is a [map[interface{}]interface{}]. *)
Definition decoded_document : gmap string value :=
  {[ "kind" := VStr "ConfigMap";
     "uid" := VStr "top-level";
     "metadata" := VIMap {[ KStr "name" := VStr "settings";
                            KStr "uid" := VStr "1f0c" ]};
     "status" := VIMap ∅ ]}.

End Legacy.
(** * Properties *)

(** ** Induction over nested values *)

Lemma vsize_list_elem (l : list value) (v : value) :
  v ∈ l → vsize v < vsize (VList l).
Proof.
  induction 1 as [x l|x y l _ IH]; simpl in *; lia.
Qed.

Lemma vsize_map_fold_lookup {K} `{Countable K} (m : gmap K value) k v :
  m !! k = Some v →
  vsize v ≤ map_fold (λ _ x acc, vsize x + acc) 0 m.
Proof.
  intros Hk. rewrite <- (insert_delete_id m k v Hk).
  rewrite map_fold_insert_L.
  - lia.
  - intros. lia.
  - apply lookup_delete_eq.
Qed.

Lemma value_nested_ind (P : value → Prop) :
  P VNil →
  (∀ s, P (VStr s)) →
  (∀ z, P (VInt z)) →
  (∀ b, P (VBool b)) →
  (∀ f, P (VFloat f)) →
  (∀ l, Forall P l → P (VList l)) →
  (∀ m, map_Forall (λ _, P) m → P (VMap m)) →
  (∀ m, map_Forall (λ _, P) m → P (VIMap m)) →
  ∀ v, P v.
Proof.
  intros Hnil Hstr Hint Hbool Hfloat Hlist Hmap Himap v.
  remember (vsize v) as n eqn:Hn. revert v Hn.
  induction n as [n IH] using lt_wf_ind. intros v ->.
  destruct v; auto.
  - apply Hlist, Forall_forall. intros x Hx.
    apply (IH (vsize x)); [by apply vsize_list_elem|done].
  - apply Hmap. intros k x Hk.
    apply (IH (vsize x)); [|done].
    simpl. pose proof (vsize_map_fold_lookup m k x Hk). lia.
  - apply Himap. intros k x Hk.
    apply (IH (vsize x)); [|done].
    simpl. pose proof (vsize_map_fold_lookup m k x Hk). lia.
Qed.

(** ** Basic facts about maps and the pruner *)

Lemma len_zero_true {K A} `{Countable K} (m : gmap K A) :
  len_zero m = true ↔ m = ∅.
Proof.
  unfold len_zero. rewrite bool_decide_eq_true. apply map_size_empty_iff.
Qed.

Lemma len_zero_false {K A} `{Countable K} (m : gmap K A) :
  len_zero m = false ↔ m ≠ ∅.
Proof.
  unfold len_zero. rewrite bool_decide_eq_false. by rewrite map_size_empty_iff.
Qed.

Lemma lookup_string_keys {A} (m : gmap ikey A) (s : string) :
  string_keys m !! s = m !! KStr s.
Proof.
  unfold string_keys.
  apply (map_fold_weak_ind (λ r m, r !! s = m !! KStr s)).
  - by rewrite !lookup_empty.
  - intros k x m' r Hk IH. destruct k as [s'| | | |];
      try (rewrite lookup_insert_ne; [done|discriminate]).
    destruct (decide (s' = s)) as [->|Hne].
    + by rewrite !lookup_insert_eq.
    + rewrite !lookup_insert_ne; [done|congruence|done].
Qed.

Lemma removeEmptyFields_VMap (m : gmap string value) :
  removeEmptyFields (VMap m) =
  let cleanedMap := omap (λ v, keep_entry v (removeEmptyFields v)) m in
  if len_zero cleanedMap then VNil else VMap cleanedMap.
Proof. reflexivity. Qed.

Lemma removeEmptyFields_VIMap (m : gmap ikey value) :
  removeEmptyFields (VIMap m) =
  let cleanedMap := string_keys (omap (λ v, keep_entry v (removeEmptyFields v)) m) in
  if len_zero cleanedMap then VNil else VMap cleanedMap.
Proof. reflexivity. Qed.

Lemma removeEmptyFields_VList (l : list value) :
  removeEmptyFields (VList l) =
  match omap (λ item, keep_item (removeEmptyFields item)) l with
  | [] => VNil
  | cleanedSlice => VList cleanedSlice
  end.
Proof.
  destruct l as [|v l]; [done|].
  change (removeEmptyFields (VList (v :: l))) with
    (match omap (λ item, keep_item (removeEmptyFields item)) (v :: l) with
     | [] => VNil
     | _ => VList (omap (λ item, keep_item (removeEmptyFields item)) (v :: l))
     end).
  by destruct (omap _ (v :: l)).
Qed.

(** The empty-string branch of the map loop never fires: the pruner returns
    a string as it is, so the cleaned value of [""] is not nil. *)
Lemma keep_entry_pruned (v : value) :
  keep_entry v (removeEmptyFields v) = keep_item (removeEmptyFields v).
Proof.
  destruct (removeEmptyFields v) eqn:Hr; try reflexivity.
  destruct v; try reflexivity. discriminate.
Qed.

Lemma keep_item_Some (c x : value) :
  keep_item c = Some x ↔ c = x ∧ x ≠ VNil.
Proof.
  destruct c; simpl; split; try (intros [= <-]; done);
    try (intros [<- ?]; done).
Qed.

Lemma keep_item_fixed (v c : value) :
  removeEmptyFields (removeEmptyFields v) = removeEmptyFields v →
  keep_item (removeEmptyFields v) = Some c →
  keep_entry c (removeEmptyFields c) = Some c.
Proof.
  intros IH [<- Hc]%keep_item_Some.
  rewrite keep_entry_pruned, IH. by apply keep_item_Some.
Qed.

Lemma pruned_map_fixed {K} `{Countable K} (m : gmap K value)
    (cleaned : gmap string value) (key : string → K) :
  map_Forall (λ _ v, removeEmptyFields (removeEmptyFields v) = removeEmptyFields v) m →
  (∀ s, cleaned !! s = m !! key s ≫= λ v, keep_entry v (removeEmptyFields v)) →
  omap (λ v, keep_entry v (removeEmptyFields v)) cleaned = cleaned.
Proof.
  intros IH Hcleaned. apply map_eq. intros s.
  rewrite lookup_omap, Hcleaned.
  destruct (m !! key s) as [v|] eqn:Hv; [simpl|done].
  destruct (keep_entry v (removeEmptyFields v)) as [c|] eqn:Hc; [simpl|done].
  rewrite keep_entry_pruned in Hc.
  eapply keep_item_fixed; [|done]. by eapply IH.
Qed.

Lemma pruned_list_fixed (l : list value) :
  Forall (λ v, removeEmptyFields (removeEmptyFields v) = removeEmptyFields v) l →
  omap (λ item, keep_item (removeEmptyFields item))
       (omap (λ item, keep_item (removeEmptyFields item)) l)
  = omap (λ item, keep_item (removeEmptyFields item)) l.
Proof.
  induction 1 as [|v l Hv _ IH]; [done|]. csimpl.
  destruct (keep_item (removeEmptyFields v)) as [c|] eqn:Hc; [|done].
  csimpl. rewrite IH.
  apply keep_item_Some in Hc as [<- Hc]. rewrite Hv.
  by destruct (removeEmptyFields v).
Qed.

Lemma removeEmptyFields_fixed (v : value) :
  removeEmptyFields (removeEmptyFields v) = removeEmptyFields v.
Proof.
  induction v as [| | | | |l IH|m IH|m IH] using value_nested_ind; try done.
  - rewrite removeEmptyFields_VList.
    destruct (omap _ l) as [|c cs] eqn:Hl; [done|].
    rewrite removeEmptyFields_VList, <- Hl, pruned_list_fixed by done.
    by rewrite Hl.
  - rewrite removeEmptyFields_VMap. simpl.
    destruct (len_zero _) eqn:Hz; [done|].
    rewrite removeEmptyFields_VMap. simpl.
    rewrite (pruned_map_fixed m _ id); [by rewrite Hz|done|].
    intros s. by rewrite lookup_omap.
  - rewrite removeEmptyFields_VIMap. simpl.
    destruct (len_zero _) eqn:Hz; [done|].
    rewrite removeEmptyFields_VMap. simpl.
    rewrite (pruned_map_fixed m _ KStr); [by rewrite Hz|done|].
    intros s. by rewrite lookup_string_keys, lookup_omap.
Qed.

(** C7. Pruner idempotence: for every value, pruning the pruner's output
    yields that output again, so applying [removeEmptyFields] twice equals
    applying it once. *)
Theorem removeEmptyFields_idempotent (data : value) :
  removeEmptyFields (removeEmptyFields data) = removeEmptyFields data.
Proof. apply removeEmptyFields_fixed. Qed.

(** ** The Path Resolver *)

Lemma Split_cons (s : string) (sep : ascii) :
  ∃ top rest, Split s sep = top :: rest.
Proof.
  induction s as [|c s [top [rest IH]]]; simpl; [by eauto|].
  destruct (Ascii.eqb c sep); [by eauto|]. rewrite IH. by eauto.
Qed.

Lemma Split_single_inv (c : ascii) (s : string) (sep : ascii) :
  Split (String c s) sep = [String c s] → c ≠ sep ∧ Split s sep = [s].
Proof.
  simpl. destruct (Ascii.eqb_spec c sep) as [->|Hne]; [done|].
  destruct (Split_cons s sep) as (top & rest & Hs). rewrite Hs.
  intros [= -> ->]. done.
Qed.

Lemma Split_append (x y : string) (sep : ascii) :
  Split x sep = [x] →
  Split (x +:+ String sep y) sep = x :: Split y sep.
Proof.
  induction x as [|c x IH].
  - intros _. simpl. by rewrite Ascii.eqb_refl.
  - intros [Hne Hx]%Split_single_inv. simpl.
    destruct (Ascii.eqb_spec c sep) as [->|_]; [done|]. by rewrite (IH Hx).
Qed.

(** Every list of segments without the separator is what [Split] returns on
    their [Join]: the paths of the resolver are exactly the non-empty lists
    of dot-free segments. *)
Lemma Split_Join (segments : list string) (sep : ascii) :
  segments ≠ [] →
  Forall (λ segment, Split segment sep = [segment]) segments →
  Split (Join segments sep) sep = segments.
Proof.
  intros Hne Hall. induction Hall as [|x rest Hx Hrest IH]; [done|].
  destruct rest as [|y rest]; [done|].
  change (Join (x :: y :: rest) sep) with (x +:+ String sep (Join (y :: rest) sep)).
  rewrite Split_append by done. by rewrite IH.
Qed.

Lemma delete_path_snoc_nil (final : string) (m : gmap string value) :
  delete_path [final] m = delete final m.
Proof. reflexivity. Qed.

Lemma delete_path_snoc_cons (p : string) (mids : list string) (final : string)
    (m : gmap string value) :
  delete_path (p :: mids ++ [final]) m =
  match m !! p with
  | Some (VMap next) => <[p := VMap (delete_path (mids ++ [final]) next)]> m
  | _ => m
  end.
Proof. destruct mids; reflexivity. Qed.

Lemma delete_path_unresolved (mids : list string) (final : string)
    (m : gmap string value) :
  descend m mids = None → delete_path (mids ++ [final]) m = m.
Proof.
  revert m. induction mids as [|p mids IH]; intros m; [done|].
  rewrite <- app_comm_cons, delete_path_snoc_cons. simpl.
  destruct (m !! p) as [[]|] eqn:Hp; try done.
  intros Hd. rewrite (IH _ Hd). by apply insert_id.
Qed.

Lemma delete_path_resolved (mids : list string) (final : string)
    (m m' : gmap string value) :
  descend m mids = Some m' →
  descend (delete_path (mids ++ [final]) m) mids = Some (delete final m').
Proof.
  revert m. induction mids as [|p mids IH]; intros m.
  - by intros [= ->].
  - rewrite <- app_comm_cons, delete_path_snoc_cons. simpl.
    destruct (m !! p) as [[]|] eqn:Hp; try done.
    intros Hd. rewrite lookup_insert_eq. by apply IH.
Qed.

Lemma value_at_cons (m : gmap string value) (k k' : string) (ks : list string) :
  value_at m (k :: k' :: ks) =
  match m !! k with
  | Some (VMap next) => value_at next (k' :: ks)
  | _ => None
  end.
Proof. reflexivity. Qed.

Lemma related_cons (k : string) (p q : list string) :
  related (k :: p) (k :: q) ↔ related p q.
Proof.
  unfold related. split; intros [H|H]; auto using prefix_cons;
    [left|right]; by eapply prefix_cons_inv_2.
Qed.

Lemma delete_path_frame (mids : list string) (final : string)
    (m : gmap string value) (keys : list string) :
  ¬ related (mids ++ [final]) keys →
  value_at (delete_path (mids ++ [final]) m) keys = value_at m keys.
Proof.
  revert m keys. induction mids as [|p mids IH]; intros m keys Hun.
  - destruct keys as [|k ks]; [destruct Hun; right; apply prefix_nil|].
    assert (final ≠ k) as Hne.
    { intros ->. apply Hun. left. apply prefix_cons, prefix_nil. }
    simpl. destruct ks as [|k' ks]; simpl; by rewrite lookup_delete_ne.
  - rewrite <- app_comm_cons in *. rewrite delete_path_snoc_cons.
    destruct keys as [|k ks]; [destruct Hun; right; apply prefix_nil|].
    destruct (m !! p) as [[| | | | | |next|]|] eqn:Hp; try done.
    destruct (decide (p = k)) as [->|Hne].
    + destruct ks as [|k' ks].
      { destruct Hun. right. apply prefix_cons, prefix_nil. }
      rewrite !value_at_cons, lookup_insert_eq, Hp.
      apply IH. by rewrite related_cons in Hun.
    + destruct ks as [|k' ks]; [simpl|rewrite !value_at_cons];
        by rewrite lookup_insert_ne.
Qed.

Ltac case_eqb :=
  repeat match goal with
         | |- context [String.eqb ?a ?b] =>
             destruct (String.eqb_spec a b); subst; try discriminate
         | H : context [String.eqb ?a ?b] |- _ =>
             destruct (String.eqb_spec a b); subst; try discriminate
         end.

(** A concrete string is not in a concrete list of strings. *)
Ltac not_in_list :=
  let Hin := fresh "Hin" in
  intros Hin;
  repeat (apply elem_of_cons in Hin as [Hin|Hin]; [discriminate Hin|]);
  by apply elem_of_nil in Hin.

(** A concrete string is in a concrete list of strings. *)
Ltac in_list :=
  repeat first [apply list_elem_of_here | apply list_elem_of_further].

Lemma top_field_set_top_ne (top top' : string) (obj : KubernetesObject)
    (v : option (gmap string value)) :
  top ≠ top' → top_field (set_top top obj v) top' = top_field obj top'.
Proof.
  intros Hne. unfold set_top, top_field. case_eqb; done.
Qed.

Lemma top_field_set_top_eq (top : string) (obj : KubernetesObject)
    (m : gmap string value) (v : option (gmap string value)) :
  top_field obj top = Some m → top_field (set_top top obj v) top = v.
Proof.
  unfold set_top, top_field. case_eqb; done.
Qed.

Lemma set_top_identity (top : string) (obj : KubernetesObject)
    (v : option (gmap string value)) :
  same_identity obj (set_top top obj v) ∧ Type_ (set_top top obj v) = Type_ obj.
Proof. unfold set_top, same_identity. case_eqb; done. Qed.

Lemma set_top_same (top : string) (obj : KubernetesObject) :
  set_top top obj (top_field obj top) = obj.
Proof.
  unfold set_top, top_field. destruct obj. case_eqb; done.
Qed.

Lemma removeField_single (obj : KubernetesObject) (fieldPath top : string) :
  Split fieldPath "." = [top] →
  removeField obj fieldPath =
  if String.eqb top "type" then set_Type obj "" else set_top top obj None.
Proof.
  intros Hs. unfold removeField, set_top. rewrite Hs. case_eqb; done.
Qed.

Lemma removeField_several (obj : KubernetesObject) (fieldPath top : string)
    (mids : list string) (final : string) :
  Split fieldPath "." = top :: mids ++ [final] →
  removeField obj fieldPath =
  match top_field obj top with
  | Some currentMap =>
      set_top top obj (Some (delete_path (mids ++ [final]) currentMap))
  | None => obj
  end.
Proof.
  intros Hs. unfold removeField, set_top, top_field. rewrite Hs.
  destruct (mids ++ [final]) as [|r rest] eqn:Hrest.
  { by destruct mids. }
  case_eqb; done.
Qed.


(** C5. The Path Resolver: a one-segment path clears the top-level field it
    names and nothing else; a longer path whose intermediate segments all
    resolve to nested documents deletes exactly the final key from the
    document reached, leaving every unrelated path as it was; a longer path
    that does not resolve leaves the object unchanged.  The function is
    total, so no error is surfaced. *)
Theorem removeField_contract (obj : KubernetesObject) (fieldPath top : string)
    (rest : list string) :
  Split fieldPath "." = top :: rest →
  let obj' := removeField obj fieldPath in
  same_identity obj obj' ∧
  (rest = [] →
     top_field obj' top = None ∧
     (top = "type" → Type_ obj' = "") ∧
     (top ≠ "type" → Type_ obj' = Type_ obj) ∧
     (∀ top', top' ≠ top → top_field obj' top' = top_field obj top')) ∧
  (∀ mids final, rest = mids ++ [final] →
     match resolve obj top mids with
     | None => obj' = obj
     | Some m =>
         resolve obj' top mids = Some (delete final m) ∧
         Type_ obj' = Type_ obj ∧
         (∀ top' keys, ¬ related (top :: mids ++ [final]) (top' :: keys) →
                       field_at obj' top' keys = field_at obj top' keys)
     end).
Proof.
  intros Hs obj'. split_and!.
  - destruct rest as [|r rest _] using rev_ind.
    + subst obj'. rewrite (removeField_single _ _ _ Hs).
      destruct (String.eqb top "type"); [done|apply set_top_identity].
    + subst obj'. rewrite (removeField_several _ _ _ _ _ Hs).
      destruct (top_field obj top); [apply set_top_identity|done].
  - intros ->. subst obj'. rewrite (removeField_single _ _ _ Hs).
    destruct (String.eqb_spec top "type") as [->|Htype].
    + repeat split; try done.
    + repeat split; try done.
      * unfold set_top, top_field. case_eqb; done.
      * intros _. apply set_top_identity.
      * intros top' Hne. by apply top_field_set_top_ne.
  - intros mids final ->. subst obj'.
    rewrite (removeField_several _ _ _ _ _ Hs). unfold resolve.
    destruct (top_field obj top) as [m0|] eqn:Htop; [simpl|done].
    destruct (descend m0 mids) as [m|] eqn:Hd.
    + split_and!.
      * rewrite (top_field_set_top_eq _ _ m0) by done. simpl.
        by apply delete_path_resolved.
      * apply set_top_identity.
      * intros top' keys Hun. unfold field_at.
        destruct (decide (top = top')) as [<-|Hne].
        -- rewrite (top_field_set_top_eq _ _ m0), Htop by done. simpl.
           apply delete_path_frame. by rewrite related_cons in Hun.
        -- by rewrite top_field_set_top_ne.
    + rewrite delete_path_unresolved by done.
      rewrite <- Htop. apply set_top_same.
Qed.

(** ** The Controller Reconstructor's unchecked assertion *)

(** C9. The Controller Reconstructor is not total: on a Pod whose labels
    hold a non-empty string [pod-template-hash] while [metadata] has no
    string under ["name"] (the key is missing or holds something else), the
    guard passes, the unchecked assertion [originalName.(string)] fails and
    [revertPodToDeployment] panics; with the revert option on, cleaning that
    Pod panics as well. *)
Theorem revertPodToDeployment_panics (obj : KubernetesObject)
    (metadata podLabels : gmap string value) (hashStr : string) :
  Kind obj = "Pod" →
  Metadata obj = Some metadata →
  metadata !! "labels" = Some (VMap podLabels) →
  podLabels !! "pod-template-hash" = Some (VStr hashStr) →
  hashStr ≠ "" →
  (∀ name, metadata !! "name" ≠ Some (VStr name)) →
  ∃ msg,
    revertPodToDeployment obj = Panic msg ∧
    ∀ options, RevertToDeployment options = true →
      cleanupKubernetesObject obj options NewObjectCleanerFactory = Panic msg.
Proof.
  intros Hkind Hmeta Hlabels Hhash Hne Hname.
  assert (∃ msg, revertPodToDeployment obj = Panic msg) as [msg Hrev].
  { unfold revertPodToDeployment. rewrite Hkind, Hmeta, Hlabels, Hhash. simpl.
    destruct (String.eqb_spec hashStr "") as [->|_]; [done|].
    destruct (metadata !! "name") as [name|] eqn:Hn; simpl; [|by eauto].
    destruct name; try by eauto. by destruct (Hname s). }
  exists msg. split; [done|]. intros options Hopt.
  unfold cleanupKubernetesObject. rewrite Hkind. simpl.
  replace (GetCleaner NewObjectCleanerFactory "Pod")
    with (Some (PodCleaner (GenericObjectCleaner GenericMetadataCleaner)))
    by (by vm_compute).
  simpl. by rewrite Hopt, Hrev.
Qed.

(** ** The manifest loop *)

Lemma manifest_loop_skip (encode : KubernetesObject → bool)
    (options : CleanupOptions) (factory : ObjectCleanerFactory) (count : nat)
    (obj : KubernetesObject) (rest : list decoded) :
  half_identified obj →
  manifest_loop encode options factory count (Document obj :: rest) =
  manifest_loop encode options factory (S count) rest.
Proof.
  intros [[Hk Ha]|[Hk Ha]]; simpl; case_eqb; simpl; done.
Qed.

Lemma manifest_loop_written_count (encode : KubernetesObject → bool)
    (options : CleanupOptions) (factory : ObjectCleanerFactory)
    (input : list decoded) (count count' : nat) :
  (manifest_loop encode options factory count input).1 =
  (manifest_loop encode options factory count' input).1.
Proof.
  revert count count'.
  induction input as [|[obj|] input IH]; intros count count'; simpl; [done| |done].
  repeat (destruct (_ && _) || destruct (String.eqb _ _)); auto.
  destruct (cleanupKubernetesObject obj options factory) as [cleaned|]; [|done].
  destruct (encode cleaned); [|done].
  specialize (IH (S count) (S count')).
  do 2 destruct (manifest_loop _ _ _ _ input). simpl in *. by subst.
Qed.

(** C10. A decoded document with exactly one of [kind] and [apiVersion]
    empty is skipped: the loop only advances its counter, so the document is
    neither cleaned nor written, and the output stream is the one the same
    input without that document produces. *)
Theorem cleanupManifest_skips_half_identified (encode : KubernetesObject → bool)
    (options : CleanupOptions) (obj : KubernetesObject) :
  half_identified obj →
  (∀ factory count rest,
     manifest_loop encode options factory count (Document obj :: rest) =
     manifest_loop encode options factory (S count) rest) ∧
  (∀ before after,
     (cleanupManifest encode (before ++ Document obj :: after) options).1 =
     (cleanupManifest encode (before ++ after) options).1).
Proof.
  intros Hhalf. split.
  - intros. by apply manifest_loop_skip.
  - intros before after. unfold cleanupManifest. generalize 0.
    induction before as [|[d|] before IH]; intros count; simpl; [| |done].
    + pose proof (manifest_loop_skip encode options NewObjectCleanerFactory
                    count obj after Hhalf) as Hskip.
      simpl in Hskip. rewrite Hskip. apply manifest_loop_written_count.
    + repeat (destruct (_ && _) || destruct (String.eqb _ _)); auto.
      destruct (cleanupKubernetesObject d options _) as [cleaned|]; [|done].
      destruct (encode cleaned); [|done].
      specialize (IH (S count)).
      do 2 destruct (manifest_loop _ _ _ _ (before ++ _)). simpl in *. by subst.
Qed.

(** ** Keys that stay absent *)

Lemma lacks_None (k : string) : lacks None k.
Proof. by intros m. Qed.

Lemma lacks_Some (m : gmap string value) (k : string) :
  lacks (Some m) k ↔ m !! k = None.
Proof.
  unfold lacks. split.
  - intros Hl. by apply Hl.
  - intros Hk m' [= <-]. done.
Qed.

Lemma foldr_delete_lookup (fields : list string) (m : gmap string value)
    (k : string) :
  foldr delete m fields !! k = if decide (k ∈ fields) then None else m !! k.
Proof.
  induction fields as [|f fields IH]; cbn [foldr].
  - by rewrite decide_False by apply not_elem_of_nil.
  - destruct (decide (f = k)) as [->|Hne].
    + rewrite lookup_delete_eq. by rewrite decide_True by apply list_elem_of_here.
    + rewrite lookup_delete_ne, IH by done.
      destruct (decide (k ∈ fields)) as [Hin|Hnin].
      * by rewrite decide_True by by apply list_elem_of_further.
      * rewrite decide_False; [done|].
        intros [?|?]%elem_of_cons; [congruence|done].
Qed.

Lemma removeEmptyFields_absent (m cleaned : gmap string value) (k : string) :
  removeEmptyFields (VMap m) = VMap cleaned → m !! k = None → cleaned !! k = None.
Proof.
  rewrite removeEmptyFields_VMap. simpl.
  destruct (len_zero _); [done|]. intros [= <-] Hk.
  by rewrite lookup_omap, Hk.
Qed.

Lemma removeEmptyFields_VMap_cases (m : gmap string value) :
  removeEmptyFields (VMap m) = VNil ∨
  ∃ cleaned, removeEmptyFields (VMap m) = VMap cleaned ∧ cleaned ≠ ∅.
Proof.
  rewrite removeEmptyFields_VMap. simpl.
  destruct (len_zero _) eqn:Hz; [by left|right].
  eexists. split; [done|]. by apply len_zero_false.
Qed.

Lemma prune_top_level_lacks (field : option (gmap string value)) (k : string) :
  lacks field k → lacks (prune_top_level field) k.
Proof.
  destruct field as [m|]; [|done]. rewrite lacks_Some. intros Hk m'.
  unfold prune_top_level.
  destruct (removeEmptyFields_VMap_cases m) as [->|[cleaned [Hc _]]]; [done|].
  rewrite Hc. intros [= <-]. by eapply removeEmptyFields_absent.
Qed.

Lemma delete_path_absent (parts : list string) (m : gmap string value)
    (k : string) :
  m !! k = None → delete_path parts m !! k = None.
Proof.
  intros Hk. destruct parts as [|p rest]; [done|].
  destruct rest as [|r rest] using rev_ind.
  - rewrite delete_path_snoc_nil.
    destruct (decide (p = k)) as [->|]; [apply lookup_delete_eq|].
    by rewrite lookup_delete_ne.
  - rewrite delete_path_snoc_cons.
    destruct (m !! p) as [[| | | | | |next|]|] eqn:Hp; try done.
    rewrite lookup_insert_ne; [done|congruence].
Qed.

(** What [removeField] can do to one top-level field: leave it, clear it,
    or delete along a path inside it. *)
Lemma removeField_field (obj : KubernetesObject) (fieldPath : string)
    (proj : KubernetesObject → option (gmap string value)) :
  (proj = Metadata ∨ proj = Spec ∨ proj = Status ∨ proj = Data ∨ proj = StringData) →
  proj (removeField obj fieldPath) = proj obj ∨
  proj (removeField obj fieldPath) = None ∨
  ∃ parts m, proj obj = Some m ∧
             proj (removeField obj fieldPath) = Some (delete_path parts m).
Proof.
  intros Hproj.
  destruct (Split_cons fieldPath ".") as [top [rest Hs]].
  destruct rest as [|r rest _] using rev_ind.
  - rewrite (removeField_single _ _ _ Hs). unfold set_top.
    destruct Hproj as [-> | [-> | [-> | [-> | ->]]]]; case_eqb; simpl; auto.
  - rewrite (removeField_several _ _ _ _ _ Hs). unfold set_top, top_field.
    destruct Hproj as [-> | [-> | [-> | [-> | ->]]]]; case_eqb; simpl;
      repeat match goal with
             | |- context [match ?f obj with _ => _ end] =>
                 destruct (f obj) eqn:?; simpl
             end; eauto 10.
Qed.

Lemma removeField_Kind (obj : KubernetesObject) (fieldPath : string) :
  Kind (removeField obj fieldPath) = Kind obj.
Proof.
  destruct (Split_cons fieldPath ".") as [top [rest Hs]].
  destruct rest as [|r rest _] using rev_ind.
  - rewrite (removeField_single _ _ _ Hs).
    destruct (String.eqb top "type"); [done|apply set_top_identity].
  - rewrite (removeField_several _ _ _ _ _ Hs).
    destruct (top_field obj top); [apply set_top_identity|done].
Qed.

(** ** The Metadata Rule Set *)

Lemma GenericMetadataCleaner_Clean_fields (obj : KubernetesObject)
    (options : CleanupOptions) :
  let obj' := GenericMetadataCleaner_Clean obj options in
  APIVersion obj' = APIVersion obj ∧ Kind obj' = Kind obj ∧
  Spec obj' = Spec obj ∧ Status obj' = Status obj ∧ Data obj' = Data obj ∧
  StringData obj' = StringData obj ∧ Type_ obj' = Type_ obj.
Proof.
  unfold GenericMetadataCleaner_Clean. by destruct (Metadata obj).
Qed.

Lemma cluster_assigned_removed (kind : string) (options : CleanupOptions)
    (k : string) :
  k ∈ cluster_assigned → k ∈ metadata_fieldsToRemove kind options.
Proof. intros Hk. unfold metadata_fieldsToRemove. by apply elem_of_app; left. Qed.

Lemma cluster_assigned_other (k : string) :
  k ∈ cluster_assigned → k ≠ "annotations" ∧ k ≠ "labels".
Proof.
  unfold cluster_assigned. intros Hk.
  repeat (apply elem_of_cons in Hk as [->|Hk]; [done|]).
  by apply elem_of_nil in Hk.
Qed.

Lemma GenericMetadataCleaner_Clean_lacks (obj : KubernetesObject)
    (options : CleanupOptions) (k : string) :
  k ∈ cluster_assigned →
  lacks (Metadata (GenericMetadataCleaner_Clean obj options)) k.
Proof.
  intros Hk. destruct (cluster_assigned_other k Hk) as [Hann Hlab].
  unfold GenericMetadataCleaner_Clean.
  destruct (Metadata obj) as [metadata|] eqn:Hm; [|by rewrite Hm].
  unfold set_Metadata. cbn [Metadata]. apply lacks_Some.
  set (md1 := foldr delete metadata _).
  assert (md1 !! k = None) as H1.
  { subst md1. rewrite foldr_delete_lookup.
    by rewrite decide_True by by apply cluster_assigned_removed. }
  set (md2 := match md1 !! "annotations" with Some (VMap _) => _ | _ => md1 end).
  assert (md2 !! k = None) as H2.
  { subst md2. destruct (md1 !! "annotations") as [[]|]; try done.
    destruct (len_zero _);
      [by rewrite lookup_delete_ne|by rewrite lookup_insert_ne]. }
  destruct (md2 !! "labels") as [[]|]; try done.
  destruct (len_zero _);
    [by rewrite lookup_delete_ne|by rewrite lookup_insert_ne].
Qed.

(** ** The Generic Rule Set *)

Lemma foldl_removeField_Kind (paths : list string) (obj : KubernetesObject) :
  Kind (foldl removeField obj paths) = Kind obj.
Proof.
  revert obj. induction paths as [|p paths IH]; intros obj; [done|].
  simpl. by rewrite IH, removeField_Kind.
Qed.

Lemma GenericObjectCleaner_Clean_Kind (mc : MetadataCleaner)
    (obj : KubernetesObject) (options : CleanupOptions) :
  Kind (GenericObjectCleaner_Clean mc obj options) = Kind obj.
Proof.
  unfold GenericObjectCleaner_Clean.
  set (obj1 := if PreserveResourceState options then _ else obj).
  assert (Kind obj1 = Kind obj) as H1.
  { subst obj1. destruct (PreserveResourceState options); [|done].
    destruct (resourceStateFields !! Kind obj); [|done].
    apply foldl_removeField_Kind. }
  set (obj2 := match Metadata obj1 with Some _ => _ | None => obj1 end).
  assert (Kind obj2 = Kind obj) as H2.
  { subst obj2. destruct (Metadata obj1); [|done]. destruct mc. simpl.
    by destruct (GenericMetadataCleaner_Clean_fields obj1 options) as (_&->&_). }
  destruct (RemoveEmpty options); by destruct (_ && _).
Qed.

Lemma GenericObjectCleaner_Clean_lacks (mc : MetadataCleaner)
    (obj : KubernetesObject) (options : CleanupOptions) (k : string) :
  k ∈ cluster_assigned →
  lacks (Metadata (GenericObjectCleaner_Clean mc obj options)) k.
Proof.
  intros Hk. unfold GenericObjectCleaner_Clean.
  set (obj1 := if PreserveResourceState options then _ else obj).
  set (obj2 := match Metadata obj1 with Some _ => _ | None => obj1 end).
  assert (lacks (Metadata obj2) k) as H2.
  { subst obj2. destruct (Metadata obj1) eqn:Hm; [|by rewrite Hm].
    destruct mc. by apply GenericMetadataCleaner_Clean_lacks. }
  destruct (RemoveEmpty options); by destruct (_ && _).
Qed.

(** ** Metadata through the kind-specific cleaners *)

Lemma with_Spec_fields (obj : KubernetesObject)
    (f : gmap string value → option (gmap string value)) :
  let obj' := with_Spec obj f in
  APIVersion obj' = APIVersion obj ∧ Kind obj' = Kind obj ∧
  Metadata obj' = Metadata obj ∧ Status obj' = Status obj ∧
  Data obj' = Data obj ∧ StringData obj' = StringData obj ∧
  Type_ obj' = Type_ obj.
Proof. unfold with_Spec. by destruct (Spec obj). Qed.

Lemma final_cleanup_Metadata_lacks (obj : KubernetesObject)
    (options : CleanupOptions) (k : string) :
  lacks (Metadata obj) k → lacks (Metadata (final_cleanup obj options)) k.
Proof.
  unfold final_cleanup. destruct (RemoveEmpty options); [|done].
  simpl. apply prune_top_level_lacks.
Qed.

Lemma Clean_Metadata_lacks (c : ObjectCleaner) (obj cleaned : KubernetesObject)
    (options : CleanupOptions) (k : string) :
  k ∈ cluster_assigned →
  Clean c obj options = Done cleaned →
  lacks (Metadata cleaned) k.
Proof.
  intros Hk. revert obj cleaned.
  induction c as [mc|g IH|g IH|g IH|g IH|g IH|g IH|g IH]; intros obj cleaned; simpl.
  - intros [= <-]. by apply GenericObjectCleaner_Clean_lacks.
  - destruct (Clean g obj options) as [obj1|] eqn:Hg; simpl; [|done].
    intros [= <-]. apply final_cleanup_Metadata_lacks.
    destruct (with_Spec_fields obj1
      (λ spec, Some (clean_workload_template
         (if negb (preserves_runtime options)
          then delete "progressDeadlineSeconds" (delete "revisionHistoryLimit" spec)
          else spec) options))) as (_&_&->&_).
    by eapply IH.
  - destruct (Clean g obj options) as [obj1|] eqn:Hg; simpl; [|done].
    intros [= <-]. apply final_cleanup_Metadata_lacks.
    match goal with |- lacks (Metadata (with_Spec _ ?f)) _ =>
      destruct (with_Spec_fields obj1 f) as (_&_&->&_) end.
    by eapply IH.
  - destruct (Clean g obj options) as [obj1|] eqn:Hg; simpl; [|done].
    intros [= <-]. apply final_cleanup_Metadata_lacks.
    match goal with |- lacks (Metadata (with_Spec _ ?f)) _ =>
      destruct (with_Spec_fields obj1 f) as (_&_&->&_) end.
    by eapply IH.
  - destruct (Clean g obj options) as [obj1|] eqn:Hg; simpl; [|done].
    intros [= <-]. apply final_cleanup_Metadata_lacks.
    match goal with |- lacks (Metadata (with_Spec _ ?f)) _ =>
      destruct (with_Spec_fields obj1 f) as (_&_&->&_) end.
    by eapply IH.
  - destruct (if RevertToDeployment options then _ else _)
      as [[obj0 reverted]|]; simpl; [|done].
    destruct reverted;
      (destruct (Clean g obj0 options) as [obj1|] eqn:Hg; simpl; [|done]);
      intros [= <-]; apply final_cleanup_Metadata_lacks;
      match goal with |- lacks (Metadata (with_Spec _ ?f)) _ =>
        destruct (with_Spec_fields obj1 f) as (_&_&->&_) end;
      by eapply IH.
  - destruct (Clean g obj options) as [obj1|] eqn:Hg; simpl; [|done].
    intros [= <-]. apply final_cleanup_Metadata_lacks.
    destruct (Data obj1); simpl; by eapply IH.
  - destruct (Clean g obj options) as [obj1|] eqn:Hg; simpl; [|done].
    intros [= <-]. apply final_cleanup_Metadata_lacks.
    assert (lacks (Metadata obj1) k) as H1 by by eapply IH.
    destruct (Data obj1) as [d|]; [destruct (len_zero d)|];
      (destruct (StringData _) as [sd|]; [destruct (len_zero sd)|]); done.
Qed.

Lemma manifest_loop_written (encode : KubernetesObject → bool)
    (options : CleanupOptions) (factory : ObjectCleanerFactory)
    (input : list decoded) (count : nat) (written : KubernetesObject) :
  written ∈ (manifest_loop encode options factory count input).1 →
  ∃ obj, Document obj ∈ input ∧ Kind obj ≠ "" ∧ APIVersion obj ≠ "" ∧
         cleanupKubernetesObject obj options factory = Done written ∧
         encode written = true.
Proof.
  revert count. induction input as [|[obj|] input IH]; intros count; simpl.
  - by intros ?%elem_of_nil.
  - assert (∀ c, written ∈ (manifest_loop encode options factory c input).1 →
                 ∃ obj0, Document obj0 ∈ Document obj :: input ∧ Kind obj0 ≠ "" ∧
                         APIVersion obj0 ≠ "" ∧
                         cleanupKubernetesObject obj0 options factory = Done written ∧
                         encode written = true) as Hrest.
    { intros c Hc. destruct (IH c Hc) as (obj0 & Hin & ?).
      exists obj0. split; [by apply list_elem_of_further|done]. }
    destruct (String.eqb_spec (Kind obj) ""); simpl.
    { destruct (String.eqb (APIVersion obj) ""); apply Hrest. }
    destruct (String.eqb_spec (APIVersion obj) ""); [apply Hrest|].
    destruct (cleanupKubernetesObject obj options factory) as [cleaned|] eqn:Hc;
      [|by intros ?%elem_of_nil].
    destruct (encode cleaned) eqn:He; [|by intros ?%elem_of_nil].
    destruct (manifest_loop _ _ _ _ input) as [ws e] eqn:Hl. simpl.
    intros [->|Hin]%elem_of_cons.
    + exists obj. split; [apply list_elem_of_here|done].
    + apply (Hrest (S count)). by rewrite Hl.
  - by intros ?%elem_of_nil.
Qed.

(** C4. Whatever the kind and the options, the metadata of a cleaned
    document holds none of [creationTimestamp], [resourceVersion],
    [selfLink], [uid], [ownerReferences]: this holds for the result of
    cleaning any document that has a kind, and so for every document the
    manifest loop writes. *)
Theorem metadata_never_keeps_cluster_assigned (k : string) :
  k ∈ cluster_assigned →
  (∀ obj options cleaned,
     Kind obj ≠ "" →
     cleanupKubernetesObject obj options NewObjectCleanerFactory = Done cleaned →
     lacks (Metadata cleaned) k) ∧
  (∀ encode input options written,
     written ∈ (cleanupManifest encode input options).1 →
     lacks (Metadata written) k).
Proof.
  intros Hk.
  assert (∀ obj options cleaned,
     Kind obj ≠ "" →
     cleanupKubernetesObject obj options NewObjectCleanerFactory = Done cleaned →
     lacks (Metadata cleaned) k) as Hobj.
  { intros obj options cleaned Hkind. unfold cleanupKubernetesObject.
    destruct (String.eqb_spec (Kind obj) ""); [done|].
    destruct (GetCleaner _ _) as [c|]; [|done].
    by apply Clean_Metadata_lacks. }
  split; [done|].
  intros encode input options written Hw.
  apply manifest_loop_written in Hw as (obj & _ & Hkind & _ & Hc & _).
  by eapply Hobj.
Qed.

(** ** State preservation for a Deployment *)

Lemma removeField_keeps_nil (obj : KubernetesObject) (fieldPath : string)
    (proj : KubernetesObject → option (gmap string value)) :
  (proj = Metadata ∨ proj = Spec ∨ proj = Status ∨ proj = Data ∨ proj = StringData) →
  proj obj = None → proj (removeField obj fieldPath) = None.
Proof.
  intros Hproj Hnil.
  destruct (removeField_field obj fieldPath proj Hproj)
    as [->|[->|(parts & m & Hm & _)]]; congruence.
Qed.

Lemma removeField_keeps_lacks (obj : KubernetesObject) (fieldPath : string)
    (proj : KubernetesObject → option (gmap string value)) (k : string) :
  (proj = Metadata ∨ proj = Spec ∨ proj = Status ∨ proj = Data ∨ proj = StringData) →
  lacks (proj obj) k → lacks (proj (removeField obj fieldPath)) k.
Proof.
  intros Hproj Hl.
  destruct (removeField_field obj fieldPath proj Hproj)
    as [->|[->|(parts & m & Hm & ->)]]; [done|done|].
  apply lacks_Some, delete_path_absent. by apply Hl.
Qed.

Lemma foldl_removeField_status (paths : list string) (obj : KubernetesObject) :
  "status" ∈ paths → Status (foldl removeField obj paths) = None.
Proof.
  assert (∀ paths obj, Status obj = None →
                       Status (foldl removeField obj paths) = None) as Hkeep.
  { clear. induction paths as [|p paths IH]; intros obj Hnil; [done|].
    simpl. apply IH, removeField_keeps_nil; auto. }
  revert obj. induction paths as [|p paths IH]; intros obj Hin.
  { by apply elem_of_nil in Hin. }
  apply elem_of_cons in Hin as [<-|Hin]; simpl; [by apply Hkeep|by apply IH].
Qed.

Lemma removeField_spec_replicas (obj : KubernetesObject) :
  lacks (Spec (removeField obj "spec.replicas")) "replicas".
Proof.
  change (removeField obj "spec.replicas") with
    (match Spec obj with
     | None => obj
     | Some currentMap => set_Spec obj (Some (delete "replicas" currentMap))
     end).
  destruct (Spec obj) as [spec|] eqn:Hs; simpl; [|by rewrite Hs].
  apply lacks_Some, lookup_delete_eq.
Qed.

Lemma foldl_removeField_replicas (paths : list string) (obj : KubernetesObject) :
  "spec.replicas" ∈ paths →
  lacks (Spec (foldl removeField obj paths)) "replicas".
Proof.
  assert (∀ paths obj, lacks (Spec obj) "replicas" →
                       lacks (Spec (foldl removeField obj paths)) "replicas") as Hkeep.
  { clear. induction paths as [|p paths IH]; intros obj Hl; [done|].
    simpl. apply IH, removeField_keeps_lacks; auto. }
  revert obj. induction paths as [|p paths IH]; intros obj Hin.
  { by apply elem_of_nil in Hin. }
  apply elem_of_cons in Hin as [<-|Hin]; simpl; [|by apply IH].
  apply Hkeep, removeField_spec_replicas.
Qed.

Lemma elem_of_fieldsToRemoveForState (mode : string) (stateFields : gmap string bool)
    (fieldPath : string) :
  fieldPath ∈ fieldsToRemoveForState mode stateFields ↔
  ∃ isDesired, stateFields !! fieldPath = Some isDesired ∧
               queued_for_removal mode isDesired = true.
Proof.
  unfold fieldsToRemoveForState. rewrite list_elem_of_omap. split.
  - intros [[p d] [Hin Hq]]. apply elem_of_map_to_list in Hin. simpl in Hq.
    destruct (queued_for_removal mode d) eqn:Hd; [|done].
    injection Hq as ->. eauto.
  - intros [d [Hp Hq]]. exists (fieldPath, d). simpl. rewrite Hq.
    split; [by apply elem_of_map_to_list|done].
Qed.

Lemma GenericObjectCleaner_Clean_gate (mc : MetadataCleaner)
    (obj : KubernetesObject) (options : CleanupOptions)
    (stateFields : gmap string bool) :
  PreserveResourceState options = true →
  resourceStateFields !! Kind obj = Some stateFields →
  let gated :=
    foldl removeField obj
          (fieldsToRemoveForState (ResourceStateMode options) stateFields) in
  let obj' := GenericObjectCleaner_Clean mc obj options in
  (Status gated = None → Status obj' = None) ∧ Spec obj' = Spec gated.
Proof.
  intros Hp Ht gated obj'. subst obj'. unfold GenericObjectCleaner_Clean.
  rewrite Hp, Ht. fold gated.
  set (obj2 := match Metadata gated with Some _ => _ | None => gated end).
  assert (Status obj2 = Status gated ∧ Spec obj2 = Spec gated) as [H2 H2'].
  { subst obj2. destruct (Metadata gated); [|done]. destruct mc. simpl.
    by destruct (GenericMetadataCleaner_Clean_fields gated options)
      as (_&_&->&->&_). }
  destruct (RemoveEmpty options); destruct (_ && _); simpl;
    rewrite ?H2, ?H2'; done.
Qed.

Lemma cleanup_Deployment (obj : KubernetesObject) (options : CleanupOptions) :
  Kind obj = "Deployment" →
  cleanupKubernetesObject obj options NewObjectCleanerFactory =
  Done (final_cleanup
          (with_Spec (GenericObjectCleaner_Clean GenericMetadataCleaner obj options)
             (λ spec,
                Some (clean_workload_template
                        (if negb (preserves_runtime options)
                         then delete "progressDeadlineSeconds"
                                (delete "revisionHistoryLimit" spec)
                         else spec) options)))
          options).
Proof.
  intros Hkind. unfold cleanupKubernetesObject. rewrite Hkind.
  replace (GetCleaner NewObjectCleanerFactory "Deployment")
    with (Some (DeploymentCleaner (GenericObjectCleaner GenericMetadataCleaner)))
    by (by vm_compute).
  reflexivity.
Qed.

Lemma final_cleanup_Status_nil (obj : KubernetesObject) (options : CleanupOptions) :
  Status obj = None → Status (final_cleanup obj options) = None.
Proof.
  intros Hs. unfold final_cleanup. destruct (RemoveEmpty options); [|done].
  simpl. by rewrite Hs.
Qed.

Lemma final_cleanup_Spec_lacks (obj : KubernetesObject)
    (options : CleanupOptions) (k : string) :
  lacks (Spec obj) k → lacks (Spec (final_cleanup obj options)) k.
Proof.
  unfold final_cleanup. destruct (RemoveEmpty options); [|done].
  simpl. apply prune_top_level_lacks.
Qed.

Lemma clean_workload_template_other (spec : gmap string value)
    (options : CleanupOptions) (k : string) :
  k ≠ "template" → clean_workload_template spec options !! k = spec !! k.
Proof.
  intros Hk. unfold clean_workload_template.
  destruct (spec !! "template") as [[]|]; try done.
  by rewrite lookup_insert_ne.
Qed.

Lemma Deployment_stateFields :
  resourceStateFields !! "Deployment" = Some deployment_stateFields.
Proof. unfold resourceStateFields. apply lookup_insert_eq. Qed.

Lemma Deployment_table :
  ∃ stateFields,
    resourceStateFields !! "Deployment" = Some stateFields ∧
    stateFields !! "status" = Some false ∧
    stateFields !! "spec.replicas" = Some true.
Proof.
  exists deployment_stateFields. split; [apply Deployment_stateFields|].
  unfold deployment_stateFields. split.
  - by rewrite !lookup_insert_ne, lookup_singleton_eq by done.
  - by rewrite lookup_insert_ne, lookup_insert_eq by done.
Qed.

(** ** The order in which the state table is ranged over

    Go ranges over a map in no fixed order.  The paths of the state tables
    have at most two segments, and removing two such paths commutes, so the
    gate gives the same object in whatever order the queue is worked off. *)

Lemma shallow_cases (fieldPath : string) :
  shallow fieldPath →
  (∃ top, Split fieldPath "." = [top]) ∨
  (∃ top key, Split fieldPath "." = [top; key]).
Proof.
  unfold shallow. destruct (Split_cons fieldPath ".") as (top & rest & ->).
  destruct rest as [|key [|x rest]]; simpl; [by eauto|by eauto|lia].
Qed.

Lemma removeField_two (obj : KubernetesObject) (fieldPath top key : string) :
  Split fieldPath "." = [top; key] →
  removeField obj fieldPath =
  match top_field obj top with
  | Some currentMap => set_top top obj (Some (delete key currentMap))
  | None => obj
  end.
Proof. intros Hs. by rewrite (removeField_several _ _ top [] key). Qed.

Lemma removeField_shallow_comm (obj : KubernetesObject) (p q : string) :
  shallow p → shallow q →
  removeField (removeField obj p) q = removeField (removeField obj q) p.
Proof.
  intros [[t1 Hp]|(t1 & k1 & Hp)]%shallow_cases
         [[t2 Hq]|(t2 & k2 & Hq)]%shallow_cases.
  - rewrite !(removeField_single _ _ _ Hp), !(removeField_single _ _ _ Hq).
    unfold set_top. destruct obj. case_eqb; reflexivity.
  - rewrite !(removeField_single _ _ _ Hp), !(removeField_two _ _ _ _ Hq).
    unfold set_top, top_field. destruct obj as [a k md sp st d sd ty].
    case_eqb; simpl; try reflexivity;
      repeat match goal with
             | |- context [match ?x with Some _ => _ | None => _ end] =>
                 is_var x; destruct x; simpl
             end; reflexivity.
  - rewrite !(removeField_single _ _ _ Hq), !(removeField_two _ _ _ _ Hp).
    unfold set_top, top_field. destruct obj as [a k md sp st d sd ty].
    case_eqb; simpl; try reflexivity;
      repeat match goal with
             | |- context [match ?x with Some _ => _ | None => _ end] =>
                 is_var x; destruct x; simpl
             end; reflexivity.
  - rewrite !(removeField_two _ _ _ _ Hp), !(removeField_two _ _ _ _ Hq).
    unfold set_top, top_field. destruct obj as [a k md sp st d sd ty].
    case_eqb; simpl; try reflexivity;
      repeat match goal with
             | |- context [match ?x with Some _ => _ | None => _ end] =>
                 is_var x; destruct x; simpl
             end; try reflexivity; by rewrite delete_delete.
Qed.

Lemma foldl_removeField_shallow_perm (paths paths' : list string)
    (obj : KubernetesObject) :
  Forall shallow paths →
  paths ≡ₚ paths' →
  foldl removeField obj paths = foldl removeField obj paths'.
Proof.
  intros Hall Hperm. revert obj.
  induction Hperm as [|p l l' _ IH|p q l|l l' l'' H1 IH1 H2 IH2]; intros obj.
  - done.
  - simpl. apply IH. by apply Forall_cons in Hall as [_ ?].
  - simpl. apply Forall_cons in Hall as [Hq [Hp _]%Forall_cons].
    by rewrite removeField_shallow_comm.
  - rewrite IH1 by done. apply IH2. by rewrite <- H1.
Qed.

Lemma table_keys_shallow (stateFields : gmap string bool) :
  stateFields = deployment_stateFields ∨ stateFields = service_stateFields ∨
  stateFields = pod_stateFields →
  ∀ fieldPath isDesired,
    stateFields !! fieldPath = Some isDesired → shallow fieldPath.
Proof.
  intros Htable fieldPath isDesired H.
  destruct Htable as [-> | [-> | ->]];
    unfold deployment_stateFields, service_stateFields, pod_stateFields in H;
    repeat (apply lookup_insert_Some in H as [[<- _]|[_ H]];
            [unfold shallow; vm_compute; lia|]);
    apply lookup_singleton_Some in H as [<- _]; unfold shallow; vm_compute; lia.
Qed.

Lemma state_table_paths_shallow (kind : string) (stateFields : gmap string bool)
    (fieldPath : string) (isDesired : bool) :
  resourceStateFields !! kind = Some stateFields →
  stateFields !! fieldPath = Some isDesired →
  shallow fieldPath.
Proof.
  unfold resourceStateFields. intros Hkind. apply table_keys_shallow.
  apply lookup_insert_Some in Hkind as [[_ <-]|[_ Hkind]]; [by auto|].
  apply lookup_insert_Some in Hkind as [[_ <-]|[_ Hkind]]; [by auto|].
  apply lookup_singleton_Some in Hkind as [_ <-]. by auto.
Qed.

(** X7. The preservation gate does not depend on the order in which Go
    ranges over a state table: removing the queued paths in any order gives
    the same object. *)
Lemma state_gate_order_irrelevant (kind mode : string)
    (stateFields : gmap string bool) (queue : list string)
    (obj : KubernetesObject) :
  resourceStateFields !! kind = Some stateFields →
  queue ≡ₚ fieldsToRemoveForState mode stateFields →
  foldl removeField obj queue
  = foldl removeField obj (fieldsToRemoveForState mode stateFields).
Proof.
  intros Hkind Hperm. symmetry.
  apply foldl_removeField_shallow_perm; [|done].
  apply Forall_forall. intros p (d & Hd & _)%elem_of_fieldsToRemoveForState.
  by eapply state_table_paths_shallow.
Qed.

(** Deleting a set of keys does not depend on the order either. *)
Lemma foldr_delete_perm (fields fields' : list string) (m : gmap string value) :
  fields ≡ₚ fields' → foldr delete m fields = foldr delete m fields'.
Proof.
  intros Hperm. apply map_eq. intros k. rewrite !foldr_delete_lookup.
  destruct (decide (k ∈ fields)) as [Hin|Hnin].
  - by rewrite decide_True by by rewrite <- Hperm.
  - by rewrite decide_False by by rewrite <- Hperm.
Qed.

(** C6. State-mode exclusivity: cleaning one Deployment with state
    preservation on, once in Desired mode and once in Runtime mode with the
    options otherwise equal, both runs return; the Desired-mode output has
    no status and the Runtime-mode output has no [spec.replicas], so the two
    outputs never both retain [spec.replicas] and [status]. *)
Theorem state_modes_exclusive (obj : KubernetesObject) (options : CleanupOptions) :
  Kind obj = "Deployment" →
  PreserveResourceState options = true →
  ∃ desired runtime,
    cleanupKubernetesObject obj (set_ResourceStateMode options "Desired")
                            NewObjectCleanerFactory = Done desired ∧
    cleanupKubernetesObject obj (set_ResourceStateMode options "Runtime")
                            NewObjectCleanerFactory = Done runtime ∧
    Status desired = None ∧
    lacks (Spec runtime) "replicas".
Proof.
  intros Hkind Hp.
  destruct Deployment_table as (stateFields & Ht & Hstatus & Hreplicas).
  rewrite <- Hkind in Ht.
  eexists _, _. split; [by apply cleanup_Deployment|].
  split; [by apply cleanup_Deployment|]. split.
  - apply final_cleanup_Status_nil.
    match goal with |- Status (with_Spec ?o ?f) = _ =>
      destruct (with_Spec_fields o f) as (_&_&_&->&_) end.
    eapply GenericObjectCleaner_Clean_gate; [done..|].
    apply foldl_removeField_status, elem_of_fieldsToRemoveForState.
    by exists false.
  - apply final_cleanup_Spec_lacks.
    set (options' := set_ResourceStateMode options "Runtime").
    pose proof (GenericObjectCleaner_Clean_gate GenericMetadataCleaner obj
                  options' stateFields Hp Ht) as [_ Hspec].
    unfold with_Spec. rewrite Hspec.
    pose proof (foldl_removeField_replicas
                  (fieldsToRemoveForState (ResourceStateMode options') stateFields)
                  obj) as Hl.
    destruct (Spec (foldl removeField obj _)) as [spec|] eqn:Hs.
    + unfold set_Spec. cbn [Spec]. apply lacks_Some.
      rewrite clean_workload_template_other by done.
      assert (spec !! "replicas" = None) as Hr.
      { apply lacks_Some, Hl, elem_of_fieldsToRemoveForState. by exists true. }
      destruct (negb _); [|done]. by rewrite !lookup_delete_ne.
    + rewrite Hspec. apply lacks_None.
Qed.

(** ** Empty containers in the output *)

Lemma map_fold_orb_false {K} `{Countable K} (f : value → bool) (m : gmap K value) :
  map_fold (λ _ x acc, f x || acc) false m = false ↔
  map_Forall (λ _ x, f x = false) m.
Proof.
  apply (map_fold_weak_ind
           (λ r m, r = false ↔ map_Forall (λ _ x, f x = false) m)).
  - split; [intros _; apply map_Forall_empty|done].
  - intros k x m' r Hk IH. rewrite map_Forall_insert by done.
    rewrite orb_false_iff. by rewrite IH.
Qed.

Lemma has_empty_VMap_false (m : gmap string value) :
  m ≠ ∅ → map_Forall (λ _ x, has_empty x = false) m → has_empty (VMap m) = false.
Proof.
  intros Hne Hall. simpl. apply orb_false_iff. split.
  - by apply len_zero_false.
  - by apply map_fold_orb_false.
Qed.

Lemma pruned_map_no_empty {K} `{Countable K} (m : gmap K value)
    (cleaned : gmap string value) (key : string → K) :
  map_Forall (λ _ v, has_empty (removeEmptyFields v) = false) m →
  (∀ s, cleaned !! s = m !! key s ≫= λ v, keep_entry v (removeEmptyFields v)) →
  map_Forall (λ _ x, has_empty x = false) cleaned.
Proof.
  intros IH Hcleaned s c Hc. rewrite Hcleaned in Hc.
  destruct (m !! key s) as [v|] eqn:Hv; [simpl in Hc|done].
  rewrite keep_entry_pruned in Hc. apply keep_item_Some in Hc as [<- _].
  by eapply IH.
Qed.

Lemma removeEmptyFields_no_empty (v : value) :
  has_empty (removeEmptyFields v) = false.
Proof.
  induction v as [| | | | |l IH|m IH|m IH] using value_nested_ind; try done.
  - rewrite removeEmptyFields_VList.
    destruct (omap _ l) as [|c cs] eqn:Hl; [done|].
    change (has_empty (VList (c :: cs))) with (existsb has_empty (c :: cs)).
    rewrite <- Hl. clear Hl. induction IH as [|x l Hx _ IHl]; [done|]. csimpl.
    destruct (keep_item (removeEmptyFields x)) as [y|] eqn:Hy; [|done].
    apply keep_item_Some in Hy as [<- _]. simpl. by rewrite Hx.
  - rewrite removeEmptyFields_VMap. simpl.
    destruct (len_zero _) eqn:Hz; [done|].
    apply has_empty_VMap_false; [by apply len_zero_false|].
    apply (pruned_map_no_empty m _ id); [done|].
    intros s. by rewrite lookup_omap.
  - rewrite removeEmptyFields_VIMap. simpl.
    destruct (len_zero _) eqn:Hz; [done|].
    apply has_empty_VMap_false; [by apply len_zero_false|].
    apply (pruned_map_no_empty m _ KStr); [done|].
    intros s. by rewrite lookup_string_keys, lookup_omap.
Qed.

Lemma prune_top_level_no_empty (field : option (gmap string value)) :
  holds_empty (prune_top_level field) = false.
Proof.
  destruct field as [m|]; [|done]. unfold prune_top_level.
  pose proof (removeEmptyFields_no_empty (VMap m)) as Hne.
  destruct (removeEmptyFields (VMap m)) as [| | | | | |cleaned|] eqn:Hr;
    try done; try (by rewrite removeEmptyFields_VMap in Hr; simpl in Hr;
                      destruct (len_zero _)).
  simpl in *. by apply orb_false_iff in Hne as [_ ?].
Qed.

Lemma cleanupEmptyTopLevelFields_no_empty (obj : KubernetesObject) :
  output_holds_empty (cleanupEmptyTopLevelFields obj) = false.
Proof.
  unfold output_holds_empty. simpl. by rewrite !prune_top_level_no_empty.
Qed.

(** With remove-empty on, every kind-specific cleaner ends with the pruning
    of all five top-level fields, so its output holds no empty container. *)
Lemma kind_specific_output_pruned (c : ObjectCleaner)
    (obj cleaned : KubernetesObject) (options : CleanupOptions) :
  kind_specific c = true →
  RemoveEmpty options = true →
  Clean c obj options = Done cleaned →
  output_holds_empty cleaned = false.
Proof.
  intros Hc Hre.
  assert (∀ o, output_holds_empty (final_cleanup o options) = false) as Hfinal.
  { intros o. unfold final_cleanup. rewrite Hre.
    apply cleanupEmptyTopLevelFields_no_empty. }
  destruct c as [mc|g|g|g|g|g|g|g]; [done|..]; simpl;
    try (destruct (Clean g obj options) as [obj1|]; simpl; [|done];
         intros [= <-]; apply Hfinal).
  destruct (if RevertToDeployment options then _ else _)
    as [[obj0 reverted]|]; simpl; [|done].
  destruct reverted;
    (destruct (Clean g obj0 options) as [obj1|]; simpl; [|done]);
    intros [= <-]; apply Hfinal.
Qed.

(** The generic cleaner does the same with remove-empty on and off. *)
Lemma GenericObjectCleaner_Clean_RemoveEmpty (mc : MetadataCleaner)
    (obj : KubernetesObject) (options : CleanupOptions) (b : bool) :
  GenericObjectCleaner_Clean mc obj (set_RemoveEmpty options b)
  = GenericObjectCleaner_Clean mc obj options.
Proof.
  unfold GenericObjectCleaner_Clean. destruct mc.
  cbn [set_RemoveEmpty PreserveResourceState ResourceStateMode RemoveStatus
       RemoveEmpty MetadataCleaner_Clean].
  by destruct b, (RemoveEmpty options).
Qed.

(** C2. With remove-empty on, a kind that has no cleaner of its own keeps
    its empty containers: the generic cleaner's final call hands the whole
    object to the pruner, which returns it untouched, and the result is
    dropped.  On the Ingress [spec: {rules: [], defaultBackend: {}}] under
    the default options the output still holds both empty values. *)
Theorem generic_cleaner_keeps_empties :
  RemoveEmpty default_options = true ∧
  cleanupKubernetesObject ingress_with_empties default_options
                          NewObjectCleanerFactory
  = Done ingress_with_empties ∧
  output_holds_empty ingress_with_empties = true.
Proof. split; [done|]. split; by vm_compute. Qed.

(** ** Scenario D: the Service port entry *)

Lemma GenericObjectCleaner_Clean_Spec_unpreserved (mc : MetadataCleaner)
    (obj : KubernetesObject) (options : CleanupOptions) :
  PreserveResourceState options = false →
  Spec (GenericObjectCleaner_Clean mc obj options) = Spec obj.
Proof.
  intros Hp. unfold GenericObjectCleaner_Clean. rewrite Hp.
  set (obj2 := match Metadata obj with Some _ => _ | None => obj end).
  assert (Spec obj2 = Spec obj) as H2.
  { subst obj2. destruct (Metadata obj); [|done]. destruct mc. simpl.
    by destruct (GenericMetadataCleaner_Clean_fields obj options) as (_&_&->&_). }
  destruct (RemoveEmpty options); by destruct (_ && _).
Qed.

Lemma prune_top_level_lookup (m : gmap string value) (k : string) (v c : value) :
  m !! k = Some v →
  keep_item (removeEmptyFields v) = Some c →
  ∃ cleaned, prune_top_level (Some m) = Some cleaned ∧ cleaned !! k = Some c.
Proof.
  intros Hk Hc. unfold prune_top_level. rewrite removeEmptyFields_VMap. simpl.
  set (cleaned := omap _ m).
  assert (cleaned !! k = Some c) as Hl.
  { subst cleaned. by rewrite lookup_omap, Hk; simpl; rewrite keep_entry_pruned. }
  destruct (len_zero cleaned) eqn:Hz; [|by eauto].
  apply len_zero_true in Hz. by rewrite Hz in Hl.
Qed.

Lemma cleanup_Service (obj : KubernetesObject) (options : CleanupOptions) :
  Kind obj = "Service" →
  cleanupKubernetesObject obj options NewObjectCleanerFactory =
  Done (final_cleanup
          (with_Spec (GenericObjectCleaner_Clean GenericMetadataCleaner obj options)
             (λ spec,
                let spec :=
                  if negb (preserves_desired options)
                  then foldr delete spec service_fieldsToRemove
                  else spec in
                Some match spec !! "ports" with
                     | Some (VList ports) =>
                         match omap clean_port_entry ports with
                         | [] => delete "ports" spec
                         | cleanedPorts => <["ports" := VList cleanedPorts]> spec
                         end
                     | _ => spec
                     end))
          options).
Proof.
  intros Hkind. unfold cleanupKubernetesObject. rewrite Hkind.
  replace (GetCleaner NewObjectCleanerFactory "Service")
    with (Some (ServiceCleaner (GenericObjectCleaner GenericMetadataCleaner)))
    by (by vm_compute).
  reflexivity.
Qed.

(** When the port entry is a [map[string]interface{}], the Service cleaner
    does what Scenario D describes, whatever else the Service holds. *)
Lemma Service_string_keyed_port (obj : KubernetesObject) (spec : gmap string value) :
  Kind obj = "Service" →
  Spec obj = Some spec →
  spec !! "ports" = Some (VList [tcp_port_entry]) →
  ∃ cleaned cleanedSpec,
    cleanupKubernetesObject obj default_options NewObjectCleanerFactory
    = Done cleaned ∧
    Spec cleaned = Some cleanedSpec ∧
    cleanedSpec !! "ports" = Some (VList [VMap {[ "port" := VInt 80 ]}]).
Proof.
  intros Hkind Hspec Hports.
  rewrite (cleanup_Service _ _ Hkind). unfold with_Spec.
  rewrite GenericObjectCleaner_Clean_Spec_unpreserved, Hspec by done.
  set (spec1 := foldr delete spec service_fieldsToRemove).
  assert (spec1 !! "ports" = Some (VList [tcp_port_entry])) as H1.
  { subst spec1. rewrite foldr_delete_lookup. by rewrite decide_False by not_in_list. }
  cbn [preserves_desired default_options PreserveResourceState negb andb].
  fold spec1. rewrite H1.
  replace (omap clean_port_entry [tcp_port_entry])
    with [VMap {[ "port" := VInt 80 ]}] by (by vm_compute).
  set (spec2 := <["ports" := _]> spec1).
  destruct (prune_top_level_lookup spec2 "ports"
              (VList [VMap {[ "port" := VInt 80 ]}])
              (VList [VMap {[ "port" := VInt 80 ]}]))
    as (cleanedSpec & Hpr & Hl).
  { subst spec2. apply lookup_insert_eq. }
  { by vm_compute. }
  eexists _, cleanedSpec. split; [done|]. by split.
Qed.

(** C8. Scenario D on the document as the decoder delivers it: the port
    entry [{port: 80, protocol: TCP}] of a decoded Service is a
    [map[interface{}]interface{}], the Service cleaner's assertion to
    [map[string]interface{}] fails, the entry is kept as a non-map item and
    the final pruning only re-keys it: under the default options the output
    port entry still carries [protocol: TCP]. *)
Theorem Service_decoded_port_keeps_protocol :
  cleanupKubernetesObject service_decoded default_options NewObjectCleanerFactory
  = Done (example_object "v1" "Service"
            (Some {[ "name" := VStr "web" ]})
            (Some {[ "ports" := VList [tcp_port_entry] ]})).
Proof. by vm_compute. Qed.

(** ** The Volume Rule *)

Lemma containerType_not_volumes (containerType : string) :
  containerType ∈ containerTypes → containerType ≠ "volumes".
Proof.
  unfold containerTypes. intros Hin ->. revert Hin. not_in_list.
Qed.

Lemma cleanContainerSpec_volumeMounts (containerMap : gmap string value)
    (options : CleanupOptions) :
  cleanContainerSpec containerMap options !! "volumeMounts"
  = containerMap !! "volumeMounts".
Proof.
  unfold cleanContainerSpec.
  set (c1 := foldr delete containerMap container_fieldsToRemove).
  assert (c1 !! "volumeMounts" = containerMap !! "volumeMounts") as H1.
  { subst c1. rewrite foldr_delete_lookup. by rewrite decide_False by not_in_list. }
  destruct (c1 !! "ports") as [[| | | | |ports| |]|]; try done.
  destruct (omap clean_port_entry ports);
    [by rewrite lookup_delete_ne|by rewrite lookup_insert_ne].
Qed.

Lemma filter_mounts_of_type_lookup (volumesToRemove : gset string)
    (spec : gmap string value) (containerType k : string) :
  k ≠ containerType →
  filter_mounts_of_type volumesToRemove spec containerType !! k = spec !! k.
Proof.
  intros Hne. unfold filter_mounts_of_type.
  destruct (spec !! containerType) as [[]|]; try done.
  by rewrite lookup_insert_ne.
Qed.

Lemma filter_mounts_of_type_same (volumesToRemove : gset string)
    (spec : gmap string value) (containerType : string) :
  filter_mounts_of_type volumesToRemove spec containerType !! containerType =
  match spec !! containerType with
  | Some (VList containers) =>
      Some (VList (map (filter_container_mounts volumesToRemove) containers))
  | other => other
  end.
Proof.
  unfold filter_mounts_of_type.
  destruct (spec !! containerType) as [[]|] eqn:Hs; try done.
  by rewrite lookup_insert_eq.
Qed.

Lemma foldl_filter_mounts_lookup (volumesToRemove : gset string)
    (spec : gmap string value) (containerType : string) :
  containerType ∈ containerTypes →
  foldl (filter_mounts_of_type volumesToRemove) spec containerTypes !! containerType =
  match spec !! containerType with
  | Some (VList containers) =>
      Some (VList (map (filter_container_mounts volumesToRemove) containers))
  | other => other
  end.
Proof.
  unfold containerTypes. simpl.
  intros [->|[->|[]%elem_of_nil]%elem_of_cons]%elem_of_cons.
  - rewrite filter_mounts_of_type_lookup by done.
    apply filter_mounts_of_type_same.
  - rewrite filter_mounts_of_type_same.
    by rewrite filter_mounts_of_type_lookup by done.
Qed.

Lemma foldl_filter_mounts_volumes (volumesToRemove : gset string)
    (spec : gmap string value) :
  foldl (filter_mounts_of_type volumesToRemove) spec containerTypes !! "volumes"
  = spec !! "volumes".
Proof.
  unfold containerTypes. simpl. by rewrite !filter_mounts_of_type_lookup by done.
Qed.

Lemma pod_fields_filtered (options : CleanupOptions) (k : string) :
  k ∉ pod_fieldsToRemove →
  k ∉ (if PreserveResourceState options
       then filter (λ field, pod_field_remove (ResourceStateMode options) field = true)
                   pod_fieldsToRemove
       else pod_fieldsToRemove).
Proof.
  intros Hk. destruct (PreserveResourceState options); [|done].
  by intros [_ ?]%list_elem_of_filter.
Qed.

Lemma inspect_volume_injected (volume : value) :
  inspect_volume volume
  = (match entry_name volume with
     | Some name => if injected_volume volume then {[ name ]} else ∅
     | None => ∅
     end, negb (injected_volume volume)).
Proof.
  destruct volume as [| | | | | |volumeMap|]; try done. simpl.
  destruct (string_name volumeMap) as [name|];
    [|by destruct (isServiceAccountToken _)].
  destruct (HasPrefix name "kube-api-access-"),
           (isServiceAccountToken volumeMap); simpl; f_equal.
  - apply (idemp_L (∪)).
  - apply (right_id_L ∅ (∪)).
Qed.

Lemma scan_volumes_injected (volumes : list value) :
  (scan_volumes volumes).2 = filter (λ v, injected_volume v = false) volumes ∧
  ∀ name, name ∈ (scan_volumes volumes).1 ↔
          ∃ v, v ∈ volumes ∧ injected_volume v = true ∧ entry_name v = Some name.
Proof.
  induction volumes as [|v volumes [IH1 IH2]].
  - split; [done|]. intros name. split; [set_solver|].
    by intros (v & ?%elem_of_nil & _).
  - simpl. rewrite inspect_volume_injected.
    destruct (scan_volumes volumes) as [toRemove cleaned]. simpl in *. split.
    + rewrite filter_cons. destruct (injected_volume v); simpl; by rewrite <- IH1.
    + intros name. rewrite elem_of_union, IH2. split.
      * intros [Hm|(v' & Hin & Hinj & Hn)].
        -- exists v. split; [apply list_elem_of_here|].
           destruct (entry_name v) as [n|]; [|set_solver].
           destruct (injected_volume v); [|set_solver].
           split; [done|]. f_equal. set_solver.
        -- exists v'. split; [by apply list_elem_of_further|done].
      * intros (v' & [->|Hin]%elem_of_cons & Hinj & Hn).
        -- left. rewrite Hn, Hinj. set_solver.
        -- right. by exists v'.
Qed.

Lemma filter_Forall_id {A} (P : A → Prop) `{∀ x, Decision (P x)} (l : list A) :
  Forall P l → filter P l = l.
Proof.
  induction 1 as [|x l Hx Hl IH]; [done|].
  by rewrite filter_cons_True, IH.
Qed.

Lemma filter_Forall_iff {A} (P Q : A → Prop)
    `{∀ x, Decision (P x)} `{∀ x, Decision (Q x)} (l : list A) :
  Forall (λ x, P x ↔ Q x) l → filter P l = filter Q l.
Proof.
  induction 1 as [|x l Hx Hl IH]; [done|].
  rewrite !filter_cons, IH. destruct (decide (P x)), (decide (Q x)); tauto.
Qed.

Lemma listed_containers_app (spec : gmap string value) :
  listed_containers spec
  = match spec !! "containers" with
    | Some (VList containers) => containers
    | _ => []
    end ++
    match spec !! "initContainers" with
    | Some (VList containers) => containers
    | _ => []
    end.
Proof. unfold listed_containers, containerTypes. csimpl. by rewrite app_nil_r. Qed.

Lemma elem_of_removed_volume_names (spec : gmap string value) (name : string) :
  name ∈ removed_volume_names spec ↔
  ∃ volume, volume ∈ declared_volumes spec ∧ injected_volume volume = true ∧
            entry_name volume = Some name.
Proof.
  unfold removed_volume_names. rewrite list_elem_of_omap. split.
  - intros (v & [Hinj Hin]%list_elem_of_filter & Hn). exists v.
    destruct v as [| | | | | |m|]; try done.
  - intros (v & Hin & Hinj & Hn). exists v. split; [by apply list_elem_of_filter|].
    destruct v as [| | | | | |m|]; try done.
Qed.

Lemma scan_volumes_removed (spec : gmap string value) (name : string) :
  name ∈ (scan_volumes (declared_volumes spec)).1 ↔ name ∈ removed_volume_names spec.
Proof.
  destruct (scan_volumes_injected (declared_volumes spec)) as [_ Hnames].
  by rewrite Hnames, elem_of_removed_volume_names.
Qed.

(** What the mount filter leaves of one container's mounts. *)
Lemma filter_container_mounts_entries (volumesToRemove : gset string)
    (container : value) :
  container_mounts (filter_container_mounts volumesToRemove container)
  = if string_keyed container
    then filter (λ vm, shouldKeepMount volumesToRemove vm = true)
                (container_mounts container)
    else container_mounts container.
Proof.
  destruct container as [| | | | | |containerMap|]; try done.
  unfold container_mounts. simpl.
  destruct (containerMap !! "volumeMounts") as [[| | | | |mounts| |]|] eqn:Hm;
    simpl; rewrite ?Hm; try done.
  destruct (filter _ mounts) as [|vm kept] eqn:Hf; simpl.
  - by rewrite lookup_delete_eq.
  - by rewrite lookup_insert_eq.
Qed.

Lemma shouldKeepMount_empty (vm : value) : shouldKeepMount ∅ vm = true.
Proof.
  destruct vm as [| | | | | |vmMap|]; try done. simpl.
  destruct (string_name vmMap); [|done]. by rewrite bool_decide_false by set_solver.
Qed.

(** On a mount the rule can read, its test is the test on the written name. *)
Lemma shouldKeepMount_names_removed (spec : gmap string value)
    (volumesToRemove : gset string) (vm : value) :
  (∀ name, name ∈ volumesToRemove ↔ name ∈ removed_volume_names spec) →
  (names_removed_volume spec vm = true → string_keyed vm = true) →
  shouldKeepMount volumesToRemove vm = true ↔ names_removed_volume spec vm = false.
Proof.
  intros HR Hread. unfold names_removed_volume in *.
  destruct vm as [| | | | | |vmMap|vmMap]; try done.
  - unfold written_name. simpl. unfold string_name.
    destruct (vmMap !! "name") as [[]|]; try done.
    rewrite negb_true_iff, !bool_decide_eq_false. by rewrite HR.
  - simpl. split; [|done]. intros _.
    destruct (written_name (VIMap vmMap)); [|done].
    apply not_true_is_false. intros Hn. by specialize (Hread Hn).
Qed.

(** The two loops over one container: the Container-Spec Rule, which may
    drop the container, then the mount filter, which runs only when a volume
    was removed. *)
Lemma cleaned_container_mounts (spec : gmap string value)
    (volumesToRemove : gset string) (options : CleanupOptions) (container : value) :
  (∀ name, name ∈ volumesToRemove ↔ name ∈ removed_volume_names spec) →
  Forall (λ vm, names_removed_volume spec vm = true →
                string_keyed container = true ∧ string_keyed vm = true)
         (container_mounts container) →
  match clean_container_entry options container with
  | Some cleaned =>
      container_mounts
        (if bool_decide (size volumesToRemove = 0) then cleaned
         else filter_container_mounts volumesToRemove cleaned)
  | None => []
  end
  = filter (λ vm, names_removed_volume spec vm = false) (container_mounts container).
Proof.
  intros HR Hread.
  assert (∀ cleaned, string_keyed cleaned = true →
            container_mounts
              (if bool_decide (size volumesToRemove = 0) then cleaned
               else filter_container_mounts volumesToRemove cleaned)
            = filter (λ vm, shouldKeepMount volumesToRemove vm = true)
                     (container_mounts cleaned)) as Hstep.
  { intros cleaned Hk. case_bool_decide as Hsize.
    - apply size_empty_iff, leibniz_equiv in Hsize. subst volumesToRemove.
      symmetry. apply filter_Forall_id, Forall_forall. intros vm _.
      apply shouldKeepMount_empty.
    - by rewrite filter_container_mounts_entries, Hk. }
  destruct container as [| | | | | |containerMap|containerMap];
    try (simpl; by destruct (bool_decide _)).
  - simpl. unfold container_mounts at 2. simpl.
    rewrite <- (cleanContainerSpec_volumeMounts containerMap options).
    destruct (len_zero (cleanContainerSpec containerMap options)) eqn:Hz.
    + apply bool_decide_eq_true, map_size_empty_iff in Hz.
      by rewrite Hz, lookup_empty.
    + rewrite Hstep by done. unfold container_mounts at 1. simpl.
      apply filter_Forall_iff.
      unfold container_mounts in Hread. simpl in Hread.
      rewrite <- (cleanContainerSpec_volumeMounts containerMap options) in Hread.
      eapply Forall_impl; [exact Hread|]. intros vm Hvm.
      apply shouldKeepMount_names_removed; [done|]. intros Hn. by apply Hvm.
  - simpl.
    replace (if bool_decide (size volumesToRemove = 0)
             then VIMap containerMap else VIMap containerMap)
      with (VIMap containerMap) by (by destruct (bool_decide _)).
    symmetry. apply filter_Forall_id.
    eapply Forall_impl; [exact Hread|]. intros vm Hvm. simpl in Hvm.
    apply not_true_is_false. intros Hn. by destruct (Hvm Hn).
Qed.

(** The same over a list of containers. *)
Lemma cleaned_containers_mounts (spec : gmap string value)
    (volumesToRemove : gset string) (options : CleanupOptions)
    (containers : list value) :
  (∀ name, name ∈ volumesToRemove ↔ name ∈ removed_volume_names spec) →
  Forall (λ container,
            Forall (λ vm, names_removed_volume spec vm = true →
                          string_keyed container = true ∧ string_keyed vm = true)
                   (container_mounts container)) containers →
  (if bool_decide (size volumesToRemove = 0)
   then omap (clean_container_entry options) containers
   else map (filter_container_mounts volumesToRemove)
            (omap (clean_container_entry options) containers))
  ≫= container_mounts
  = filter (λ vm, names_removed_volume spec vm = false)
           (containers ≫= container_mounts).
Proof.
  intros HR. induction 1 as [|c cs Hc Hcs IH]; [by destruct (bool_decide _)|].
  rewrite bind_cons, filter_app, <- IH.
  rewrite <- (cleaned_container_mounts spec volumesToRemove options c HR Hc).
  simpl. destruct (clean_container_entry options c) as [cleaned|];
    by destruct (bool_decide _).
Qed.

(** The container lists and the volumes list of a cleaned pod spec. *)
Lemma clean_containers_of_type_other (options : CleanupOptions)
    (spec : gmap string value) (containerType k : string) :
  k ≠ containerType →
  clean_containers_of_type options spec containerType !! k = spec !! k.
Proof.
  intros Hne. unfold clean_containers_of_type.
  destruct (spec !! containerType) as [[| | | | |containers| |]|]; try done.
  destruct (omap _ containers);
    [by rewrite lookup_delete_ne|by rewrite lookup_insert_ne].
Qed.

Lemma clean_containers_of_type_same (options : CleanupOptions)
    (spec : gmap string value) (containerType : string) :
  match clean_containers_of_type options spec containerType !! containerType with
  | Some (VList containers) => containers
  | _ => []
  end
  = omap (clean_container_entry options)
         match spec !! containerType with
         | Some (VList containers) => containers
         | _ => []
         end.
Proof.
  unfold clean_containers_of_type.
  destruct (spec !! containerType) as [[| | | | |containers| |]|] eqn:Hs;
    rewrite ?Hs; try done.
  destruct (omap _ containers) as [|c cs] eqn:Ho;
    [by rewrite lookup_delete_eq|by rewrite lookup_insert_eq].
Qed.

Lemma cleanPodVolumes_volumes (spec : gmap string value) :
  declared_volumes (cleanPodVolumes spec)
  = filter (λ volume, injected_volume volume = false) (declared_volumes spec).
Proof.
  unfold cleanPodVolumes, declared_volumes.
  destruct (spec !! "volumes") as [[| | | | |volumes| |]|] eqn:Hvol;
    cbv beta iota zeta;
    try (rewrite bool_decide_true by apply size_empty; by rewrite Hvol).
  destruct (scan_volumes_injected volumes) as [Hkept _].
  destruct (scan_volumes volumes) as [toRemove cleaned]. simpl in Hkept.
  subst cleaned. cbv beta iota zeta.
  case_bool_decide; rewrite ?foldl_filter_mounts_volumes;
    destruct (filter _ volumes); by rewrite ?lookup_delete_eq, ?lookup_insert_eq.
Qed.

Lemma cleanPodVolumes_containers (spec : gmap string value) (containerType : string) :
  containerType ∈ containerTypes →
  match cleanPodVolumes spec !! containerType with
  | Some (VList containers) => containers
  | _ => []
  end
  = if bool_decide (size (scan_volumes (declared_volumes spec)).1 = 0)
    then match spec !! containerType with
         | Some (VList containers) => containers
         | _ => []
         end
    else map (filter_container_mounts (scan_volumes (declared_volumes spec)).1)
             match spec !! containerType with
             | Some (VList containers) => containers
             | _ => []
             end.
Proof.
  intros Hct. pose proof (containerType_not_volumes _ Hct) as Hnv.
  unfold cleanPodVolumes, declared_volumes.
  destruct (spec !! "volumes") as [[| | | | |volumes| |]|] eqn:Hvol;
    cbv beta iota zeta;
    try (cbn [scan_volumes fst]; by rewrite !bool_decide_true by apply size_empty).
  destruct (scan_volumes volumes) as [toRemove cleaned]. cbv beta iota zeta.
  cbn [fst].
  set (spec1 := match cleaned with [] => _ | _ => _ end).
  assert (spec1 !! containerType = spec !! containerType) as H1.
  { subst spec1. destruct cleaned;
      [by rewrite lookup_delete_ne|by rewrite lookup_insert_ne]. }
  case_bool_decide; [by rewrite H1|].
  rewrite foldl_filter_mounts_lookup, H1 by done.
  by destruct (spec !! containerType) as [[]|].
Qed.

Lemma cleanPodSpec_volumes (spec : gmap string value) (options : CleanupOptions) :
  declared_volumes (cleanPodSpec spec options)
  = filter (λ volume, injected_volume volume = false) (declared_volumes spec).
Proof.
  unfold cleanPodSpec.
  set (fieldsToRemove := if PreserveResourceState options then _ else _).
  set (specA := foldr delete spec fieldsToRemove).
  set (specB := foldl _ specA containerTypes).
  assert (specB !! "volumes" = spec !! "volumes") as HB.
  { subst specB. unfold containerTypes. simpl.
    rewrite !clean_containers_of_type_other by done.
    subst specA. rewrite foldr_delete_lookup.
    rewrite decide_False; [done|]. apply pod_fields_filtered. not_in_list. }
  assert (declared_volumes specB = declared_volumes spec) as HBv
    by (unfold declared_volumes; by rewrite HB).
  rewrite <- HBv, <- cleanPodVolumes_volumes.
  unfold declared_volumes at 2.
  destruct (cleanPodVolumes specB !! "volumes") as [[| | | | |[|v vs]| |]|] eqn:Hv;
    unfold declared_volumes; rewrite ?Hv, ?lookup_delete_eq; done.
Qed.

Lemma cleanPodSpec_containers (spec : gmap string value) (options : CleanupOptions)
    (containerType : string) :
  containerType ∈ containerTypes →
  match cleanPodSpec spec options !! containerType with
  | Some (VList containers) => containers
  | _ => []
  end
  = if bool_decide (size (scan_volumes (declared_volumes spec)).1 = 0)
    then omap (clean_container_entry options)
              match spec !! containerType with
              | Some (VList containers) => containers
              | _ => []
              end
    else map (filter_container_mounts (scan_volumes (declared_volumes spec)).1)
             (omap (clean_container_entry options)
                   match spec !! containerType with
                   | Some (VList containers) => containers
                   | _ => []
                   end).
Proof.
  intros Hct. pose proof (containerType_not_volumes _ Hct) as Hnv.
  unfold cleanPodSpec.
  set (fieldsToRemove := if PreserveResourceState options then _ else _).
  set (specA := foldr delete spec fieldsToRemove).
  set (specB := foldl _ specA containerTypes).
  assert (∀ k, k ∈ pod_list_keys → specA !! k = spec !! k) as HA.
  { intros k Hk. subst specA. rewrite foldr_delete_lookup.
    rewrite decide_False; [done|]. apply pod_fields_filtered.
    revert Hk. unfold pod_list_keys.
    intros [->|[->|[->|[]%elem_of_nil]%elem_of_cons]%elem_of_cons]%elem_of_cons;
      not_in_list. }
  assert (specB !! "volumes" = spec !! "volumes") as HBv.
  { subst specB. unfold containerTypes. simpl.
    rewrite !clean_containers_of_type_other by done.
    apply HA. unfold pod_list_keys. in_list. }
  assert (match specB !! containerType with
          | Some (VList containers) => containers
          | _ => []
          end
          = omap (clean_container_entry options)
                 match spec !! containerType with
                 | Some (VList containers) => containers
                 | _ => []
                 end) as HBc.
  { subst specB. revert Hct. unfold containerTypes. simpl.
    intros [->|[->|[]%elem_of_nil]%elem_of_cons]%elem_of_cons.
    - rewrite clean_containers_of_type_other by done.
      rewrite clean_containers_of_type_same.
      rewrite HA; [done|]. unfold pod_list_keys. in_list.
    - rewrite clean_containers_of_type_same.
      rewrite clean_containers_of_type_other by done.
      rewrite HA; [done|]. unfold pod_list_keys. in_list. }
  assert (declared_volumes specB = declared_volumes spec) as HBd
    by (unfold declared_volumes; by rewrite HBv).
  rewrite <- HBc, <- HBd.
  rewrite <- (cleanPodVolumes_containers specB containerType Hct).
  destruct (cleanPodVolumes specB !! "volumes") as [[| | | | |[|v vs]| |]|];
    try done.
  by rewrite lookup_delete_ne.
Qed.

(** The mounts of a cleaned pod spec. *)
Lemma cleanPodSpec_mounts (spec : gmap string value) (options : CleanupOptions) :
  rule_reads_mounts spec →
  all_mounts (cleanPodSpec spec options)
  = filter (λ vm, names_removed_volume spec vm = false) (all_mounts spec).
Proof.
  unfold rule_reads_mounts, all_mounts. rewrite !listed_containers_app.
  intros [H1 H2]%Forall_app.
  pose proof (scan_volumes_removed spec) as HR.
  rewrite !bind_app, filter_app.
  rewrite !cleanPodSpec_containers by (unfold containerTypes; in_list).
  simpl.
  by rewrite (cleaned_containers_mounts spec _ options _ HR H1),
             (cleaned_containers_mounts spec _ options _ HR H2).
Qed.

(** A pod spec built string-keyed throughout is one the rule reads. *)
Lemma string_keyed_mounts_are_read (spec : gmap string value) :
  Forall (λ container, string_keyed container = true) (listed_containers spec) →
  Forall (λ vm, string_keyed vm = true) (all_mounts spec) →
  rule_reads_mounts spec.
Proof.
  unfold rule_reads_mounts, all_mounts. intros Hc Hm.
  apply Forall_forall. intros c Hin. apply Forall_forall. intros vm Hvm _.
  split; [by eapply Forall_forall in Hc|].
  eapply Forall_forall in Hm; [done|]. apply list_elem_of_bind. eauto.
Qed.

(** So is a pod spec whose volumes are all interface-keyed, as the decoder
    delivers them: none of them is removed. *)
Lemma decoded_volumes_are_read (spec : gmap string value) :
  Forall (λ volume, string_keyed volume = false) (declared_volumes spec) →
  rule_reads_mounts spec.
Proof.
  intros Hv. apply Forall_forall. intros c _. apply Forall_forall. intros vm _.
  unfold names_removed_volume. destruct (written_name vm) as [name|]; [|done].
  intros Hn%bool_decide_eq_true.
  apply elem_of_removed_volume_names in Hn as (v & Hin & Hinj & _).
  eapply Forall_forall in Hv; [|done]. by destruct v.
Qed.

(** C3. Mount-volume consistency, as the code keeps it.  Provided every
    mount that names a volume the Volume Rule removes is one the rule can
    read (a string-keyed entry of a string-keyed container), cleaning a pod
    spec removes from the volumes list exactly the injected volumes and from
    the containers and init-containers exactly the mounts that name a
    removed volume, keeping the others in order and adding none; so when
    every mount of the input names a volume of its volumes list, every mount
    of the cleaned pod spec names a volume that is still in the cleaned
    volumes list. *)
Theorem cleanPodSpec_keeps_mounts_consistent (spec : gmap string value)
    (options : CleanupOptions) :
  rule_reads_mounts spec →
  let cleaned := cleanPodSpec spec options in
  declared_volumes cleaned
  = filter (λ volume, injected_volume volume = false) (declared_volumes spec) ∧
  all_mounts cleaned
  = filter (λ vm, names_removed_volume spec vm = false) (all_mounts spec) ∧
  (no_dangling_mount spec → no_dangling_mount cleaned).
Proof.
  intros Hread cleaned. subst cleaned.
  pose proof (cleanPodSpec_volumes spec options) as Hv.
  pose proof (cleanPodSpec_mounts spec options Hread) as Hm.
  split; [done|]. split; [done|].
  intros Hin name. rewrite Hv, Hm.
  intros (vm & [Hkeep Hvm]%list_elem_of_filter & Hname)%list_elem_of_omap.
  assert (name ∈ omap written_name (declared_volumes spec)) as Hdecl.
  { apply Hin. apply list_elem_of_omap. eauto. }
  apply list_elem_of_omap in Hdecl as (v & Hvin & Hvname).
  apply list_elem_of_omap. exists v. split; [|done].
  apply list_elem_of_filter. split; [|done].
  apply not_true_is_false. intros Hinj.
  unfold names_removed_volume in Hkeep. rewrite Hname in Hkeep.
  apply bool_decide_eq_false in Hkeep. apply Hkeep.
  apply elem_of_removed_volume_names. exists v. split; [done|]. split; [done|].
  destruct v as [| | | | | |m|]; done.
Qed.

(** A mount that names no declared volume is left alone: the claim without
    the assumption on the input fails on this pod spec. *)
Lemma dangling_mount_survives :
  ¬ no_dangling_mount (cleanPodSpec pod_spec_dangling default_options).
Proof.
  intros Hc. specialize (Hc "data").
  replace (omap written_name
             (all_mounts (cleanPodSpec pod_spec_dangling default_options)))
    with ["data"] in Hc by (by vm_compute).
  replace (omap written_name
             (declared_volumes (cleanPodSpec pod_spec_dangling default_options)))
    with (@nil string) in Hc by (by vm_compute).
  specialize (Hc (list_elem_of_here _ _)). by apply elem_of_nil in Hc.
Qed.

(** A mount the rule cannot read is kept whatever it names: on the mixed pod
    spec the volume goes and the interface-keyed mount that names it stays. *)
Lemma mixed_key_mount_dangles :
  no_dangling_mount pod_spec_mixed ∧
  ¬ rule_reads_mounts pod_spec_mixed ∧
  ¬ no_dangling_mount (cleanPodSpec pod_spec_mixed default_options).
Proof.
  split; [|split].
  - apply (bool_decide_unpack _). vm_compute. reflexivity.
  - apply (bool_decide_eq_false_1 _). vm_compute. reflexivity.
  - apply (bool_decide_eq_false_1 _). vm_compute. reflexivity.
Qed.

(** ** Scenario B: the reconstructed Deployment *)

Lemma filter_key_ne_delete (m : gmap string value) (k : string) :
  filter (λ kv, kv.1 ≠ k) m = delete k m.
Proof.
  apply map_eq. intros i. rewrite map_lookup_filter.
  destruct (decide (i = k)) as [->|Hne].
  - rewrite lookup_delete_eq. destruct (m !! k); [simpl|done].
    by rewrite option_guard_False by (simpl; auto).
  - rewrite lookup_delete_ne by done. destruct (m !! i); [simpl|done].
    by rewrite option_guard_True.
Qed.

Lemma derived_labels_no_hash (podLabels : gmap string value) (name : string) :
  derived_labels podLabels name !! "pod-template-hash" = None.
Proof.
  unfold derived_labels. case_decide; [done|apply lookup_delete_eq].
Qed.

Lemma revert_scenario (obj : KubernetesObject) (metadata podLabels : gmap string value) :
  Kind obj = "Pod" →
  Metadata obj = Some metadata →
  metadata !! "labels" = Some (VMap podLabels) →
  podLabels !! "pod-template-hash" = Some (VStr "abc123") →
  metadata !! "name" = Some (VStr "myapp-abc123-xk2qz") →
  ∃ newMetadata,
    revertPodToDeployment obj =
    Done ({| APIVersion := "apps/v1";
             Kind := "Deployment";
             Metadata := Some newMetadata;
             Spec :=
               Some {[ "replicas" := VInt 1;
                       "selector" :=
                         VMap {[ "matchLabels" :=
                                   VMap (derived_labels podLabels "myapp") ]};
                       "template" :=
                         VMap {[ "metadata" :=
                                   VMap {[ "labels" :=
                                             VMap (derived_labels podLabels "myapp") ]};
                                 "spec" := VMap (default ∅ (Spec obj)) ]} ]};
             Status := None;
             Data := None;
             StringData := None;
             Type_ := "" |}, true).
Proof.
  intros Hkind Hmeta Hlabels Hhash Hname.
  unfold revertPodToDeployment.
  rewrite Hkind, Hmeta, Hlabels, Hhash, Hname.
  change (negb (String.eqb "Pod" "Pod")) with false.
  change (String.eqb "abc123" "") with false.
  cbv beta iota delta [default from_option id].
  replace (deriveBaseName "myapp-abc123-xk2qz" "abc123") with (Some "myapp")
    by (by vm_compute).
  rewrite filter_key_ne_delete.
  assert ((if len_zero (delete "pod-template-hash" podLabels)
           then <["app" := VStr "myapp"]> (delete "pod-template-hash" podLabels)
           else delete "pod-template-hash" podLabels)
          = derived_labels podLabels "myapp") as ->.
  { unfold derived_labels.
    destruct (len_zero _) eqn:Hz.
    - apply len_zero_true in Hz. rewrite Hz. rewrite decide_True by done.
      apply insert_empty.
    - apply len_zero_false in Hz. by rewrite decide_False. }
  eexists. reflexivity.
Qed.

Lemma deployment_runtime_paths (fieldPath : string) :
  deployment_stateFields !! fieldPath = Some false →
  fieldPath = "metadata.generation" ∨ fieldPath = "status".
Proof.
  unfold deployment_stateFields. intros H.
  repeat (apply lookup_insert_Some in H as [[<- H]|[_ H]]; [by auto|]).
  apply lookup_singleton_Some in H as [<- _]. by auto.
Qed.

Lemma foldl_removeField_Spec (paths : list string) (obj : KubernetesObject) :
  (∀ p, p ∈ paths → p = "metadata.generation" ∨ p = "status") →
  Spec (foldl removeField obj paths) = Spec obj.
Proof.
  revert obj. induction paths as [|p paths IH]; intros obj Hp; [done|].
  simpl. rewrite IH by (intros q Hq; apply Hp; by apply list_elem_of_further).
  destruct (Hp p (list_elem_of_here _ _)) as [->| ->]; [|done].
  change (removeField obj "metadata.generation") with
    (match Metadata obj with
     | None => obj
     | Some currentMap => set_Metadata obj (Some (delete "generation" currentMap))
     end).
  by destruct (Metadata obj).
Qed.

Lemma GenericObjectCleaner_Clean_Spec_Deployment (mc : MetadataCleaner)
    (obj : KubernetesObject) (options : CleanupOptions) :
  Kind obj = "Deployment" →
  preserves_runtime options = false →
  Spec (GenericObjectCleaner_Clean mc obj options) = Spec obj.
Proof.
  intros Hkind Hpr.
  destruct (PreserveResourceState options) eqn:Hp;
    [|by apply GenericObjectCleaner_Clean_Spec_unpreserved].
  unfold preserves_runtime in Hpr. rewrite Hp in Hpr. simpl in Hpr.
  pose proof Deployment_stateFields as Ht. rewrite <- Hkind in Ht.
  destruct (GenericObjectCleaner_Clean_gate mc obj options _ Hp Ht) as [_ ->].
  apply foldl_removeField_Spec.
  intros p (d & Hd & Hq)%elem_of_fieldsToRemoveForState.
  apply deployment_runtime_paths. unfold queued_for_removal in Hq.
  rewrite Hpr in Hq. destruct d; [|done].
  by destruct (String.eqb _ "Desired").
Qed.

Lemma cleanup_Pod (obj : KubernetesObject) (options : CleanupOptions) :
  Kind obj = "Pod" →
  cleanupKubernetesObject obj options NewObjectCleanerFactory =
  Clean (PodCleaner (GenericObjectCleaner GenericMetadataCleaner)) obj options.
Proof.
  intros Hkind. unfold cleanupKubernetesObject. rewrite Hkind.
  replace (GetCleaner NewObjectCleanerFactory "Pod")
    with (Some (PodCleaner (GenericObjectCleaner GenericMetadataCleaner)))
    by (by vm_compute).
  reflexivity.
Qed.

Lemma keep_item_pruned_again (v : value) :
  keep_item (removeEmptyFields v) ≫= (λ c, keep_entry c (removeEmptyFields c))
  = keep_item (removeEmptyFields v).
Proof.
  destruct (keep_item (removeEmptyFields v)) as [c|] eqn:Hc; [simpl|done].
  eapply keep_item_fixed; [apply removeEmptyFields_fixed|done].
Qed.

(** Reading two levels below a top-level field after it was pruned. *)
Lemma pruned_two_levels (m next : gmap string value) (k1 k2 : string) :
  m !! k1 = Some (VMap next) →
  (m' ← prune_top_level (Some m); value_at m' [k1; k2])
  = next !! k2 ≫= λ v, keep_entry v (removeEmptyFields v).
Proof.
  intros Hk1. unfold prune_top_level. rewrite removeEmptyFields_VMap. simpl.
  set (clean := λ v, keep_entry v (removeEmptyFields v)).
  assert (omap clean m !! k1 = clean (VMap next)) as Hl
    by by rewrite lookup_omap, Hk1.
  unfold clean at 2 in Hl. rewrite removeEmptyFields_VMap in Hl. simpl in Hl.
  fold clean in Hl.
  destruct (len_zero (omap clean next)) eqn:Hn.
  - apply len_zero_true in Hn.
    assert (next !! k2 ≫= clean = None) as ->.
    { by rewrite <- lookup_omap, Hn. }
    simpl in Hl. destruct (len_zero (omap clean m)); simpl; [done|]. by rewrite Hl.
  - simpl in Hl. destruct (len_zero (omap clean m)) eqn:Hm.
    { apply len_zero_true in Hm. by rewrite Hm in Hl. }
    simpl. by rewrite Hl, lookup_omap.
Qed.

Lemma Clean_PodCleaner_reverted (mc : MetadataCleaner)
    (obj reverted : KubernetesObject) (options : CleanupOptions) :
  RevertToDeployment options = true →
  revertPodToDeployment obj = Done (reverted, true) →
  Clean (PodCleaner (GenericObjectCleaner mc)) obj options =
  Done (final_cleanup
          (with_Spec (GenericObjectCleaner_Clean mc reverted options)
             (λ spec, Some (clean_reverted_template spec options)))
          options).
Proof. intros Hopt Hrev. simpl. by rewrite Hopt, Hrev. Qed.

Lemma clean_template_spec_lookup (template spec : gmap string value)
    (options : CleanupOptions) :
  template !! "spec" = Some (VMap spec) →
  clean_template_spec template options !! "spec"
  = keep_item (removeEmptyFields (VMap (cleanPodSpec spec options))).
Proof.
  intros Hs. unfold clean_template_spec. rewrite Hs.
  destruct (removeEmptyFields_VMap_cases (cleanPodSpec spec options))
    as [->|(cleaned & -> & _)]; simpl.
  - apply lookup_delete_eq.
  - apply lookup_insert_eq.
Qed.

Lemma field_at_spec (obj : KubernetesObject) (keys : list string) :
  field_at obj "spec" keys = m ← Spec obj; value_at m keys.
Proof. reflexivity. Qed.

Lemma final_cleanup_Kind (obj : KubernetesObject) (options : CleanupOptions) :
  Kind (final_cleanup obj options) = Kind obj.
Proof. unfold final_cleanup. by destruct (RemoveEmpty options). Qed.

Lemma final_cleanup_spec_two_levels (obj : KubernetesObject)
    (options : CleanupOptions) (m next : gmap string value) (k1 k2 : string) :
  Spec obj = Some m →
  m !! k1 = Some (VMap next) →
  field_at (final_cleanup obj options) "spec" [k1; k2] =
  if RemoveEmpty options
  then next !! k2 ≫= λ v, keep_entry v (removeEmptyFields v)
  else next !! k2.
Proof.
  intros Hs Hk1. rewrite field_at_spec. unfold final_cleanup.
  destruct (RemoveEmpty options).
  - simpl. rewrite Hs. by apply pruned_two_levels.
  - rewrite Hs. simpl. by rewrite Hk1.
Qed.

(** C1. Scenario B, as the code has it: for a Pod labelled
    [pod-template-hash: abc123] and named [myapp-abc123-xk2qz], whose labels
    are a string-keyed document, cleaned with the revert option on and
    without Runtime-mode preservation, the reconstructor stores the pod spec
    verbatim under [spec.template.spec]; the cleaned output has kind
    Deployment, its [spec.template.spec] is that pod spec after Pod-Spec
    cleaning and pruning, and its [spec.selector.matchLabels] is the pod's
    labels without [pod-template-hash] (one synthetic [app] label when none
    remain), pruned when remove-empty is on; it never holds
    [pod-template-hash]. *)
Theorem scenario_B_reverted_pod (obj : KubernetesObject) (options : CleanupOptions)
    (metadata podLabels : gmap string value) :
  Kind obj = "Pod" →
  Metadata obj = Some metadata →
  metadata !! "labels" = Some (VMap podLabels) →
  podLabels !! "pod-template-hash" = Some (VStr "abc123") →
  metadata !! "name" = Some (VStr "myapp-abc123-xk2qz") →
  RevertToDeployment options = true →
  preserves_runtime options = false →
  ∃ reverted cleaned,
    revertPodToDeployment obj = Done (reverted, true) ∧
    field_at reverted "spec" ["template"; "spec"]
    = Some (VMap (default ∅ (Spec obj))) ∧
    cleanupKubernetesObject obj options NewObjectCleanerFactory = Done cleaned ∧
    Kind cleaned = "Deployment" ∧
    field_at cleaned "spec" ["template"; "spec"]
    = keep_item (removeEmptyFields
                   (VMap (cleanPodSpec (default ∅ (Spec obj)) options))) ∧
    field_at cleaned "spec" ["selector"; "matchLabels"]
    = (if RemoveEmpty options
       then keep_item (removeEmptyFields (VMap (derived_labels podLabels "myapp")))
       else Some (VMap (derived_labels podLabels "myapp"))) ∧
    (∀ matchLabels,
       field_at cleaned "spec" ["selector"; "matchLabels"] = Some (VMap matchLabels) →
       matchLabels !! "pod-template-hash" = None).
Proof.
  intros Hkind Hmeta Hlabels Hhash Hname Hopt Hpr.
  destruct (revert_scenario obj metadata podLabels Hkind Hmeta Hlabels Hhash Hname)
    as [newMetadata Hrev].
  set (L := derived_labels podLabels "myapp") in *.
  set (podSpec := default ∅ (Spec obj)) in *.
  set (template := ({[ "metadata" := VMap {[ "labels" := VMap L ]};
                       "spec" := VMap podSpec ]} : gmap string value)) in *.
  set (selector := ({[ "matchLabels" := VMap L ]} : gmap string value)) in *.
  set (spec0 := ({[ "replicas" := VInt 1; "selector" := VMap selector;
                    "template" := VMap template ]} : gmap string value)) in *.
  set (reverted := {| APIVersion := "apps/v1"; Kind := "Deployment";
                      Metadata := Some newMetadata; Spec := Some spec0;
                      Status := None; Data := None; StringData := None;
                      Type_ := "" |}) in *.
  assert (spec0 !! "template" = Some (VMap template)) as Htemplate.
  { subst spec0. by rewrite !lookup_insert_ne, lookup_singleton_eq by done. }
  assert (spec0 !! "selector" = Some (VMap selector)) as Hselector.
  { subst spec0. by rewrite lookup_insert_ne, lookup_insert_eq by done. }
  assert (template !! "spec" = Some (VMap podSpec)) as Hspec.
  { subst template. by rewrite lookup_insert_ne, lookup_singleton_eq by done. }
  set (generic := GenericObjectCleaner_Clean GenericMetadataCleaner reverted options).
  assert (Spec generic = Some spec0) as Hgeneric.
  { subst generic. by rewrite GenericObjectCleaner_Clean_Spec_Deployment. }
  set (spec1 := <["template" := VMap (clean_template_spec template options)]> spec0).
  assert (with_Spec generic (λ spec, Some (clean_reverted_template spec options))
          = set_Spec generic (Some spec1)) as Hwith.
  { unfold with_Spec. rewrite Hgeneric. unfold clean_reverted_template.
    by rewrite Htemplate. }
  set (cleaned := final_cleanup (set_Spec generic (Some spec1)) options).
  assert (field_at cleaned "spec" ["selector"; "matchLabels"]
          = (if RemoveEmpty options
             then keep_item (removeEmptyFields (VMap L))
             else Some (VMap L))) as Hmatch.
  { subst cleaned.
    rewrite (final_cleanup_spec_two_levels _ _ spec1 selector) by
      (try done; subst spec1; by rewrite lookup_insert_ne).
    subst selector. rewrite lookup_singleton_eq. simpl.
    by rewrite keep_entry_pruned. }
  exists reverted, cleaned. split_and!.
  - done.
  - rewrite field_at_spec. simpl. by rewrite Htemplate, Hspec.
  - rewrite (cleanup_Pod _ _ Hkind).
    rewrite (Clean_PodCleaner_reverted _ _ reverted) by done.
    fold generic. by rewrite Hwith.
  - subst cleaned. rewrite final_cleanup_Kind. simpl. subst generic.
    by rewrite GenericObjectCleaner_Clean_Kind.
  - subst cleaned.
    rewrite (final_cleanup_spec_two_levels _ _ spec1
               (clean_template_spec template options)) by
      (try done; subst spec1; by rewrite lookup_insert_eq).
    rewrite (clean_template_spec_lookup _ podSpec) by done.
    destruct (RemoveEmpty options); [|done]. apply keep_item_pruned_again.
  - done.
  - intros matchLabels. rewrite Hmatch.
    destruct (RemoveEmpty options).
    + intros [Heq _]%keep_item_Some.
      rewrite removeEmptyFields_VMap in Heq. simpl in Heq.
      destruct (len_zero _); [done|]. injection Heq as <-.
      rewrite lookup_omap. subst L. by rewrite derived_labels_no_hash.
    + intros [= <-]. apply derived_labels_no_hash.
Qed.

(** Cleaning the reverted Pod of Scenario B whose spec names its node does
    not leave the original pod spec under [spec.template.spec]: the node
    name is gone. *)
Lemma scenario_B_spec_not_verbatim :
  ¬ ∃ cleaned,
      cleanupKubernetesObject scenario_pod default_options NewObjectCleanerFactory
      = Done cleaned ∧
      Kind cleaned = "Deployment" ∧
      field_at cleaned "spec" ["template"; "spec"] = Some (VMap scenario_pod_spec).
Proof.
  intros (cleaned & Hc & _ & Hf).
  assert (field_at cleaned "spec" ["template"; "spec"; "nodeName"] = None) as Hn.
  { vm_compute in Hc. injection Hc as <-. by vm_compute. }
  assert (field_at cleaned "spec" ["template"; "spec"; "nodeName"]
          = Some (VStr "node-1")) as Hy.
  { rewrite field_at_spec in *. destruct (Spec cleaned) as [m|]; [simpl in *|done].
    destruct (m !! "template") as [[| | | | | |t|]|]; try done.
    rewrite Hf. by vm_compute. }
  congruence.
Qed.

(** On the Pod of Scenario B as the decoder delivers it the labels are a
    [map[interface{}]interface{}]: the revert guard finds no labels and the
    document stays a Pod. *)
Lemma scenario_B_decoded_pod_not_reverted :
  ∃ cleaned,
    cleanupKubernetesObject scenario_pod_decoded default_options
                            NewObjectCleanerFactory = Done cleaned ∧
    Kind cleaned = "Pod".
Proof. eexists. split; by vm_compute. Qed.

(** On a decoded pod spec the Volume Rule finds no string-keyed volume, so
    the injected volume and its mount both stay. *)
Lemma decoded_pod_spec_untouched :
  cleanPodSpec pod_spec_injected_decoded default_options = pod_spec_injected_decoded.
Proof. vm_compute. reflexivity. Qed.

(** ** The string helpers on examples *)

Example Split_path :
  Split "spec.template.metadata" "." = ["spec"; "template"; "metadata"].
Proof. reflexivity. Qed.

Example Split_empty : Split "" "." = [""].
Proof. reflexivity. Qed.

Example Split_trailing_dot : Split "metadata." "." = ["metadata"; ""].
Proof. reflexivity. Qed.

Example deriveBaseName_hash_and_suffix :
  deriveBaseName "myapp-abc123-xk2qz" "abc123" = Some "myapp".
Proof. reflexivity. Qed.

Example deriveBaseName_last_occurrence :
  deriveBaseName "a-h-b-h-c" "h" = Some "a-h-b".
Proof. reflexivity. Qed.

Example deriveBaseName_trailing_hash :
  deriveBaseName "myapp-abc123" "abc123" = Some "myapp".
Proof. reflexivity. Qed.

Example deriveBaseName_no_hash : deriveBaseName "myapp-0" "abc123" = None.
Proof. reflexivity. Qed.

Example ToUpper_mixed : ToUpper "tCp" = "TCP".
Proof. reflexivity. Qed.

(** ** The theorems at concrete documents *)

Lemma scenario_B_reverted_pod_witness :
  ∃ cleaned,
    cleanupKubernetesObject scenario_pod default_options NewObjectCleanerFactory
    = Done cleaned ∧
    Kind cleaned = "Deployment" ∧
    field_at cleaned "spec" ["template"; "spec"]
    = Some (VMap {[ "containers" :=
                      VList [ VMap {[ "name" := VStr "app";
                                      "image" := VStr "nginx" ]} ] ]}) ∧
    field_at cleaned "spec" ["selector"; "matchLabels"]
    = Some (VMap {[ "app" := VStr "myapp" ]}).
Proof.
  destruct (scenario_B_reverted_pod scenario_pod default_options
              {[ "name" := VStr "myapp-abc123-xk2qz";
                 "labels" := VMap {[ "app" := VStr "myapp";
                                     "pod-template-hash" := VStr "abc123" ]} ]}
              {[ "app" := VStr "myapp"; "pod-template-hash" := VStr "abc123" ]})
    as (reverted & cleaned & _ & _ & Hc & Hk & Hs & Hm & _);
    try (vm_compute; reflexivity).
  exists cleaned. split; [exact Hc|]. split; [exact Hk|]. split.
  - rewrite Hs. vm_compute. reflexivity.
  - rewrite Hm. vm_compute. reflexivity.
Defined.

Lemma cleanPodSpec_keeps_mounts_consistent_witness :
  rule_reads_mounts pod_spec_injected ∧
  no_dangling_mount pod_spec_injected ∧
  omap written_name
       (declared_volumes (cleanPodSpec pod_spec_injected default_options)) = ["data"] ∧
  omap written_name
       (all_mounts (cleanPodSpec pod_spec_injected default_options)) = ["data"] ∧
  no_dangling_mount (cleanPodSpec pod_spec_injected default_options).
Proof.
  assert (rule_reads_mounts pod_spec_injected) as Hread.
  { apply (bool_decide_unpack _). vm_compute. reflexivity. }
  assert (no_dangling_mount pod_spec_injected) as Hin.
  { apply (bool_decide_unpack _). vm_compute. reflexivity. }
  destruct (cleanPodSpec_keeps_mounts_consistent pod_spec_injected default_options Hread)
    as (Hv & Hm & Hc).
  split; [exact Hread|]. split; [exact Hin|]. split; [|split].
  - rewrite Hv. vm_compute. reflexivity.
  - rewrite Hm. vm_compute. reflexivity.
  - exact (Hc Hin).
Defined.

Lemma metadata_never_keeps_cluster_assigned_witness :
  ∃ cleaned,
    cleanupKubernetesObject configmap_example default_options NewObjectCleanerFactory
    = Done cleaned ∧
    lacks (Metadata cleaned) "uid".
Proof.
  assert ("uid" ∈ cluster_assigned) as Hk.
  { unfold cluster_assigned. do 3 apply list_elem_of_further. apply list_elem_of_here. }
  destruct (metadata_never_keeps_cluster_assigned "uid" Hk) as [Hobj _].
  eexists. split.
  - vm_compute. reflexivity.
  - apply (Hobj configmap_example default_options).
    + discriminate.
    + vm_compute. reflexivity.
Defined.

Lemma removeField_contract_witness :
  resolve (removeField deployment_example "spec.template.metadata.creationTimestamp")
          "spec" ["template"; "metadata"]
  = Some {[ "labels" := VMap {[ "app" := VStr "myapp" ]} ]}.
Proof.
  destruct (removeField_contract deployment_example
              "spec.template.metadata.creationTimestamp"
              "spec" ["template"; "metadata"; "creationTimestamp"])
    as (_ & _ & Hseveral).
  - vm_compute. reflexivity.
  - specialize (Hseveral ["template"; "metadata"] "creationTimestamp" eq_refl).
    replace (resolve deployment_example "spec" ["template"; "metadata"])
      with (Some ({[ "creationTimestamp" := VNil;
                     "labels" := VMap {[ "app" := VStr "myapp" ]} ]}
                  : gmap string value)) in Hseveral
      by (vm_compute; reflexivity).
    destruct Hseveral as [Hres _]. rewrite Hres. vm_compute. reflexivity.
Defined.

Lemma state_modes_exclusive_witness :
  ∃ desired runtime,
    cleanupKubernetesObject deployment_example
      (set_ResourceStateMode preserving_options "Desired") NewObjectCleanerFactory
    = Done desired ∧
    cleanupKubernetesObject deployment_example
      (set_ResourceStateMode preserving_options "Runtime") NewObjectCleanerFactory
    = Done runtime ∧
    Status desired = None ∧
    lacks (Spec runtime) "replicas".
Proof.
  apply (state_modes_exclusive deployment_example preserving_options);
    reflexivity.
Defined.

Lemma revertPodToDeployment_panics_witness :
  ∃ msg,
    revertPodToDeployment nameless_pod = Panic msg ∧
    ∀ options, RevertToDeployment options = true →
      cleanupKubernetesObject nameless_pod options NewObjectCleanerFactory
      = Panic msg.
Proof.
  apply (revertPodToDeployment_panics nameless_pod
           {[ "labels" := VMap {[ "pod-template-hash" := VStr "abc123" ]} ]}
           {[ "pod-template-hash" := VStr "abc123" ]} "abc123");
    try (vm_compute; reflexivity).
  - discriminate.
  - intros name. vm_compute. discriminate.
Defined.

Lemma cleanupManifest_skips_half_identified_witness :
  half_identified nameless_pod_no_version ∧
  cleanupManifest (λ _, true)
    [Document nameless_pod_no_version; Document configmap_example] default_options
  = cleanupManifest (λ _, true) [Document configmap_example] default_options.
Proof.
  assert (half_identified nameless_pod_no_version) as Hhalf.
  { right. split; [discriminate|reflexivity]. }
  split; [exact Hhalf|].
  destruct (cleanupManifest_skips_half_identified (λ _, true) default_options
              nameless_pod_no_version Hhalf) as [Hskip _].
  unfold cleanupManifest. rewrite Hskip. vm_compute. reflexivity.
Defined.

(** * Further properties of the cleaning engine *)

(** ** The dispatch registry and the revert guard *)

Lemma GetCleaner_registry (kind : string) :
  let g := GenericObjectCleaner GenericMetadataCleaner in
  GetCleaner NewObjectCleanerFactory kind =
  Some (if String.eqb kind "Deployment" then DeploymentCleaner g
        else if String.eqb kind "Service" then ServiceCleaner g
        else if String.eqb kind "StatefulSet" then StatefulSetCleaner g
        else if String.eqb kind "DaemonSet" then DaemonSetCleaner g
        else if String.eqb kind "Pod" then PodCleaner g
        else if String.eqb kind "ConfigMap" then ConfigMapCleaner g
        else if String.eqb kind "Secret" then SecretCleaner g
        else g).
Proof.
  intros g. unfold GetCleaner, NewObjectCleanerFactory. cbn [cleaners].
  destruct (String.eqb_spec kind "") as [->|_]; [by vm_compute|].
  destruct (decide (kind = "Generic")) as [->|Hg]; [by vm_compute|].
  repeat match goal with
         | |- context [String.eqb kind ?b] =>
             destruct (String.eqb_spec kind b) as [->|?]; [by vm_compute|]
         end.
  rewrite !lookup_insert_ne by done. rewrite lookup_singleton_ne by done.
  by rewrite lookup_insert_eq.
Qed.

Lemma revert_guard_fails (obj : KubernetesObject) :
  revert_hash obj = None → revertPodToDeployment obj = Done (obj, false).
Proof.
  unfold revert_hash, revertPodToDeployment.
  destruct (String.eqb (Kind obj) "Pod"); [simpl|done].
  destruct (Metadata obj) as [metadata|]; [|done].
  destruct (metadata !! "labels") as [[]|]; try done.
  destruct (m !! "pod-template-hash") as [[]|]; try done.
  by destruct (String.eqb s "").
Qed.

Lemma revert_guard_panics (obj : KubernetesObject) (hashStr : string) :
  revert_hash obj = Some hashStr →
  metadata_name obj = None →
  revertPodToDeployment obj
  = Panic "interface conversion: interface {} is not string".
Proof.
  unfold revert_hash, metadata_name, string_name, revertPodToDeployment.
  destruct (String.eqb (Kind obj) "Pod"); [simpl|done].
  destruct (Metadata obj) as [metadata|]; [|done].
  destruct (metadata !! "labels") as [[]|]; try done.
  destruct (m !! "pod-template-hash") as [[]|]; try done.
  destruct (String.eqb s ""); [done|]. intros _.
  destruct (metadata !! "name") as [[]|]; done.
Qed.

Lemma revert_guard_passes (obj : KubernetesObject) (hashStr podName : string) :
  revert_hash obj = Some hashStr →
  metadata_name obj = Some podName →
  ∃ metadata podLabels,
    Metadata obj = Some metadata ∧
    metadata !! "labels" = Some (VMap podLabels) ∧
    let deploymentName :=
      default (podName +:+ "-reverted") (deriveBaseName podName hashStr) in
    let labels := derived_labels podLabels deploymentName in
    let newMetadata : gmap string value :=
      {[ "name" := VStr deploymentName; "labels" := VMap labels ]} in
    revertPodToDeployment obj =
    Done ({| APIVersion := "apps/v1";
             Kind := "Deployment";
             Metadata :=
               Some match default VNil (metadata !! "namespace") with
                    | VNil => newMetadata
                    | namespace => <["namespace" := namespace]> newMetadata
                    end;
             Spec :=
               Some {[ "replicas" := VInt 1;
                       "selector" := VMap {[ "matchLabels" := VMap labels ]};
                       "template" :=
                         VMap {[ "metadata" := VMap {[ "labels" := VMap labels ]};
                                 "spec" := VMap (default ∅ (Spec obj)) ]} ]};
             Status := None;
             Data := None;
             StringData := None;
             Type_ := "" |}, true).
Proof.
  unfold revert_hash, metadata_name, string_name, revertPodToDeployment.
  destruct (String.eqb (Kind obj) "Pod"); [simpl|done].
  destruct (Metadata obj) as [metadata|]; [|done].
  destruct (metadata !! "labels") as [[| | | | | |podLabels|]|] eqn:Hlabels;
    try done.
  destruct (podLabels !! "pod-template-hash") as [[]|]; try done.
  destruct (String.eqb s ""); [done|]. intros [= ->].
  destruct (metadata !! "name") as [[]|]; try done. intros [= ->].
  exists metadata, podLabels. split; [done|]. split; [done|].
  cbv beta iota zeta delta [default from_option id].
  rewrite filter_key_ne_delete.
  set (deploymentName := match deriveBaseName podName hashStr with
                         | Some b => b | None => _ end).
  assert ((if len_zero (delete "pod-template-hash" podLabels)
           then <["app" := VStr deploymentName]> (delete "pod-template-hash" podLabels)
           else delete "pod-template-hash" podLabels)
          = derived_labels podLabels deploymentName) as ->.
  { unfold derived_labels.
    destruct (len_zero _) eqn:Hz.
    - apply len_zero_true in Hz. rewrite Hz. rewrite decide_True by done.
      apply insert_empty.
    - apply len_zero_false in Hz. by rewrite decide_False. }
  f_equal. f_equal. f_equal.
  destruct (metadata !! "namespace") as [[]|];
    by rewrite delete_id by (by vm_compute || (rewrite ?lookup_insert_ne by done; done)).
Qed.

Lemma revert_guard_passes_identity (obj : KubernetesObject)
    (hashStr podName : string) :
  revert_hash obj = Some hashStr →
  metadata_name obj = Some podName →
  ∃ deployment,
    revertPodToDeployment obj = Done (deployment, true) ∧
    APIVersion deployment = "apps/v1" ∧ Kind deployment = "Deployment".
Proof.
  intros Hh Hn.
  destruct (revert_guard_passes obj hashStr podName Hh Hn)
    as (metadata & podLabels & _ & _ & Hrev).
  cbv zeta in Hrev. rewrite Hrev. by eexists.
Qed.

Lemma revert_hash_Pod (obj : KubernetesObject) :
  is_Some (revert_hash obj) → Kind obj = "Pod".
Proof.
  intros [hashStr Hh]. unfold revert_hash in Hh.
  by destruct (String.eqb_spec (Kind obj) "Pod").
Qed.

(** ** What the preservation gate can touch *)

Lemma same_payload_refl (obj : KubernetesObject) : same_payload obj obj.
Proof. by repeat split. Qed.

Lemma same_payload_trans (o1 o2 o3 : KubernetesObject) :
  same_payload o1 o2 → same_payload o2 o3 → same_payload o1 o3.
Proof.
  unfold same_payload. intros (?&?&?&?&?) (?&?&?&?&?).
  repeat split; congruence.
Qed.

Lemma state_table_path_cases (kind : string) (stateFields : gmap string bool)
    (fieldPath : string) (isDesired : bool) :
  resourceStateFields !! kind = Some stateFields →
  stateFields !! fieldPath = Some isDesired →
  table_path fieldPath.
Proof.
  unfold resourceStateFields, table_path. intros Hkind H.
  assert (∀ p : string, (∃ key, Split p "." = ["spec"; key]) →
          p = "status" ∨ p = "metadata.generation" ∨
          ∃ key, Split p "." = ["spec"; key]) as Hspec by auto.
  apply lookup_insert_Some in Hkind as [[_ <-]|[_ Hkind]];
    [|apply lookup_insert_Some in Hkind as [[_ <-]|[_ Hkind]];
      [|apply lookup_singleton_Some in Hkind as [_ <-]]];
    unfold deployment_stateFields, service_stateFields, pod_stateFields in H;
    repeat (apply lookup_insert_Some in H as [[<- _]|[_ H]];
            [first [by auto | apply Hspec; eexists; vm_compute; reflexivity]|]);
    apply lookup_singleton_Some in H as [<- _]; by auto.
Qed.

Lemma removeField_table_path (obj : KubernetesObject) (fieldPath : string) :
  table_path fieldPath →
  same_payload obj (removeField obj fieldPath).
Proof.
  intros [-> | [-> | [key Hs]]].
  - by repeat split.
  - change (removeField obj "metadata.generation") with
      (match Metadata obj with
       | None => obj
       | Some currentMap => set_Metadata obj (Some (delete "generation" currentMap))
       end).
    destruct (Metadata obj); by repeat split.
  - rewrite (removeField_two _ _ _ _ Hs). unfold top_field, set_top. simpl.
    destruct (Spec obj); by repeat split.
Qed.

Lemma foldl_removeField_table_paths (paths : list string) (obj : KubernetesObject) :
  Forall table_path paths →
  same_payload obj (foldl removeField obj paths).
Proof.
  revert obj. induction paths as [|p paths IH]; intros obj Hall.
  - apply same_payload_refl.
  - apply Forall_cons in Hall as [Hp Hall]. simpl.
    eapply same_payload_trans; [by apply removeField_table_path|by apply IH].
Qed.

Lemma state_queue_table_paths (kind mode : string) (stateFields : gmap string bool) :
  resourceStateFields !! kind = Some stateFields →
  Forall table_path (fieldsToRemoveForState mode stateFields).
Proof.
  intros Hkind. apply Forall_forall.
  intros p (d & Hd & _)%elem_of_fieldsToRemoveForState.
  by eapply state_table_path_cases.
Qed.

(** The generic cleaner changes nothing but [metadata], [spec] and
    [status]. *)
Lemma GenericObjectCleaner_Clean_payload (mc : MetadataCleaner)
    (obj : KubernetesObject) (options : CleanupOptions) :
  same_payload obj (GenericObjectCleaner_Clean mc obj options).
Proof.
  unfold GenericObjectCleaner_Clean.
  set (obj1 := if PreserveResourceState options then _ else obj).
  assert (same_payload obj obj1) as H1.
  { subst obj1. destruct (PreserveResourceState options);
      [|apply same_payload_refl].
    destruct (resourceStateFields !! Kind obj) eqn:Hk; [|apply same_payload_refl].
    apply foldl_removeField_table_paths. by eapply state_queue_table_paths. }
  set (obj2 := match Metadata obj1 with Some _ => _ | None => obj1 end).
  assert (same_payload obj1 obj2) as H2.
  { subst obj2. destruct (Metadata obj1); [|apply same_payload_refl].
    destruct mc. simpl.
    destruct (GenericMetadataCleaner_Clean_fields obj1 options)
      as (?&?&?&?&?&?&?). by repeat split. }
  eapply same_payload_trans; [exact H1|].
  eapply same_payload_trans; [exact H2|].
  destruct (RemoveEmpty options); destruct (_ && _); by repeat split.
Qed.

Lemma final_cleanup_identity (obj : KubernetesObject) (options : CleanupOptions) :
  same_identity obj (final_cleanup obj options) ∧
  Type_ (final_cleanup obj options) = Type_ obj.
Proof. unfold final_cleanup. by destruct (RemoveEmpty options). Qed.

(** What every cleaner of the registry does when no revert takes place:
    the generic pass, a kind-specific step that keeps [apiVersion], [kind]
    and [type], and the final pruning. *)
Lemma Clean_identity (c : ObjectCleaner) (obj cleaned : KubernetesObject)
    (options : CleanupOptions) :
  RevertToDeployment options = false ∨ revert_hash obj = None →
  Clean c obj options = Done cleaned →
  same_identity obj cleaned ∧ Type_ cleaned = Type_ obj.
Proof.
  intros Hrev. revert cleaned.
  assert (∀ o f, same_identity obj o ∧ Type_ o = Type_ obj →
                 same_identity obj (final_cleanup (with_Spec o f) options) ∧
                 Type_ (final_cleanup (with_Spec o f) options) = Type_ obj)
    as Hstep.
  { intros o f [[Ha Hk] Ht].
    destruct (final_cleanup_identity (with_Spec o f) options) as [[Ha' Hk'] Ht'].
    destruct (with_Spec_fields o f) as (Ha''&Hk''&_&_&_&_&Ht'').
    unfold same_identity. rewrite Ha', Hk', Ht'. repeat split; congruence. }
  induction c as [mc|g IH|g IH|g IH|g IH|g IH|g IH|g IH]; intros cleaned; simpl.
  - intros [= <-].
    destruct (GenericObjectCleaner_Clean_payload mc obj options)
      as (?&?&_&_&?). by repeat split.
  - destruct (Clean g obj options) as [o|]; simpl; [|done].
    intros [= <-]. apply Hstep. by apply IH.
  - destruct (Clean g obj options) as [o|]; simpl; [|done].
    intros [= <-]. apply Hstep. by apply IH.
  - destruct (Clean g obj options) as [o|]; simpl; [|done].
    intros [= <-]. apply Hstep. by apply IH.
  - destruct (Clean g obj options) as [o|]; simpl; [|done].
    intros [= <-]. apply Hstep. by apply IH.
  - assert ((if RevertToDeployment options then revertPodToDeployment obj
             else Done (obj, false)) = Done (obj, false)) as ->.
    { destruct Hrev as [-> | Hh]; [done|].
      rewrite revert_guard_fails by done. by destruct (RevertToDeployment options). }
    simpl. destruct (Clean g obj options) as [o|]; simpl; [|done].
    intros [= <-]. apply Hstep. by apply IH.
  - destruct (Clean g obj options) as [o|]; simpl; [|done].
    intros [= <-]. specialize (IH o eq_refl) as [[Ha Hk] Ht].
    match goal with |- context [final_cleanup ?o' options] =>
      destruct (final_cleanup_identity o' options) as [[Ha' Hk'] Ht'] end.
    unfold same_identity. rewrite Ha', Hk', Ht'.
    destruct (Data o); by repeat split.
  - destruct (Clean g obj options) as [o|]; simpl; [|done].
    intros [= <-]. specialize (IH o eq_refl) as [[Ha Hk] Ht].
    match goal with |- context [final_cleanup ?o' options] =>
      destruct (final_cleanup_identity o' options) as [[Ha' Hk'] Ht'] end.
    unfold same_identity. rewrite Ha', Hk', Ht'.
    destruct (Data o) as [d|]; [destruct (len_zero d)|];
      (destruct (StringData _) as [sd|]; [destruct (len_zero sd)|]);
      by repeat split.
Qed.

Lemma state_gate_order_irrelevant_witness :
  foldl removeField deployment_example
        ["spec.replicas"; "spec.template"; "spec.strategy"]
  = foldl removeField deployment_example
      (fieldsToRemoveForState "Runtime" deployment_stateFields).
Proof.
  apply (state_gate_order_irrelevant "Deployment" "Runtime").
  - apply Deployment_stateFields.
  - replace (fieldsToRemoveForState "Runtime" deployment_stateFields)
      with ("spec.strategy" :: ["spec.replicas"; "spec.template"])
      by (vm_compute; reflexivity).
    symmetry. apply (Permutation_cons_append ["spec.replicas"; "spec.template"]).
Defined.

(** ** Panics, identity and the reconstructed Deployment *)

(** X1. Cleaning one document panics in exactly one situation: the revert
    option is on, the document passes the reconstructor's guard (a Pod whose
    string-keyed labels hold a non-empty string [pod-template-hash]) and
    [metadata.name] is not a string.  Every other document of every kind is
    cleaned and returned. *)
Theorem cleanup_panics_iff (obj : KubernetesObject) (options : CleanupOptions) :
  (∃ msg, cleanupKubernetesObject obj options NewObjectCleanerFactory = Panic msg)
  ↔ RevertToDeployment options = true ∧
    is_Some (revert_hash obj) ∧
    metadata_name obj = None.
Proof.
  unfold cleanupKubernetesObject. rewrite GetCleaner_registry. split.
  - intros [msg H].
    destruct (String.eqb (Kind obj) ""); [done|].
    destruct (String.eqb (Kind obj) "Deployment"); [done|].
    destruct (String.eqb (Kind obj) "Service"); [done|].
    destruct (String.eqb (Kind obj) "StatefulSet"); [done|].
    destruct (String.eqb (Kind obj) "DaemonSet"); [done|].
    destruct (String.eqb (Kind obj) "Pod");
      [|destruct (String.eqb (Kind obj) "ConfigMap"); [done|];
        by destruct (String.eqb (Kind obj) "Secret")].
    simpl in H. destruct (RevertToDeployment options); [|done].
    split; [done|].
    destruct (revert_hash obj) as [hashStr|] eqn:Hh;
      [|by rewrite revert_guard_fails in H].
    split; [by eexists|].
    destruct (metadata_name obj) as [podName|] eqn:Hn; [|done].
    destruct (revert_guard_passes obj hashStr podName Hh Hn)
      as (metadata & podLabels & _ & _ & Hrev).
    cbv zeta in Hrev. by rewrite Hrev in H.
  - intros (Hopt & [hashStr Hh] & Hn).
    assert (Kind obj = "Pod") as Hkind.
    { unfold revert_hash in Hh.
      by destruct (String.eqb_spec (Kind obj) "Pod"). }
    rewrite Hkind. simpl. rewrite Hopt.
    rewrite (revert_guard_panics obj hashStr) by done. by eexists.
Qed.

(** X2. Cleaning never changes what a document is: unless a Pod is reverted,
    the output has the [apiVersion], [kind] and [type] of the input; a
    reverted Pod comes out as an [apps/v1] Deployment. *)
Theorem cleanup_keeps_identity (obj cleaned : KubernetesObject)
    (options : CleanupOptions) :
  cleanupKubernetesObject obj options NewObjectCleanerFactory = Done cleaned →
  (RevertToDeployment options = false ∨ revert_hash obj = None →
     APIVersion cleaned = APIVersion obj ∧ Kind cleaned = Kind obj ∧
     Type_ cleaned = Type_ obj) ∧
  (RevertToDeployment options = true → is_Some (revert_hash obj) →
     APIVersion cleaned = "apps/v1" ∧ Kind cleaned = "Deployment").
Proof.
  unfold cleanupKubernetesObject. rewrite GetCleaner_registry. intros H. split.
  - intros Hrev. destruct (String.eqb (Kind obj) ""); [by inversion H|].
    by destruct (Clean_identity _ _ _ _ Hrev H) as [[? ?] ?].
  - intros Hopt [hashStr Hh].
    assert (Kind obj = "Pod") as Hkind.
    { unfold revert_hash in Hh.
      by destruct (String.eqb_spec (Kind obj) "Pod"). }
    rewrite Hkind in H. simpl in H. rewrite Hopt in H.
    destruct (metadata_name obj) as [podName|] eqn:Hn;
      [|by rewrite (revert_guard_panics obj hashStr) in H].
    destruct (revert_guard_passes_identity obj hashStr podName Hh Hn)
      as (deployment & Hrev & Ha & Hk).
    rewrite Hrev in H. simpl in H. injection H as <-.
    match goal with |- context [final_cleanup ?o options] =>
      destruct (final_cleanup_identity o options) as [[-> ->] _] end.
    match goal with |- context [with_Spec ?o ?f] =>
      destruct (with_Spec_fields o f) as (-> & -> & _) end.
    destruct (GenericObjectCleaner_Clean_payload GenericMetadataCleaner
                deployment options) as (-> & -> & _).
    done.
Qed.

Lemma cleanup_keeps_identity_witness :
  ∃ cleaned,
    cleanupKubernetesObject bare_pod default_options NewObjectCleanerFactory
    = Done cleaned ∧
    APIVersion cleaned = "v1" ∧ Kind cleaned = "Pod" ∧ Type_ cleaned = "".
Proof.
  assert (∃ cleaned,
            cleanupKubernetesObject bare_pod default_options
                                    NewObjectCleanerFactory = Done cleaned)
    as [cleaned H] by (eexists; vm_compute; reflexivity).
  exists cleaned. split; [exact H|].
  destruct (cleanup_keeps_identity bare_pod cleaned default_options H) as [Hsame _].
  apply Hsame. right. vm_compute. reflexivity.
Defined.

(** X3. What a successful revert builds.  When [revertPodToDeployment]
    reports success the guard held and [metadata.name] was a string, and the
    result is an [apps/v1] Deployment with one replica, no status, data or
    type, whose selector and template carry the same non-empty label set,
    free of [pod-template-hash], as its own metadata; the template spec is
    the Pod's spec; the metadata holds nothing but the derived name, those
    labels and the Pod's namespace when it had one. *)
Theorem revert_builds_deployment (obj deployment : KubernetesObject) :
  revertPodToDeployment obj = Done (deployment, true) →
  ∃ hashStr podName metadata podLabels labels,
    revert_hash obj = Some hashStr ∧
    metadata_name obj = Some podName ∧
    Metadata obj = Some metadata ∧
    metadata !! "labels" = Some (VMap podLabels) ∧
    labels = derived_labels podLabels
               (default (podName +:+ "-reverted") (deriveBaseName podName hashStr)) ∧
    labels ≠ ∅ ∧
    labels !! "pod-template-hash" = None ∧
    APIVersion deployment = "apps/v1" ∧
    Kind deployment = "Deployment" ∧
    Status deployment = None ∧
    Data deployment = None ∧
    StringData deployment = None ∧
    Type_ deployment = "" ∧
    field_at deployment "metadata" ["name"]
    = Some (VStr (default (podName +:+ "-reverted")
                          (deriveBaseName podName hashStr))) ∧
    field_at deployment "metadata" ["labels"] = Some (VMap labels) ∧
    field_at deployment "metadata" ["namespace"]
    = match metadata !! "namespace" with
      | Some VNil => None
      | namespace => namespace
      end ∧
    (∀ k, k ≠ "name" → k ≠ "labels" → k ≠ "namespace" →
          field_at deployment "metadata" [k] = None) ∧
    field_at deployment "spec" ["replicas"] = Some (VInt 1) ∧
    field_at deployment "spec" ["selector"; "matchLabels"] = Some (VMap labels) ∧
    field_at deployment "spec" ["template"; "metadata"; "labels"]
    = Some (VMap labels) ∧
    field_at deployment "spec" ["template"; "spec"]
    = Some (VMap (default ∅ (Spec obj))).
Proof.
  intros H.
  destruct (revert_hash obj) as [hashStr|] eqn:Hh;
    [|by rewrite revert_guard_fails in H].
  destruct (metadata_name obj) as [podName|] eqn:Hn;
    [|by rewrite (revert_guard_panics obj hashStr) in H].
  destruct (revert_guard_passes obj hashStr podName Hh Hn)
    as (metadata & podLabels & Hm & Hl & Hrev).
  cbv zeta in Hrev. rewrite Hrev in H. injection H as <-.
  set (deploymentName := default _ (deriveBaseName podName hashStr)).
  exists hashStr, podName, metadata, podLabels,
    (derived_labels podLabels deploymentName).
  split_and!; try done.
  - unfold derived_labels. case_decide as He; [|done].
    intros H. by apply (f_equal (lookup "app")) in H.
  - apply derived_labels_no_hash.
  - unfold field_at. simpl.
    by destruct (metadata !! "namespace") as [[]|]; simplify_map_eq.
  - unfold field_at. simpl.
    by destruct (metadata !! "namespace") as [[]|]; simplify_map_eq.
  - unfold field_at. simpl.
    by destruct (metadata !! "namespace") as [[]|]; simplify_map_eq.
  - intros k Hk1 Hk2 Hk3. unfold field_at. simpl.
    by destruct (metadata !! "namespace") as [[]|]; simplify_map_eq.
Qed.

Lemma revert_builds_deployment_witness :
  ∃ deployment,
    revertPodToDeployment scenario_pod = Done (deployment, true) ∧
    Kind deployment = "Deployment" ∧
    field_at deployment "spec" ["replicas"] = Some (VInt 1).
Proof.
  assert (∃ deployment, revertPodToDeployment scenario_pod = Done (deployment, true))
    as [deployment Hrev] by (eexists; vm_compute; reflexivity).
  exists deployment. split; [exact Hrev|].
  destruct (revert_builds_deployment scenario_pod deployment Hrev)
    as (h & n & md & pl & l & H).
  split; apply H.
Defined.

Lemma revert_builds_deployment_fields (obj deployment : KubernetesObject) :
  revertPodToDeployment obj = Done (deployment, true) →
  APIVersion deployment = "apps/v1" ∧ Kind deployment = "Deployment" ∧
  Status deployment = None ∧ Data deployment = None ∧
  StringData deployment = None ∧ Type_ deployment = "".
Proof.
  intros H.
  destruct (revert_hash obj) as [hashStr|] eqn:Hh;
    [|by rewrite revert_guard_fails in H].
  destruct (metadata_name obj) as [podName|] eqn:Hn;
    [|by rewrite (revert_guard_panics obj hashStr) in H].
  destruct (revert_guard_passes obj hashStr podName Hh Hn)
    as (metadata & podLabels & Hm & Hl & Hrev).
  cbv zeta in Hrev. rewrite Hrev in H. by injection H as <-.
Qed.

(** ** The shape of pruned values *)

Lemma pruned_map_clean {K} `{Countable K} (m : gmap K value)
    (cleaned : gmap string value) (key : string → K) :
  map_Forall (λ _ v, removeEmptyFields v = VNil ∨
                     prunable (removeEmptyFields v) = false ∧
                     holds_prunable (removeEmptyFields v) = false) m →
  (∀ s, cleaned !! s = m !! key s ≫= λ v, keep_entry v (removeEmptyFields v)) →
  map_Forall (λ _ x, prunable x || holds_prunable x = false) cleaned.
Proof.
  intros IH Hcleaned s c Hc. rewrite Hcleaned in Hc.
  destruct (m !! key s) as [v|] eqn:Hv; [simpl in Hc|done].
  rewrite keep_entry_pruned in Hc. apply keep_item_Some in Hc as [<- Hnil].
  destruct (IH _ _ Hv) as [?|[-> ->]]; done.
Qed.

Lemma removeEmptyFields_clean (v : value) :
  removeEmptyFields v = VNil ∨
  prunable (removeEmptyFields v) = false ∧
  holds_prunable (removeEmptyFields v) = false.
Proof.
  induction v as [| | | | |l IH|m IH|m IH] using value_nested_ind;
    try (by right); try (by left).
  - rewrite removeEmptyFields_VList.
    destruct (omap _ l) as [|c cs] eqn:Hl; [by left|right].
    split; [done|].
    change (holds_prunable (VList (c :: cs)))
      with (existsb (λ x, prunable x || holds_prunable x) (c :: cs)).
    rewrite <- Hl. clear Hl. induction IH as [|x l Hx _ IHl]; [done|]. csimpl.
    destruct (keep_item (removeEmptyFields x)) as [y|] eqn:Hy; [|done].
    apply keep_item_Some in Hy as [<- Hnil]. simpl.
    destruct Hx as [?|[-> ->]]; done.
  - rewrite removeEmptyFields_VMap. simpl.
    destruct (len_zero _) eqn:Hz; [by left|right]. split; [done|].
    simpl. apply map_fold_orb_false with (f := λ x, prunable x || holds_prunable x).
    apply (pruned_map_clean m _ id); [done|].
    intros s. by rewrite lookup_omap.
  - rewrite removeEmptyFields_VIMap. simpl.
    destruct (len_zero _) eqn:Hz; [by left|right]. split; [done|].
    simpl. apply map_fold_orb_false with (f := λ x, prunable x || holds_prunable x).
    apply (pruned_map_clean m _ KStr); [done|].
    intros s. by rewrite lookup_string_keys, lookup_omap.
Qed.

Lemma prune_top_level_pruned (field : option (gmap string value)) :
  field_pruned (prune_top_level field).
Proof.
  destruct field as [m|]; [|done]. unfold prune_top_level.
  destruct (removeEmptyFields_clean (VMap m)) as [->|[Hp Hh]]; [done|].
  destruct (removeEmptyFields (VMap m)) as [| | | | | |cleaned|] eqn:Hr;
    try done; try (by rewrite removeEmptyFields_VMap in Hr; simpl in Hr;
                      destruct (len_zero _)).
  split; [|done]. by apply len_zero_false.
Qed.

(** X4. The shape of the pruner's result: it is nil, or a value in which,
    at every depth, no map or sequence is empty, no entry or element is nil
    and every map is string-keyed. *)
Theorem removeEmptyFields_result_shape (data : value) :
  removeEmptyFields data = VNil ∨
  prunable (removeEmptyFields data) = false ∧
  holds_prunable (removeEmptyFields data) = false.
Proof. apply removeEmptyFields_clean. Qed.

Lemma pruned_scalar_entry (v : value) (k : string)
    (m : gmap string value) :
  is_scalar v = true → m !! k = Some v →
  ∃ cleaned, removeEmptyFields (VMap m) = VMap cleaned ∧ cleaned !! k = Some v.
Proof.
  intros Hv Hk.
  assert (keep_entry v (removeEmptyFields v) = Some v) as Hkeep
    by (by destruct v).
  rewrite removeEmptyFields_VMap. simpl. set (cleaned := omap _ m).
  assert (cleaned !! k = Some v) as Hl.
  { subst cleaned. by rewrite lookup_omap, Hk. }
  destruct (len_zero cleaned) eqn:Hz; [|by eauto].
  apply len_zero_true in Hz. by rewrite Hz in Hl.
Qed.

(** X5. Pruning never loses a scalar: a string (the empty one included), a
    number or a boolean stored under a string key of a map, string-keyed or
    interface-keyed, is found under the same key of the result, which is a
    map. *)
Theorem removeEmptyFields_keeps_scalars (v : value) (k : string) :
  is_scalar v = true →
  (∀ m, m !! k = Some v →
        ∃ cleaned, removeEmptyFields (VMap m) = VMap cleaned ∧
                   cleaned !! k = Some v) ∧
  (∀ m, m !! KStr k = Some v →
        ∃ cleaned, removeEmptyFields (VIMap m) = VMap cleaned ∧
                   cleaned !! k = Some v).
Proof.
  intros Hv. split; intros m Hk.
  - by apply pruned_scalar_entry.
  - assert (keep_entry v (removeEmptyFields v) = Some v) as Hkeep
      by (by destruct v).
    rewrite removeEmptyFields_VIMap. simpl. set (cleaned := string_keys _).
    assert (cleaned !! k = Some v) as Hl.
    { subst cleaned. by rewrite lookup_string_keys, lookup_omap, Hk. }
    destruct (len_zero cleaned) eqn:Hz; [|by eauto].
    apply len_zero_true in Hz. by rewrite Hz in Hl.
Qed.

Lemma removeEmptyFields_keeps_scalars_witness :
  removeEmptyFields nested_empties
  = VMap {[ "c" := VStr ""; "d" := VList [VInt 0] ]} ∧
  ∃ cleaned, removeEmptyFields (VMap {[ "replicas" := VInt 0; "paused" := VBool false ]})
             = VMap cleaned ∧
             cleaned !! "replicas" = Some (VInt 0).
Proof.
  split; [vm_compute; reflexivity|].
  destruct (removeEmptyFields_keeps_scalars (VInt 0) "replicas" eq_refl) as [H _].
  apply H. apply lookup_insert_eq.
Defined.

(** X6. With remove-empty on, each of the seven kinds that have a cleaner of
    their own comes out pruned: every one of the five top-level fields is
    nil or a non-empty string-keyed map holding no nil, no empty map or
    sequence and no interface-keyed map at any depth. *)
Theorem specific_kinds_come_out_pruned (obj cleaned : KubernetesObject)
    (options : CleanupOptions) :
  Kind obj ∈ specific_kinds →
  RemoveEmpty options = true →
  cleanupKubernetesObject obj options NewObjectCleanerFactory = Done cleaned →
  field_pruned (Metadata cleaned) ∧ field_pruned (Spec cleaned) ∧
  field_pruned (Status cleaned) ∧ field_pruned (Data cleaned) ∧
  field_pruned (StringData cleaned).
Proof.
  intros Hkind Hre. unfold cleanupKubernetesObject. rewrite GetCleaner_registry.
  assert (∀ o, cleaned = final_cleanup o options →
               field_pruned (Metadata cleaned) ∧ field_pruned (Spec cleaned) ∧
               field_pruned (Status cleaned) ∧ field_pruned (Data cleaned) ∧
               field_pruned (StringData cleaned)) as Hfinal.
  { intros o ->. unfold final_cleanup. rewrite Hre. simpl.
    split_and!; apply prune_top_level_pruned. }
  unfold specific_kinds in Hkind.
  repeat (apply elem_of_cons in Hkind as [->|Hkind];
          [simpl; try (intros [= <-]; by eapply Hfinal)|]);
    [|by apply elem_of_nil in Hkind].
  destruct (if RevertToDeployment options then _ else _)
    as [[obj0 reverted]|]; simpl; [|done].
  destruct reverted; intros [= <-]; by eapply Hfinal.
Qed.

Lemma specific_kinds_come_out_pruned_witness :
  ∃ cleaned,
    cleanupKubernetesObject deployment_example default_options
                            NewObjectCleanerFactory = Done cleaned ∧
    field_pruned (Metadata cleaned) ∧ field_pruned (Spec cleaned) ∧
    field_pruned (Status cleaned) ∧ field_pruned (Data cleaned) ∧
    field_pruned (StringData cleaned).
Proof.
  eexists. split.
  - vm_compute. reflexivity.
  - apply (specific_kinds_come_out_pruned deployment_example _ default_options).
    + unfold specific_kinds. apply list_elem_of_here.
    + reflexivity.
    + vm_compute. reflexivity.
Defined.

(** ** How a cleaned document is put together *)

Lemma final_cleanup_Metadata (obj : KubernetesObject) (options : CleanupOptions) :
  Metadata (final_cleanup obj options) = prune_if options (Metadata obj).
Proof. unfold final_cleanup, prune_if. by destruct (RemoveEmpty options). Qed.

Lemma final_cleanup_Status (obj : KubernetesObject) (options : CleanupOptions) :
  Status (final_cleanup obj options) = prune_if options (Status obj).
Proof. unfold final_cleanup, prune_if. by destruct (RemoveEmpty options). Qed.

Lemma final_cleanup_Spec (obj : KubernetesObject) (options : CleanupOptions) :
  Spec (final_cleanup obj options) = prune_if options (Spec obj).
Proof. unfold final_cleanup, prune_if. by destruct (RemoveEmpty options). Qed.

Lemma final_cleanup_Data (obj : KubernetesObject) (options : CleanupOptions) :
  Data (final_cleanup obj options) = prune_if options (Data obj) ∧
  StringData (final_cleanup obj options) = prune_if options (StringData obj).
Proof. unfold final_cleanup, prune_if. by destruct (RemoveEmpty options). Qed.

(** How the dispatcher's result is put together: the generic pass over the
    input (or over the Deployment a revert built), a kind-specific step that
    leaves [metadata] and [status] alone and, for the seven kinds with a
    cleaner of their own, the final pruning. *)
Lemma cleanup_shape (obj cleaned : KubernetesObject) (options : CleanupOptions) :
  Kind obj ≠ "" →
  cleanupKubernetesObject obj options NewObjectCleanerFactory = Done cleaned →
  ∃ source,
    (source = obj ∨
     RevertToDeployment options = true ∧
     revertPodToDeployment obj = Done (source, true)) ∧
    let generic := GenericObjectCleaner_Clean GenericMetadataCleaner source options in
    ((Kind obj ∈ specific_kinds ∧
      Metadata cleaned = prune_if options (Metadata generic) ∧
      Status cleaned = prune_if options (Status generic))
     ∨ ((Kind obj ∉ specific_kinds) ∧ source = obj ∧ cleaned = generic)).
Proof.
  intros Hne. unfold cleanupKubernetesObject. rewrite GetCleaner_registry.
  destruct (String.eqb_spec (Kind obj) "") as [?|_]; [done|].
  assert (∀ source o f,
            Kind obj ∈ specific_kinds →
            (source = obj ∨
             RevertToDeployment options = true ∧
             revertPodToDeployment obj = Done (source, true)) →
            o = GenericObjectCleaner_Clean GenericMetadataCleaner source options →
            Done (final_cleanup (with_Spec o f) options) = Done cleaned →
            ∃ source,
              (source = obj ∨
               RevertToDeployment options = true ∧
               revertPodToDeployment obj = Done (source, true)) ∧
              let generic :=
                GenericObjectCleaner_Clean GenericMetadataCleaner source options in
              ((Kind obj ∈ specific_kinds ∧
                Metadata cleaned = prune_if options (Metadata generic) ∧
                Status cleaned = prune_if options (Status generic))
               ∨ ((Kind obj ∉ specific_kinds) ∧ source = obj ∧ cleaned = generic)))
    as Hstep.
  { intros source o f Hk Hsrc -> [= <-]. exists source. split; [done|]. left.
    rewrite final_cleanup_Metadata, final_cleanup_Status.
    by destruct (with_Spec_fields
                   (GenericObjectCleaner_Clean GenericMetadataCleaner source options) f)
      as (_&_&->&->&_). }
  unfold specific_kinds.
  destruct (String.eqb_spec (Kind obj) "Deployment") as [Hk|H1].
  { simpl. apply (Hstep obj); [rewrite Hk; in_list|by left|done]. }
  destruct (String.eqb_spec (Kind obj) "Service") as [Hk|H2].
  { simpl. apply (Hstep obj); [rewrite Hk; in_list|by left|done]. }
  destruct (String.eqb_spec (Kind obj) "StatefulSet") as [Hk|H3].
  { simpl. apply (Hstep obj); [rewrite Hk; in_list|by left|done]. }
  destruct (String.eqb_spec (Kind obj) "DaemonSet") as [Hk|H4].
  { simpl. apply (Hstep obj); [rewrite Hk; in_list|by left|done]. }
  destruct (String.eqb_spec (Kind obj) "Pod") as [Hk|H5].
  { simpl.
    destruct (RevertToDeployment options) eqn:Hopt.
    - destruct (revertPodToDeployment obj) as [[source reverted]|] eqn:Hrev;
        simpl; [|done].
      destruct reverted.
      + apply (Hstep source); [rewrite Hk; in_list|by right|done].
      + assert (source = obj) as ->.
        { destruct (revert_hash obj) as [h|] eqn:Hh.
          - destruct (metadata_name obj) as [n|] eqn:Hn.
            + destruct (revert_guard_passes_identity obj h n Hh Hn)
                as (d & Hd & _). congruence.
            + rewrite (revert_guard_panics obj h) in Hrev by done. done.
          - rewrite revert_guard_fails in Hrev by done. congruence. }
        apply (Hstep obj); [rewrite Hk; in_list|by left|done].
    - simpl. apply (Hstep obj); [rewrite Hk; in_list|by left|done]. }
  destruct (String.eqb_spec (Kind obj) "ConfigMap") as [Hk|H6].
  { simpl. intros [= <-]. exists obj. split; [by left|]. left.
    split; [rewrite Hk; in_list|].
    rewrite final_cleanup_Metadata, final_cleanup_Status.
    by destruct (Data _). }
  destruct (String.eqb_spec (Kind obj) "Secret") as [Hk|H7].
  { simpl. intros [= <-]. exists obj. split; [by left|]. left.
    split; [rewrite Hk; in_list|].
    rewrite final_cleanup_Metadata, final_cleanup_Status.
    destruct (Data _) as [d|]; [destruct (len_zero d)|];
      (destruct (StringData _) as [sd|]; [destruct (len_zero sd)|]); done. }
  simpl. intros [= <-]. exists obj. split; [by left|]. right.
  split; [|done]. intros Hin.
  repeat (apply elem_of_cons in Hin as [?|Hin]; [done|]).
  by apply elem_of_nil in Hin.
Qed.

(** ** Status *)

Lemma stateful_kinds_table (kind : string) :
  kind ∈ stateful_kinds ↔ is_Some (resourceStateFields !! kind).
Proof.
  unfold stateful_kinds, resourceStateFields. split.
  - intros Hin.
    repeat (apply elem_of_cons in Hin as [->|Hin]; [by eexists|]).
    by apply elem_of_nil in Hin.
  - intros [t Ht].
    apply lookup_insert_Some in Ht as [[<- _]|[_ Ht]]; [in_list|].
    apply lookup_insert_Some in Ht as [[<- _]|[_ Ht]]; [in_list|].
    apply lookup_singleton_Some in Ht as [<- _]. in_list.
Qed.

Lemma specific_kinds_stateful (kind : string) :
  kind ∈ stateful_kinds → kind ∈ specific_kinds.
Proof.
  unfold stateful_kinds, specific_kinds. intros Hin.
  repeat (apply elem_of_cons in Hin as [->|Hin]; [in_list|]).
  by apply elem_of_nil in Hin.
Qed.

Lemma table_runtime_entries (kind : string) (stateFields : gmap string bool) :
  resourceStateFields !! kind = Some stateFields →
  stateFields !! "status" = Some false ∧
  (∀ d, stateFields !! "metadata.generation" = Some d → d = false).
Proof.
  unfold resourceStateFields. intros Ht.
  assert (∀ t : gmap string bool,
            t !! "status" = Some false →
            t !! "metadata.generation" ≠ Some true →
            t !! "status" = Some false ∧
            (∀ d, t !! "metadata.generation" = Some d → d = false)) as Hgo.
  { intros t Hs Hg. split; [done|]. intros [] ?; done. }
  apply lookup_insert_Some in Ht as [[_ <-]|[_ Ht]]; [by apply Hgo|].
  apply lookup_insert_Some in Ht as [[_ <-]|[_ Ht]]; [by apply Hgo|].
  apply lookup_singleton_Some in Ht as [_ <-]. by apply Hgo.
Qed.

Lemma flagged_runtime_status (kind : string) :
  flagged_runtime kind "status" = bool_decide (kind ∈ stateful_kinds).
Proof.
  unfold flagged_runtime.
  destruct (resourceStateFields !! kind) as [t|] eqn:Ht.
  - destruct (table_runtime_entries kind t Ht) as [-> _].
    rewrite bool_decide_true; [done|]. by apply stateful_kinds_table.
  - rewrite bool_decide_false; [done|].
    intros [t Ht']%stateful_kinds_table. congruence.
Qed.

Lemma foldl_removeField_keeps_nil (paths : list string) (obj : KubernetesObject)
    (proj : KubernetesObject → option (gmap string value)) :
  (proj = Metadata ∨ proj = Spec ∨ proj = Status ∨ proj = Data ∨ proj = StringData) →
  proj obj = None → proj (foldl removeField obj paths) = None.
Proof.
  intros Hproj. revert obj. induction paths as [|p paths IH]; intros obj Hn; [done|].
  simpl. apply IH. by apply removeField_keeps_nil.
Qed.

(** What the gate does to [metadata] and [status]. *)
Lemma removeField_table_Metadata_Status (obj : KubernetesObject) (fieldPath : string) :
  table_path fieldPath →
  (Metadata (removeField obj fieldPath)
   = if String.eqb fieldPath "metadata.generation"
     then delete "generation" <$> Metadata obj else Metadata obj) ∧
  (Status (removeField obj fieldPath)
   = if String.eqb fieldPath "status" then None else Status obj).
Proof.
  intros [-> | [-> | [key Hs]]].
  - done.
  - change (removeField obj "metadata.generation") with
      (match Metadata obj with
       | None => obj
       | Some currentMap => set_Metadata obj (Some (delete "generation" currentMap))
       end).
    by destruct (Metadata obj) eqn:Hm; rewrite ?Hm.
  - assert (fieldPath ≠ "metadata.generation") as H1 by (by intros ->).
    assert (fieldPath ≠ "status") as H2 by (by intros ->).
    apply String.eqb_neq in H1, H2. rewrite H1, H2.
    rewrite (removeField_two _ _ _ _ Hs). unfold top_field, set_top. simpl.
    by destruct (Spec obj).
Qed.

Lemma foldl_removeField_table_Metadata (paths : list string) (obj : KubernetesObject) :
  Forall table_path paths →
  Metadata (foldl removeField obj paths)
  = if bool_decide ("metadata.generation" ∈ paths)
    then delete "generation" <$> Metadata obj else Metadata obj.
Proof.
  revert obj. induction paths as [|p paths IH]; intros obj Hall; [done|].
  apply Forall_cons in Hall as [Hp Hall]. simpl. rewrite IH by done.
  destruct (removeField_table_Metadata_Status obj p Hp) as [-> _].
  destruct (String.eqb_spec p "metadata.generation") as [->|Hne].
  - rewrite (bool_decide_true (_ ∈ _ :: _)) by apply list_elem_of_here.
    case_bool_decide; [|done].
    destruct (Metadata obj); [simpl|done]. by rewrite delete_delete_eq.
  - case_bool_decide as Hin.
    + by rewrite bool_decide_true by by apply list_elem_of_further.
    + rewrite bool_decide_false; [done|].
      intros [?|?]%elem_of_cons; congruence.
Qed.

Lemma foldl_removeField_table_Status (paths : list string) (obj : KubernetesObject) :
  Forall table_path paths →
  Status (foldl removeField obj paths)
  = if bool_decide ("status" ∈ paths) then None else Status obj.
Proof.
  revert obj. induction paths as [|p paths IH]; intros obj Hall; [done|].
  apply Forall_cons in Hall as [Hp Hall]. simpl. rewrite IH by done.
  destruct (removeField_table_Metadata_Status obj p Hp) as [_ ->].
  destruct (String.eqb_spec p "status") as [->|Hne].
  - rewrite (bool_decide_true (_ ∈ _ :: _)) by apply list_elem_of_here.
    by case_bool_decide.
  - case_bool_decide as Hin.
    + by rewrite bool_decide_true by by apply list_elem_of_further.
    + rewrite bool_decide_false; [done|].
      intros [?|?]%elem_of_cons; congruence.
Qed.

(** The object the preservation gate hands to the metadata cleaner. *)
Lemma gate_result (obj : KubernetesObject) (options : CleanupOptions) :
  let gated :=
    if PreserveResourceState options then
      match resourceStateFields !! Kind obj with
      | Some stateFields =>
          foldl removeField obj
                (fieldsToRemoveForState (ResourceStateMode options) stateFields)
      | None => obj
      end
    else obj in
  same_payload obj gated ∧
  Metadata gated
  = (if preserves_desired options && flagged_runtime (Kind obj) "metadata.generation"
     then delete "generation" <$> Metadata obj else Metadata obj) ∧
  Status gated
  = (if preserves_desired options && bool_decide (Kind obj ∈ stateful_kinds)
     then None else Status obj).
Proof.
  unfold preserves_desired, flagged_runtime. simpl.
  destruct (PreserveResourceState options); simpl;
    [|split; [apply same_payload_refl|done]].
  destruct (resourceStateFields !! Kind obj) as [t|] eqn:Ht.
  - pose proof (state_queue_table_paths _ (ResourceStateMode options) _ Ht) as Hq.
    destruct (table_runtime_entries _ _ Ht) as [Hst Hgen].
    split; [by apply foldl_removeField_table_paths|].
    rewrite foldl_removeField_table_Metadata, foldl_removeField_table_Status by done.
    rewrite (bool_decide_true (Kind obj ∈ _)) by (by apply stateful_kinds_table).
    split.
    + destruct (t !! "metadata.generation") as [d|] eqn:Hd.
      * rewrite (Hgen d eq_refl) in *. simpl.
        destruct (String.eqb (ResourceStateMode options) "Desired") eqn:Hm.
        -- rewrite bool_decide_true; [done|].
           apply elem_of_fieldsToRemoveForState. exists false. split; [done|].
           unfold queued_for_removal. by rewrite Hm.
        -- rewrite bool_decide_false; [done|].
           intros (d' & Hd' & Hq')%elem_of_fieldsToRemoveForState.
           rewrite Hd in Hd'. injection Hd' as <-.
           unfold queued_for_removal in Hq'. rewrite Hm in Hq'. simpl in Hq'.
           by rewrite andb_false_r in Hq'.
      * rewrite andb_false_r. rewrite bool_decide_false; [done|].
        intros (d' & Hd' & _)%elem_of_fieldsToRemoveForState. congruence.
    + rewrite andb_true_r.
      destruct (String.eqb (ResourceStateMode options) "Desired") eqn:Hm.
      * rewrite bool_decide_true; [done|].
        apply elem_of_fieldsToRemoveForState. exists false. split; [done|].
        unfold queued_for_removal. by rewrite Hm.
      * rewrite bool_decide_false; [done|].
        intros (d' & Hd' & Hq')%elem_of_fieldsToRemoveForState.
        rewrite Hst in Hd'. injection Hd' as <-.
        unfold queued_for_removal in Hq'. rewrite Hm in Hq'. simpl in Hq'.
        by rewrite andb_false_r in Hq'.
  - split; [apply same_payload_refl|]. rewrite andb_false_r.
    rewrite bool_decide_false; [by rewrite andb_false_r|].
    intros [t Ht']%stateful_kinds_table. congruence.
Qed.

(** The status the generic cleaner returns. *)
Lemma GenericObjectCleaner_Clean_Status (mc : MetadataCleaner)
    (obj : KubernetesObject) (options : CleanupOptions) :
  Status (GenericObjectCleaner_Clean mc obj options)
  = if (preserves_desired options && bool_decide (Kind obj ∈ stateful_kinds))
       || (RemoveStatus options
           && negb (preserves_runtime options
                    && bool_decide (Kind obj ∈ stateful_kinds)))
    then None else Status obj.
Proof.
  destruct (gate_result obj options) as ((_ & Hk & _) & _ & Hs).
  unfold GenericObjectCleaner_Clean.
  set (obj1 := if PreserveResourceState options then _ else obj) in *.
  cbv zeta in Hk, Hs.
  set (obj2 := match Metadata obj1 with Some _ => _ | None => obj1 end).
  assert (Status obj2 = Status obj1 ∧ Kind obj2 = Kind obj) as [H2 Hk2].
  { subst obj2. destruct (Metadata obj1); [|done]. destruct mc. simpl.
    destruct (GenericMetadataCleaner_Clean_fields obj1 options)
      as (_&->&_&->&_). done. }
  rewrite Hk2, flagged_runtime_status.
  assert (∀ o : KubernetesObject, (if RemoveEmpty options
          then let _ := removeEmptyFields_reflected (PtrToObject o) in o
          else o) = o) as Hre by (intros o; by destruct (RemoveEmpty options)).
  rewrite Hre.
  destruct (RemoveStatus options && _); simpl.
  - by rewrite orb_true_r.
  - rewrite orb_false_r, H2, Hs. done.
Qed.

(** X8. When the status goes.  For a document with a kind, the output has
    no status whenever status removal is on and Runtime-mode preservation is
    not, and also, whatever the status option says, whenever Desired-mode
    preservation is on and the kind is Deployment, Service or Pod. *)
Theorem cleanup_removes_status (obj cleaned : KubernetesObject)
    (options : CleanupOptions) :
  Kind obj ≠ "" →
  cleanupKubernetesObject obj options NewObjectCleanerFactory = Done cleaned →
  (RemoveStatus options = true ∧ preserves_runtime options = false) ∨
  (preserves_desired options = true ∧ Kind obj ∈ stateful_kinds) →
  Status cleaned = None.
Proof.
  intros Hne H Hcase.
  destruct (cleanup_shape obj cleaned options Hne H) as (source & Hsrc & Hshape).
  cbv zeta in Hshape.
  assert (Status (GenericObjectCleaner_Clean GenericMetadataCleaner source options)
          = None) as Hnil.
  { rewrite GenericObjectCleaner_Clean_Status.
    destruct Hsrc as [->|[Hopt Hrev]].
    - destruct Hcase as [[-> ->]|[-> Hk]].
      + simpl. by rewrite orb_true_r.
      + by rewrite bool_decide_true.
    - destruct (revert_builds_deployment_fields obj source Hrev) as (_&Hk&Hs&_).
      rewrite Hs. by destruct (_ || _). }
  destruct Hshape as [(_ & _ & ->)|(_ & _ & ->)]; [|done].
  rewrite Hnil. unfold prune_if. by destruct (RemoveEmpty options).
Qed.

Lemma cleanup_removes_status_witness :
  ∃ cleaned,
    cleanupKubernetesObject deployment_example
      (set_RemoveStatus preserving_options false) NewObjectCleanerFactory
    = Done cleaned ∧
    Status deployment_example ≠ None ∧
    Status cleaned = None.
Proof.
  assert (∃ cleaned,
            cleanupKubernetesObject deployment_example
              (set_RemoveStatus preserving_options false) NewObjectCleanerFactory
            = Done cleaned) as [cleaned H] by (eexists; vm_compute; reflexivity).
  exists cleaned. split; [exact H|]. split; [discriminate|].
  apply (cleanup_removes_status deployment_example cleaned
           (set_RemoveStatus preserving_options false)).
  - discriminate.
  - exact H.
  - right. split; [reflexivity|]. unfold stateful_kinds. apply list_elem_of_here.
Defined.

(** X9. Runtime mode keeps the status.  With state preservation on in
    Runtime mode, a Deployment, Service or Pod that is not reverted keeps
    its status, pruned when remove-empty is on, even though status removal
    is on; a kind without a state table loses it as usual. *)
Theorem runtime_mode_keeps_status (obj cleaned : KubernetesObject)
    (options : CleanupOptions) :
  preserves_runtime options = true →
  RevertToDeployment options = false ∨ revert_hash obj = None →
  Kind obj ≠ "" →
  cleanupKubernetesObject obj options NewObjectCleanerFactory = Done cleaned →
  (Kind obj ∈ stateful_kinds → Status cleaned = prune_if options (Status obj)) ∧
  (Kind obj ∉ stateful_kinds → RemoveStatus options = true → Status cleaned = None).
Proof.
  intros Hpr Hnorev Hne H.
  assert (preserves_desired options = false) as Hpd.
  { unfold preserves_runtime, preserves_desired in *.
    destruct (PreserveResourceState options); [simpl in *|done].
    destruct (String.eqb_spec (ResourceStateMode options) "Runtime") as [->|];
      done. }
  destruct (cleanup_shape obj cleaned options Hne H) as (source & Hsrc & Hshape).
  cbv zeta in Hshape.
  assert (source = obj) as ->.
  { destruct Hsrc as [->|[Hopt Hrev]]; [done|].
    destruct Hnorev as [Hopt'|Hh]; [congruence|].
    rewrite revert_guard_fails in Hrev by done. congruence. }
  rewrite GenericObjectCleaner_Clean_Status, Hpr, Hpd in Hshape. simpl in Hshape.
  split.
  - intros Hk. rewrite bool_decide_true in Hshape by done.
    rewrite andb_false_r in Hshape.
    destruct Hshape as [(_ & _ & ->)|(Hnk & _)]; [done|].
    by apply specific_kinds_stateful in Hk.
  - intros Hk Hrs. rewrite bool_decide_false, Hrs in Hshape by done.
    simpl in Hshape.
    destruct Hshape as [(_ & _ & ->)|(_ & _ & ->)].
    + unfold prune_if. by destruct (RemoveEmpty options).
    + rewrite GenericObjectCleaner_Clean_Status, Hpr, Hpd, Hrs.
      by rewrite bool_decide_false.
Qed.

Lemma runtime_mode_keeps_status_witness :
  ∃ cleaned,
    cleanupKubernetesObject deployment_example
      (set_ResourceStateMode preserving_options "Runtime") NewObjectCleanerFactory
    = Done cleaned ∧
    Status cleaned = Some {[ "readyReplicas" := VInt 1 ]}.
Proof.
  assert (∃ cleaned,
            cleanupKubernetesObject deployment_example
              (set_ResourceStateMode preserving_options "Runtime")
              NewObjectCleanerFactory
            = Done cleaned) as [cleaned H] by (eexists; vm_compute; reflexivity).
  exists cleaned. split; [exact H|].
  destruct (runtime_mode_keeps_status deployment_example cleaned
              (set_ResourceStateMode preserving_options "Runtime"))
    as [Hkeep _].
  - reflexivity.
  - right. reflexivity.
  - discriminate.
  - exact H.
  - rewrite Hkeep by (unfold stateful_kinds; apply list_elem_of_here).
    vm_compute. reflexivity.
Defined.

(** X10. A kind without a cleaner of its own (anything but the seven
    registered kinds) only passes through the generic cleaner: [spec],
    [data], [stringData], [type], [apiVersion] and [kind] come out as they
    went in, whatever the options; the status goes exactly when status
    removal is on; the metadata is what the Metadata Rule Set returns. *)
Theorem unknown_kind_only_loses_metadata_and_status (obj : KubernetesObject)
    (options : CleanupOptions) :
  Kind obj ≠ "" →
  Kind obj ∉ specific_kinds →
  ∃ cleaned,
    cleanupKubernetesObject obj options NewObjectCleanerFactory = Done cleaned ∧
    APIVersion cleaned = APIVersion obj ∧
    Kind cleaned = Kind obj ∧
    Spec cleaned = Spec obj ∧
    Data cleaned = Data obj ∧
    StringData cleaned = StringData obj ∧
    Type_ cleaned = Type_ obj ∧
    Status cleaned = (if RemoveStatus options then None else Status obj) ∧
    Metadata cleaned = Metadata (GenericMetadataCleaner_Clean obj options).
Proof.
  intros Hne Hk.
  assert (Kind obj ∉ stateful_kinds) as Hst
    by (intros ?; by apply Hk, specific_kinds_stateful).
  assert (resourceStateFields !! Kind obj = None) as Ht.
  { destruct (resourceStateFields !! Kind obj) eqn:Ht; [|done].
    destruct Hst. apply stateful_kinds_table. by eexists. }
  assert (cleanupKubernetesObject obj options NewObjectCleanerFactory
          = Done (GenericObjectCleaner_Clean GenericMetadataCleaner obj options))
    as Hc.
  { unfold cleanupKubernetesObject. rewrite GetCleaner_registry.
    destruct (String.eqb_spec (Kind obj) "") as [?|_]; [done|].
    unfold specific_kinds in Hk.
    repeat match goal with
           | |- context [String.eqb (Kind obj) ?k] =>
               destruct (String.eqb_spec (Kind obj) k) as [Hk'|_];
                 [destruct Hk; rewrite Hk'; in_list|]
           end.
    done. }
  eexists. split; [exact Hc|].
  destruct (GenericObjectCleaner_Clean_payload GenericMetadataCleaner obj options)
    as (-> & -> & -> & -> & ->).
  rewrite GenericObjectCleaner_Clean_Status.
  rewrite bool_decide_false by done. rewrite !andb_false_r. simpl.
  split_and!; try done.
  - unfold GenericObjectCleaner_Clean. rewrite Ht.
    assert ((if PreserveResourceState options then obj else obj) = obj) as ->
      by by destruct (PreserveResourceState options).
    destruct (Metadata obj) eqn:Hm; simpl;
      by destruct (RemoveEmpty options), (RemoveStatus options && _);
         destruct (GenericMetadataCleaner_Clean_fields obj options) as (_&_&?&_).
  - by rewrite andb_true_r.
  - unfold GenericObjectCleaner_Clean. rewrite Ht.
    assert ((if PreserveResourceState options then obj else obj) = obj) as ->
      by by destruct (PreserveResourceState options).
    destruct (Metadata obj) eqn:Hm; simpl.
    + by destruct (RemoveEmpty options), (RemoveStatus options && _).
    + unfold GenericMetadataCleaner_Clean. rewrite Hm.
      by destruct (RemoveEmpty options), (RemoveStatus options && _).
Qed.

Lemma unknown_kind_only_loses_metadata_and_status_witness :
  ∃ cleaned,
    cleanupKubernetesObject cronjob_example default_options NewObjectCleanerFactory
    = Done cleaned ∧
    Spec cleaned = Spec cronjob_example ∧
    Status cleaned = None.
Proof.
  destruct (unknown_kind_only_loses_metadata_and_status
              cronjob_example default_options)
    as (cleaned & H & _ & _ & Hs & _ & _ & _ & Hst & _).
  - discriminate.
  - unfold specific_kinds. intros Hin.
    repeat (apply elem_of_cons in Hin as [Hin|Hin]; [discriminate Hin|]).
    by apply elem_of_nil in Hin.
  - exists cleaned. split; [exact H|]. split; [exact Hs|exact Hst].
Defined.

(** ** Metadata, key by key *)

Lemma metadata_fieldsToRemove_managed (kind : string) (options : CleanupOptions)
    (k : string) :
  k ∈ metadata_fieldsToRemove kind options → k ∈ managed_metadata_keys.
Proof.
  unfold metadata_fieldsToRemove, managed_metadata_keys. intros H.
  repeat (apply elem_of_app in H as [H|H]);
    repeat match type of H with
           | _ ∈ (if ?c then _ else _) => destruct c
           end;
    repeat (apply elem_of_cons in H as [->|H]; [in_list|]);
    by apply elem_of_nil in H.
Qed.

Lemma existsb_eqb_elem_of (k : string) (l : list string) :
  existsb (String.eqb k) l = bool_decide (k ∈ l).
Proof.
  induction l as [|x l IH]; [done|]. simpl. rewrite IH.
  destruct (String.eqb_spec k x) as [->|Hne]; simpl.
  - by rewrite bool_decide_true by apply list_elem_of_here.
  - case_bool_decide as Hin.
    + by rewrite bool_decide_true by by apply list_elem_of_further.
    + rewrite bool_decide_false; [done|].
      intros [?|?]%elem_of_cons; congruence.
Qed.

Lemma cleanLabels_lookup (labels : gmap string value) (removeLabels : list string)
    (k : string) :
  cleanLabels labels removeLabels !! k
  = if bool_decide (k ∈ removeLabels) then None else labels !! k.
Proof.
  unfold cleanLabels. rewrite map_lookup_filter.
  destruct (labels !! k) as [v|]; simpl; [|by case_bool_decide].
  rewrite existsb_eqb_elem_of. case_bool_decide.
  - by rewrite option_guard_False.
  - by rewrite option_guard_True.
Qed.

Lemma cleanAnnotations_lookup (annotations : gmap string value)
    (removeAnnotations : list string) (k : string) :
  cleanAnnotations annotations removeAnnotations !! k
  = if shouldDelete removeAnnotations k then None else annotations !! k.
Proof.
  unfold cleanAnnotations. rewrite map_lookup_filter.
  destruct (annotations !! k) as [v|]; simpl;
    [|by destruct (shouldDelete _ _)].
  destruct (shouldDelete removeAnnotations k) eqn:Hd.
  - by rewrite option_guard_False.
  - by rewrite option_guard_True.
Qed.

(** The metadata the Metadata Rule Set returns, key by key. *)
Lemma GenericMetadataCleaner_Clean_lookup (obj : KubernetesObject)
    (options : CleanupOptions) (metadata : gmap string value) :
  Metadata obj = Some metadata →
  ∃ cleaned,
    Metadata (GenericMetadataCleaner_Clean obj options) = Some cleaned ∧
    (∀ k, k ≠ "annotations" → k ≠ "labels" →
          cleaned !! k
          = if decide (k ∈ metadata_fieldsToRemove (Kind obj) options)
            then None else metadata !! k) ∧
    cleaned !! "annotations"
    = match metadata !! "annotations" with
      | Some (VMap annotations) =>
          let annotations :=
            cleanAnnotations annotations (RemoveAnnotations options) in
          if len_zero annotations then None else Some (VMap annotations)
      | other => other
      end ∧
    cleaned !! "labels"
    = match metadata !! "labels" with
      | Some (VMap labels) =>
          let labels := cleanLabels labels (RemoveLabels options) in
          if len_zero labels then None else Some (VMap labels)
      | other => other
      end.
Proof.
  intros Hm. unfold GenericMetadataCleaner_Clean. rewrite Hm.
  eexists. split; [reflexivity|].
  set (md1 := foldr delete metadata _).
  assert (md1 !! "annotations" = metadata !! "annotations") as H1a.
  { subst md1. rewrite foldr_delete_lookup. rewrite decide_False; [done|].
    intros Hin%metadata_fieldsToRemove_managed. revert Hin. not_in_list. }
  assert (md1 !! "labels" = metadata !! "labels") as H1l.
  { subst md1. rewrite foldr_delete_lookup. rewrite decide_False; [done|].
    intros Hin%metadata_fieldsToRemove_managed. revert Hin. not_in_list. }
  set (md2 := match md1 !! "annotations" with Some (VMap _) => _ | _ => md1 end).
  assert (∀ k, k ≠ "annotations" → md2 !! k = md1 !! k) as H2.
  { intros k Hk. subst md2. destruct (md1 !! "annotations") as [[]|]; try done.
    destruct (len_zero _);
      [by rewrite lookup_delete_ne|by rewrite lookup_insert_ne]. }
  assert (md2 !! "annotations"
          = match md1 !! "annotations" with
            | Some (VMap annotations) =>
                let annotations :=
                  cleanAnnotations annotations (RemoveAnnotations options) in
                if len_zero annotations then None else Some (VMap annotations)
            | other => other
            end) as H2a.
  { subst md2. destruct (md1 !! "annotations") as [[]|] eqn:E; try done.
    simpl. destruct (len_zero _);
      [by rewrite lookup_delete_eq|by rewrite lookup_insert_eq]. }
  rewrite H1a in H2a.
  set (md3 := match md2 !! "labels" with Some (VMap _) => _ | _ => md2 end).
  assert (∀ k, k ≠ "labels" → md3 !! k = md2 !! k) as H3.
  { intros k Hk. subst md3. destruct (md2 !! "labels") as [[]|]; try done.
    destruct (len_zero _);
      [by rewrite lookup_delete_ne|by rewrite lookup_insert_ne]. }
  assert (md3 !! "labels"
          = match md2 !! "labels" with
            | Some (VMap labels) =>
                let labels := cleanLabels labels (RemoveLabels options) in
                if len_zero labels then None else Some (VMap labels)
            | other => other
            end) as H3l.
  { subst md3. destruct (md2 !! "labels") as [[]|] eqn:E; try done.
    simpl. destruct (len_zero _);
      [by rewrite lookup_delete_eq|by rewrite lookup_insert_eq]. }
  rewrite (H2 "labels"), H1l in H3l by done.
  split_and!.
  - intros k Hka Hkl. rewrite H3, H2 by done. subst md1.
    apply foldr_delete_lookup.
  - by rewrite H3.
  - done.
Qed.

Lemma GenericMetadataCleaner_Clean_Metadata_nil (obj : KubernetesObject)
    (options : CleanupOptions) :
  Metadata obj = None → Metadata (GenericMetadataCleaner_Clean obj options) = None.
Proof. intros Hm. unfold GenericMetadataCleaner_Clean. by rewrite Hm. Qed.

(** The Metadata Rule Set reads nothing but [metadata] and [kind]. *)
Lemma GenericMetadataCleaner_Clean_gated (obj gated : KubernetesObject)
    (options : CleanupOptions) :
  Kind gated = Kind obj →
  Metadata gated = Metadata obj ∨
  ("generation" ∈ metadata_fieldsToRemove (Kind obj) options ∧
   Metadata gated = delete "generation" <$> Metadata obj) →
  Metadata (GenericMetadataCleaner_Clean gated options)
  = Metadata (GenericMetadataCleaner_Clean obj options).
Proof.
  intros Hk Hm. unfold GenericMetadataCleaner_Clean. rewrite Hk.
  destruct Hm as [Hm|[Hgen Hm]]; rewrite Hm.
  - destruct (Metadata obj) eqn:E; [done|]. by rewrite Hm.
  - destruct (Metadata obj) as [metadata|] eqn:E; [|simpl; by rewrite Hm].
    change (delete "generation" <$> Some metadata)
      with (Some (delete "generation" metadata)).
    unfold set_Metadata. cbn [Metadata].
    assert (foldr delete (delete "generation" metadata)
              (metadata_fieldsToRemove (Kind obj) options)
            = foldr delete metadata (metadata_fieldsToRemove (Kind obj) options))
      as ->; [|done].
    apply map_eq. intros k. rewrite !foldr_delete_lookup.
    case_decide as Hin; [done|].
    rewrite lookup_delete_ne; [done|]. by intros <-.
Qed.

(** The generic cleaner's metadata is the Metadata Rule Set's: what the
    preservation gate deletes from [metadata] the rule set deletes too. *)
Lemma GenericObjectCleaner_Clean_Metadata (mc : MetadataCleaner)
    (obj : KubernetesObject) (options : CleanupOptions) :
  Metadata (GenericObjectCleaner_Clean mc obj options)
  = Metadata (GenericMetadataCleaner_Clean obj options).
Proof.
  destruct (gate_result obj options) as ((_ & Hk & _) & Hm & _).
  unfold GenericObjectCleaner_Clean.
  set (obj1 := if PreserveResourceState options then _ else obj) in *.
  cbv zeta in Hk, Hm.
  assert (∀ o : KubernetesObject, (if RemoveEmpty options
          then let _ := removeEmptyFields_reflected (PtrToObject o) in o
          else o) = o) as Hre by (intros o; by destruct (RemoveEmpty options)).
  rewrite Hre.
  assert (∀ o : KubernetesObject,
            Metadata (if RemoveStatus options
                         && negb (preserves_runtime options
                                  && flagged_runtime (Kind o) "status")
                      then set_Status o None else o) = Metadata o) as Hst
    by (intros o; by destruct (RemoveStatus options && _)).
  rewrite Hst.
  transitivity (Metadata (GenericMetadataCleaner_Clean obj1 options)).
  { destruct (Metadata obj1) eqn:E; destruct mc; [done|].
    by rewrite GenericMetadataCleaner_Clean_Metadata_nil. }
  apply GenericMetadataCleaner_Clean_gated; [done|].
  destruct (preserves_desired options && _) eqn:Hd; [right|by left].
  split; [|done].
  apply andb_true_iff in Hd as [Hd _].
  unfold metadata_fieldsToRemove, preserves_runtime.
  unfold preserves_desired in Hd. apply andb_true_iff in Hd as [-> Hmode].
  apply String.eqb_eq in Hmode. rewrite Hmode. simpl.
  do 5 apply list_elem_of_further. apply list_elem_of_here.
Qed.

(** The metadata of the output when no revert takes place. *)
Lemma cleanup_Metadata (obj cleaned : KubernetesObject) (options : CleanupOptions) :
  Kind obj ≠ "" →
  RevertToDeployment options = false ∨ revert_hash obj = None →
  cleanupKubernetesObject obj options NewObjectCleanerFactory = Done cleaned →
  Metadata cleaned = Metadata (GenericMetadataCleaner_Clean obj options) ∨
  Metadata cleaned
  = prune_top_level (Metadata (GenericMetadataCleaner_Clean obj options)).
Proof.
  intros Hne Hnorev H.
  destruct (cleanup_shape obj cleaned options Hne H) as (source & Hsrc & Hshape).
  cbv zeta in Hshape.
  assert (source = obj) as ->.
  { destruct Hsrc as [->|[Hopt Hrev]]; [done|].
    destruct Hnorev as [Hopt'|Hh]; [congruence|].
    rewrite revert_guard_fails in Hrev by done. congruence. }
  rewrite GenericObjectCleaner_Clean_Metadata in Hshape.
  destruct Hshape as [(_ & -> & _)|(_ & _ & ->)].
  - unfold prune_if. destruct (RemoveEmpty options); auto.
  - left. apply GenericObjectCleaner_Clean_Metadata.
Qed.

Lemma prune_top_level_inv (m cleaned : gmap string value) (k : string) (c : value) :
  prune_top_level (Some m) = Some cleaned →
  cleaned !! k = Some c →
  ∃ v, m !! k = Some v ∧ keep_item (removeEmptyFields v) = Some c.
Proof.
  unfold prune_top_level. rewrite removeEmptyFields_VMap. simpl.
  destruct (len_zero _); [done|]. intros [= <-]. rewrite lookup_omap.
  destruct (m !! k) as [v|]; [simpl|done]. rewrite keep_entry_pruned. eauto.
Qed.

Lemma keep_item_scalar (v : value) :
  is_scalar v = true → keep_item (removeEmptyFields v) = Some v.
Proof. by destruct v. Qed.

(** An entry of a nested string-keyed map, through the final pruning. *)
Lemma prune_nested_scalar (m sub : gmap string value) (key k : string) (v : value) :
  m !! key = Some (VMap sub) →
  sub !! k = Some v →
  is_scalar v = true →
  ∃ cleaned sub',
    prune_top_level (Some m) = Some cleaned ∧
    cleaned !! key = Some (VMap sub') ∧ sub' !! k = Some v.
Proof.
  intros Hkey Hk Hv.
  destruct (pruned_scalar_entry v k sub Hv Hk)
    as (sub' & Hsub & Hk').
  destruct (prune_top_level_lookup m key (VMap sub) (VMap sub') Hkey)
    as (cleaned & Hc & Hl); [by rewrite Hsub|].
  by exists cleaned, sub'.
Qed.

Lemma prune_nested_absent (m cleaned sub sub' : gmap string value) (key k : string) :
  prune_top_level (Some m) = Some cleaned →
  m !! key = Some (VMap sub) →
  sub !! k = None →
  cleaned !! key = Some (VMap sub') →
  sub' !! k = None.
Proof.
  intros Hp Hkey Hk Hc.
  destruct (prune_top_level_inv m cleaned key (VMap sub') Hp Hc) as (v & Hv & Hkeep).
  rewrite Hkey in Hv. injection Hv as <-.
  apply keep_item_Some in Hkeep as [Hkeep _].
  by eapply removeEmptyFields_absent.
Qed.

(** ** Metadata entries, labels and annotations *)

(** X11. Which metadata entries survive.  When no revert takes place, a
    key on the removal list the options select (the five cluster-assigned
    keys, [generation] unless Runtime-mode preservation flags it,
    [managedFields], [finalizers] and [namespace] by their options) is
    absent from the output metadata, and a scalar stored under any other key
    is still there: [metadata.name] always survives. *)
Theorem cleanup_metadata_entries (obj cleaned : KubernetesObject)
    (options : CleanupOptions) (metadata : gmap string value) (k : string) :
  Kind obj ≠ "" →
  RevertToDeployment options = false ∨ revert_hash obj = None →
  cleanupKubernetesObject obj options NewObjectCleanerFactory = Done cleaned →
  Metadata obj = Some metadata →
  (k ∈ metadata_fieldsToRemove (Kind obj) options → lacks (Metadata cleaned) k) ∧
  (k ∉ metadata_fieldsToRemove (Kind obj) options →
   ∀ v, metadata !! k = Some v → is_scalar v = true →
        ∃ cleanedMetadata,
          Metadata cleaned = Some cleanedMetadata ∧
          cleanedMetadata !! k = Some v) ∧
  "name" ∉ metadata_fieldsToRemove (Kind obj) options.
Proof.
  intros Hne Hnorev H Hm.
  destruct (GenericMetadataCleaner_Clean_lookup obj options metadata Hm)
    as (cleaned0 & Hc0 & Hother & Hann & Hlab).
  pose proof (cleanup_Metadata obj cleaned options Hne Hnorev H) as Hmeta.
  rewrite Hc0 in Hmeta.
  split_and!.
  - intros Hin.
    assert (k ≠ "annotations" ∧ k ≠ "labels") as [Hka Hkl].
    { apply metadata_fieldsToRemove_managed in Hin.
      split; intros ->; revert Hin; not_in_list. }
    assert (cleaned0 !! k = None) as Hk
      by (by rewrite Hother, decide_True by done).
    destruct Hmeta as [-> | ->]; [by apply lacks_Some|].
    apply prune_top_level_lacks. by apply lacks_Some.
  - intros Hnin v Hv Hscalar.
    assert (cleaned0 !! k = Some v) as Hk.
    { destruct (decide (k = "annotations")) as [->|Hka];
        [rewrite Hann, Hv; by destruct v|].
      destruct (decide (k = "labels")) as [->|Hkl];
        [rewrite Hlab, Hv; by destruct v|].
      by rewrite Hother, decide_False by done. }
    destruct Hmeta as [-> | ->]; [by eauto|].
    apply (prune_top_level_lookup _ _ v); [done|by apply keep_item_scalar].
  - intros Hin%metadata_fieldsToRemove_managed. revert Hin. not_in_list.
Qed.

Lemma cleanup_metadata_entries_witness :
  ∃ cleaned cleanedMetadata,
    cleanupKubernetesObject annotated_deployment default_options
                            NewObjectCleanerFactory = Done cleaned ∧
    Metadata cleaned = Some cleanedMetadata ∧
    cleanedMetadata !! "name" = Some (VStr "web") ∧
    lacks (Metadata cleaned) "namespace".
Proof.
  assert (∃ cleaned,
            cleanupKubernetesObject annotated_deployment default_options
                                    NewObjectCleanerFactory = Done cleaned)
    as [cleaned H] by (eexists; vm_compute; reflexivity).
  assert (∃ metadata, Metadata annotated_deployment = Some metadata)
    as [metadata Hm] by (eexists; reflexivity).
  assert (metadata !! "name" = Some (VStr "web")) as Hname.
  { injection Hm as <-. apply lookup_insert_eq. }
  destruct (cleanup_metadata_entries annotated_deployment cleaned default_options
              metadata "name") as (_ & Hkeep & Hnin); try done.
  { right. vm_compute. reflexivity. }
  destruct (Hkeep Hnin (VStr "web") Hname eq_refl) as (cleanedMetadata & Hc & Hk).
  exists cleaned, cleanedMetadata. split_and!; try done.
  destruct (cleanup_metadata_entries annotated_deployment cleaned default_options
              metadata "namespace") as (Hgone & _); try done.
  { right. vm_compute. reflexivity. }
  apply Hgone. unfold metadata_fieldsToRemove. simpl.
  do 8 apply list_elem_of_further. apply list_elem_of_here.
Defined.

(** X12. Labels.  When no revert takes place and the labels are a
    string-keyed map, a label on the user's removal list is absent from the
    labels of the output, and every other label with a scalar value is
    still there with its value: no label is removed by prefix or by
    default. *)
Theorem cleanup_labels (obj cleaned : KubernetesObject) (options : CleanupOptions)
    (metadata labels : gmap string value) (label : string) :
  Kind obj ≠ "" →
  RevertToDeployment options = false ∨ revert_hash obj = None →
  cleanupKubernetesObject obj options NewObjectCleanerFactory = Done cleaned →
  Metadata obj = Some metadata →
  metadata !! "labels" = Some (VMap labels) →
  (label ∈ RemoveLabels options →
   ∀ cleanedMetadata cleanedLabels,
     Metadata cleaned = Some cleanedMetadata →
     cleanedMetadata !! "labels" = Some (VMap cleanedLabels) →
     cleanedLabels !! label = None) ∧
  (label ∉ RemoveLabels options →
   ∀ v, labels !! label = Some v → is_scalar v = true →
        ∃ cleanedMetadata cleanedLabels,
          Metadata cleaned = Some cleanedMetadata ∧
          cleanedMetadata !! "labels" = Some (VMap cleanedLabels) ∧
          cleanedLabels !! label = Some v).
Proof.
  intros Hne Hnorev H Hm Hl.
  destruct (GenericMetadataCleaner_Clean_lookup obj options metadata Hm)
    as (cleaned0 & Hc0 & _ & _ & Hlab).
  pose proof (cleanup_Metadata obj cleaned options Hne Hnorev H) as Hmeta.
  rewrite Hc0 in Hmeta. rewrite Hl in Hlab. cbv zeta in Hlab.
  set (kept := cleanLabels labels (RemoveLabels options)) in *.
  pose proof (cleanLabels_lookup labels (RemoveLabels options) label) as Hk.
  fold kept in Hk.
  split.
  - intros Hin cleanedMetadata cleanedLabels Hcm Hcl.
    rewrite bool_decide_true in Hk by done.
    destruct (len_zero kept) eqn:Hz.
    + destruct Hmeta as [Hmeta|Hmeta]; rewrite Hmeta in Hcm.
      * injection Hcm as <-. congruence.
      * destruct (prune_top_level_inv _ _ _ _ Hcm Hcl) as (v & Hv & _). congruence.
    + destruct Hmeta as [Hmeta|Hmeta]; rewrite Hmeta in Hcm.
      * injection Hcm as <-. congruence.
      * by eapply (prune_nested_absent cleaned0 cleanedMetadata kept).
  - intros Hnin v Hv Hscalar.
    rewrite bool_decide_false, Hv in Hk by done.
    assert (len_zero kept = false) as Hz.
    { apply len_zero_false. intros He. by rewrite He in Hk. }
    rewrite Hz in Hlab.
    destruct Hmeta as [-> | ->]; [by eauto|].
    by apply (prune_nested_scalar cleaned0 kept).
Qed.

Lemma cleanup_labels_witness :
  ∃ cleaned cleanedMetadata cleanedLabels,
    cleanupKubernetesObject annotated_deployment default_options
                            NewObjectCleanerFactory = Done cleaned ∧
    Metadata cleaned = Some cleanedMetadata ∧
    cleanedMetadata !! "labels" = Some (VMap cleanedLabels) ∧
    cleanedLabels !! "tier" = Some (VStr "").
Proof.
  assert (∃ cleaned,
            cleanupKubernetesObject annotated_deployment default_options
                                    NewObjectCleanerFactory = Done cleaned)
    as [cleaned H] by (eexists; vm_compute; reflexivity).
  assert (∃ metadata labels,
            Metadata annotated_deployment = Some metadata ∧
            metadata !! "labels" = Some (VMap labels) ∧
            labels !! "tier" = Some (VStr ""))
    as (metadata & labels & Hm & Hl & Ht).
  { do 2 eexists. split; [reflexivity|]. split; vm_compute; reflexivity. }
  destruct (cleanup_labels annotated_deployment cleaned default_options
              metadata labels "tier") as (_ & Hkeep); try done.
  { right. vm_compute. reflexivity. }
  assert ("tier" ∉ RemoveLabels default_options) as Hnin
    by (intros Hin; by apply elem_of_nil in Hin).
  destruct (Hkeep Hnin (VStr "") Ht eq_refl)
    as (cleanedMetadata & cleanedLabels & Hc).
  by exists cleaned, cleanedMetadata, cleanedLabels.
Defined.

(** X13. Annotations.  When no revert takes place and the annotations are a
    string-keyed map, an annotation that the Annotation Rule matches (one of
    the four exact keys, one of the fourteen prefixes, or the user's list)
    is absent from the annotations of the output, and every other
    annotation with a scalar value is still there with its value. *)
Theorem cleanup_annotations (obj cleaned : KubernetesObject)
    (options : CleanupOptions) (metadata annotations : gmap string value)
    (key : string) :
  Kind obj ≠ "" →
  RevertToDeployment options = false ∨ revert_hash obj = None →
  cleanupKubernetesObject obj options NewObjectCleanerFactory = Done cleaned →
  Metadata obj = Some metadata →
  metadata !! "annotations" = Some (VMap annotations) →
  (shouldDelete (RemoveAnnotations options) key = true →
   ∀ cleanedMetadata cleanedAnnotations,
     Metadata cleaned = Some cleanedMetadata →
     cleanedMetadata !! "annotations" = Some (VMap cleanedAnnotations) →
     cleanedAnnotations !! key = None) ∧
  (shouldDelete (RemoveAnnotations options) key = false →
   ∀ v, annotations !! key = Some v → is_scalar v = true →
        ∃ cleanedMetadata cleanedAnnotations,
          Metadata cleaned = Some cleanedMetadata ∧
          cleanedMetadata !! "annotations" = Some (VMap cleanedAnnotations) ∧
          cleanedAnnotations !! key = Some v).
Proof.
  intros Hne Hnorev H Hm Ha.
  destruct (GenericMetadataCleaner_Clean_lookup obj options metadata Hm)
    as (cleaned0 & Hc0 & _ & Hann & _).
  pose proof (cleanup_Metadata obj cleaned options Hne Hnorev H) as Hmeta.
  rewrite Hc0 in Hmeta. rewrite Ha in Hann. cbv zeta in Hann.
  set (kept := cleanAnnotations annotations (RemoveAnnotations options)) in *.
  pose proof (cleanAnnotations_lookup annotations (RemoveAnnotations options) key)
    as Hk.
  fold kept in Hk.
  split.
  - intros Hdel cleanedMetadata cleanedAnnotations Hcm Hcl.
    rewrite Hdel in Hk.
    destruct (len_zero kept) eqn:Hz.
    + destruct Hmeta as [Hmeta|Hmeta]; rewrite Hmeta in Hcm.
      * injection Hcm as <-. congruence.
      * destruct (prune_top_level_inv _ _ _ _ Hcm Hcl) as (v & Hv & _). congruence.
    + destruct Hmeta as [Hmeta|Hmeta]; rewrite Hmeta in Hcm.
      * injection Hcm as <-. congruence.
      * by eapply (prune_nested_absent cleaned0 cleanedMetadata kept).
  - intros Hkeep v Hv Hscalar.
    rewrite Hkeep, Hv in Hk.
    assert (len_zero kept = false) as Hz.
    { apply len_zero_false. intros He. by rewrite He in Hk. }
    rewrite Hz in Hann.
    destruct Hmeta as [-> | ->]; [by eauto|].
    by apply (prune_nested_scalar cleaned0 kept).
Qed.

Lemma cleanup_annotations_witness :
  ∃ cleaned cleanedMetadata cleanedAnnotations,
    cleanupKubernetesObject annotated_deployment default_options
                            NewObjectCleanerFactory = Done cleaned ∧
    Metadata cleaned = Some cleanedMetadata ∧
    cleanedMetadata !! "annotations" = Some (VMap cleanedAnnotations) ∧
    cleanedAnnotations !! "team" = Some (VStr "payments") ∧
    cleanedAnnotations !! "kubernetes.io/change-cause" = None ∧
    cleanedAnnotations !! "deployment.kubernetes.io/revision" = None.
Proof.
  assert (∃ cleaned,
            cleanupKubernetesObject annotated_deployment default_options
                                    NewObjectCleanerFactory = Done cleaned)
    as [cleaned H] by (eexists; vm_compute; reflexivity).
  assert (∃ metadata annotations,
            Metadata annotated_deployment = Some metadata ∧
            metadata !! "annotations" = Some (VMap annotations) ∧
            annotations !! "team" = Some (VStr "payments"))
    as (metadata & annotations & Hm & Ha & Ht).
  { do 2 eexists. split; [reflexivity|]. split; vm_compute; reflexivity. }
  assert (Kind annotated_deployment ≠ "") as Hk by discriminate.
  assert (RevertToDeployment default_options = false ∨
          revert_hash annotated_deployment = None) as Hr
    by (right; vm_compute; reflexivity).
  destruct (cleanup_annotations annotated_deployment cleaned default_options
              metadata annotations "team" Hk Hr H Hm Ha) as (_ & Hkeep).
  destruct (Hkeep eq_refl (VStr "payments") Ht eq_refl)
    as (cleanedMetadata & cleanedAnnotations & Hcm & Hca & Hteam).
  destruct (cleanup_annotations annotated_deployment cleaned default_options
              metadata annotations "kubernetes.io/change-cause" Hk Hr H Hm Ha)
    as (Hexact & _).
  destruct (cleanup_annotations annotated_deployment cleaned default_options
              metadata annotations "deployment.kubernetes.io/revision"
              Hk Hr H Hm Ha)
    as (Hprefix & _).
  exists cleaned, cleanedMetadata, cleanedAnnotations. split_and!; try done.
  - by apply (Hexact eq_refl cleanedMetadata).
  - by apply (Hprefix eq_refl cleanedMetadata).
Defined.

(** ** Idempotence of the generic pass *)

Lemma object_eq (o1 o2 : KubernetesObject) :
  APIVersion o1 = APIVersion o2 → Kind o1 = Kind o2 →
  Metadata o1 = Metadata o2 → Spec o1 = Spec o2 → Status o1 = Status o2 →
  Data o1 = Data o2 → StringData o1 = StringData o2 → Type_ o1 = Type_ o2 →
  o1 = o2.
Proof. destruct o1, o2. simpl. by intros -> -> -> -> -> -> -> ->. Qed.

Lemma foldr_delete_idemp (fields : list string) (m : gmap string value) :
  foldr delete (foldr delete m fields) fields = foldr delete m fields.
Proof.
  apply map_eq. intros k. rewrite !foldr_delete_lookup. by case_decide.
Qed.

Lemma cleanLabels_idemp (labels : gmap string value) (removeLabels : list string) :
  cleanLabels (cleanLabels labels removeLabels) removeLabels
  = cleanLabels labels removeLabels.
Proof.
  apply map_eq. intros k. rewrite !cleanLabels_lookup. by case_bool_decide.
Qed.

Lemma cleanAnnotations_idemp (annotations : gmap string value)
    (removeAnnotations : list string) :
  cleanAnnotations (cleanAnnotations annotations removeAnnotations) removeAnnotations
  = cleanAnnotations annotations removeAnnotations.
Proof.
  apply map_eq. intros k. rewrite !cleanAnnotations_lookup.
  by destruct (shouldDelete _ _).
Qed.

Lemma GenericMetadataCleaner_Clean_Metadata_idemp (obj : KubernetesObject)
    (options : CleanupOptions) :
  Metadata (GenericMetadataCleaner_Clean
              (GenericMetadataCleaner_Clean obj options) options)
  = Metadata (GenericMetadataCleaner_Clean obj options).
Proof.
  destruct (Metadata obj) as [metadata|] eqn:Hm.
  - destruct (GenericMetadataCleaner_Clean_lookup obj options metadata Hm)
      as (c & Hc & Hother & Hann & Hlab).
    destruct (GenericMetadataCleaner_Clean_lookup
                (GenericMetadataCleaner_Clean obj options) options c Hc)
      as (c2 & Hc2 & Hother2 & Hann2 & Hlab2).
    destruct (GenericMetadataCleaner_Clean_fields obj options) as (_ & Hk & _).
    cbv zeta in Hk. rewrite Hk in Hother2.
    rewrite Hc2, Hc. f_equal. apply map_eq. intros k.
    destruct (decide (k = "annotations")) as [->|Hka].
    { rewrite Hann2, Hann.
      destruct (metadata !! "annotations") as [[]|]; try done. cbv zeta.
      destruct (len_zero (cleanAnnotations _ _)) eqn:Hz; [done|].
      by rewrite cleanAnnotations_idemp, Hz. }
    destruct (decide (k = "labels")) as [->|Hkl].
    { rewrite Hlab2, Hlab.
      destruct (metadata !! "labels") as [[]|]; try done. cbv zeta.
      destruct (len_zero (cleanLabels _ _)) eqn:Hz; [done|].
      by rewrite cleanLabels_idemp, Hz. }
    rewrite Hother2, Hother by done. by case_decide.
  - assert (GenericMetadataCleaner_Clean obj options = obj) as Hid
      by (unfold GenericMetadataCleaner_Clean; by rewrite Hm).
    by rewrite !Hid.
Qed.

(** What the gate does to [spec]. *)
Lemma removeField_table_Spec (obj : KubernetesObject) (fieldPath : string) :
  table_path fieldPath →
  Spec (removeField obj fieldPath)
  = match spec_key fieldPath with
    | Some key => delete key <$> Spec obj
    | None => Spec obj
    end.
Proof.
  intros [-> | [-> | [key Hs]]].
  - done.
  - change (removeField obj "metadata.generation") with
      (match Metadata obj with
       | None => obj
       | Some currentMap => set_Metadata obj (Some (delete "generation" currentMap))
       end).
    by destruct (Metadata obj).
  - unfold spec_key. rewrite Hs. simpl.
    rewrite (removeField_two _ _ _ _ Hs). unfold top_field, set_top. simpl.
    by destruct (Spec obj) eqn:E; rewrite ?E.
Qed.

Lemma foldl_removeField_table_Spec (paths : list string) (obj : KubernetesObject) :
  Forall table_path paths →
  Spec (foldl removeField obj paths)
  = (λ spec, foldr delete spec (omap spec_key paths)) <$> Spec obj.
Proof.
  revert obj. induction paths as [|p paths IH]; intros obj Hall.
  - cbn [foldl]. by destruct (Spec obj).
  - apply Forall_cons in Hall as [Hp Hall]. cbn [foldl]. rewrite IH by done.
    rewrite removeField_table_Spec by done. csimpl.
    destruct (spec_key p) as [key|]; [|done].
    destruct (Spec obj) as [spec|]; [simpl|done]. f_equal.
    apply map_eq. intros k. rewrite foldr_delete_lookup.
    destruct (decide (k = key)) as [->|Hne].
    + rewrite !lookup_delete_eq. by case_decide.
    + rewrite !lookup_delete_ne by done. by rewrite foldr_delete_lookup.
Qed.

(** The [spec] the generic cleaner returns. *)
Lemma GenericObjectCleaner_Clean_Spec (mc : MetadataCleaner)
    (obj : KubernetesObject) (options : CleanupOptions) :
  Spec (GenericObjectCleaner_Clean mc obj options)
  = (λ spec, foldr delete spec (gate_spec_keys (Kind obj) options)) <$> Spec obj.
Proof.
  unfold GenericObjectCleaner_Clean, gate_spec_keys.
  set (obj1 := if PreserveResourceState options then _ else obj).
  assert (Spec obj1
          = (λ spec,
               foldr delete spec
                 (if PreserveResourceState options
                  then match resourceStateFields !! Kind obj with
                       | Some stateFields =>
                           omap spec_key
                             (fieldsToRemoveForState (ResourceStateMode options)
                                                     stateFields)
                       | None => []
                       end
                  else [])) <$> Spec obj) as H1.
  { subst obj1. destruct (PreserveResourceState options);
      [|by destruct (Spec obj)].
    destruct (resourceStateFields !! Kind obj) eqn:Ht; [|by destruct (Spec obj)].
    apply foldl_removeField_table_Spec. by eapply state_queue_table_paths. }
  rewrite <- H1.
  set (obj2 := match Metadata obj1 with Some _ => _ | None => obj1 end).
  assert (Spec obj2 = Spec obj1) as H2.
  { subst obj2. destruct (Metadata obj1); [|done]. destruct mc. simpl.
    by destruct (GenericMetadataCleaner_Clean_fields obj1 options) as (_&_&->&_). }
  rewrite <- H2.
  destruct (RemoveEmpty options); by destruct (RemoveStatus options && _).
Qed.

Lemma GenericObjectCleaner_Clean_idemp (mc : MetadataCleaner)
    (obj : KubernetesObject) (options : CleanupOptions) :
  GenericObjectCleaner_Clean mc (GenericObjectCleaner_Clean mc obj options) options
  = GenericObjectCleaner_Clean mc obj options.
Proof.
  set (obj' := GenericObjectCleaner_Clean mc obj options).
  destruct (GenericObjectCleaner_Clean_payload mc obj options)
    as (Ha & Hk & Hd & Hsd & Ht).
  destruct (GenericObjectCleaner_Clean_payload mc obj' options)
    as (Ha' & Hk' & Hd' & Hsd' & Ht').
  fold obj' in Ha, Hk, Hd, Hsd, Ht.
  apply object_eq; try done.
  - rewrite GenericObjectCleaner_Clean_Metadata.
    transitivity (Metadata (GenericMetadataCleaner_Clean
                              (GenericMetadataCleaner_Clean obj options) options)).
    + apply GenericMetadataCleaner_Clean_gated.
      * destruct (GenericMetadataCleaner_Clean_fields obj options) as (_ & -> & _).
        done.
      * left. subst obj'. apply GenericObjectCleaner_Clean_Metadata.
    + rewrite GenericMetadataCleaner_Clean_Metadata_idemp. subst obj'.
      symmetry. apply GenericObjectCleaner_Clean_Metadata.
  - rewrite GenericObjectCleaner_Clean_Spec, Hk. subst obj'.
    rewrite GenericObjectCleaner_Clean_Spec.
    destruct (Spec obj) as [spec|]; [simpl|done].
    by rewrite foldr_delete_idemp.
  - rewrite GenericObjectCleaner_Clean_Status, Hk. subst obj'.
    rewrite GenericObjectCleaner_Clean_Status.
    by destruct (_ || _).
Qed.

(** X14. The Metadata Rule Set is idempotent: applied to its own output it
    changes nothing. *)
Theorem GenericMetadataCleaner_Clean_idempotent (obj : KubernetesObject)
    (options : CleanupOptions) :
  GenericMetadataCleaner_Clean (GenericMetadataCleaner_Clean obj options) options
  = GenericMetadataCleaner_Clean obj options.
Proof.
  destruct (GenericMetadataCleaner_Clean_fields obj options)
    as (Ha & Hk & Hs & Hst & Hd & Hsd & Ht).
  destruct (GenericMetadataCleaner_Clean_fields
              (GenericMetadataCleaner_Clean obj options) options)
    as (Ha' & Hk' & Hs' & Hst' & Hd' & Hsd' & Ht').
  apply object_eq; try done.
  apply GenericMetadataCleaner_Clean_Metadata_idemp.
Qed.

(** X15. For a kind without a cleaner of its own, cleaning is idempotent:
    cleaning the output again, with the same options, returns it
    unchanged. *)
Theorem unknown_kind_cleanup_idempotent (obj cleaned : KubernetesObject)
    (options : CleanupOptions) :
  Kind obj ∉ specific_kinds →
  cleanupKubernetesObject obj options NewObjectCleanerFactory = Done cleaned →
  cleanupKubernetesObject cleaned options NewObjectCleanerFactory = Done cleaned.
Proof.
  intros Hk.
  assert (∀ o, Kind o ∉ specific_kinds →
            cleanupKubernetesObject o options NewObjectCleanerFactory
            = if String.eqb (Kind o) "" then Done o
              else Done (GenericObjectCleaner_Clean GenericMetadataCleaner o options))
    as Hc.
  { intros o Ho. unfold cleanupKubernetesObject. rewrite GetCleaner_registry.
    destruct (String.eqb (Kind o) ""); [done|].
    unfold specific_kinds in Ho.
    repeat match goal with
           | |- context [String.eqb (Kind o) ?k] =>
               destruct (String.eqb_spec (Kind o) k) as [Hk'|_];
                 [destruct Ho; rewrite Hk'; in_list|]
           end.
    done. }
  rewrite Hc by done.
  destruct (String.eqb (Kind obj) "") eqn:He; intros [= <-].
  - rewrite Hc by done. by rewrite He.
  - rewrite Hc by (by rewrite GenericObjectCleaner_Clean_Kind).
    rewrite GenericObjectCleaner_Clean_Kind, He.
    by rewrite GenericObjectCleaner_Clean_idemp.
Qed.

Lemma unknown_kind_cleanup_idempotent_witness :
  ∃ cleaned,
    cleanupKubernetesObject cronjob_example default_options NewObjectCleanerFactory
    = Done cleaned ∧
    cleaned ≠ cronjob_example ∧
    cleanupKubernetesObject cleaned default_options NewObjectCleanerFactory
    = Done cleaned.
Proof.
  assert (∃ cleaned,
            cleanupKubernetesObject cronjob_example default_options
                                    NewObjectCleanerFactory = Done cleaned ∧
            Status cleaned = None)
    as (cleaned & H & Hs) by (eexists; split; vm_compute; reflexivity).
  exists cleaned. split; [exact H|]. split.
  - intros ->. discriminate Hs.
  - apply (unknown_kind_cleanup_idempotent cronjob_example cleaned default_options);
      [|exact H].
    unfold specific_kinds. intros Hin.
    repeat (apply elem_of_cons in Hin as [Hin|Hin]; [discriminate Hin|]).
    by apply elem_of_nil in Hin.
Defined.

(** ** Service, ConfigMap and Secret *)

Lemma prune_if_scalar (options : CleanupOptions) (m : gmap string value)
    (k : string) (v : value) :
  m !! k = Some v → is_scalar v = true →
  ∃ cleaned, prune_if options (Some m) = Some cleaned ∧ cleaned !! k = Some v.
Proof.
  intros Hk Hv. unfold prune_if. destruct (RemoveEmpty options); [|by eauto].
  apply (prune_top_level_lookup _ _ v); [done|by apply keep_item_scalar].
Qed.

Lemma prune_if_lacks (options : CleanupOptions)
    (field : option (gmap string value)) (k : string) :
  lacks field k → lacks (prune_if options field) k.
Proof.
  intros Hl. unfold prune_if. destruct (RemoveEmpty options); [|done].
  by apply prune_top_level_lacks.
Qed.

Lemma cleanup_specific (obj : KubernetesObject) (options : CleanupOptions)
    (kind : string) (cleaner : ObjectCleaner → ObjectCleaner) :
  (kind, cleaner) ∈ [ ("Deployment", DeploymentCleaner); ("Service", ServiceCleaner);
                      ("StatefulSet", StatefulSetCleaner);
                      ("DaemonSet", DaemonSetCleaner); ("Pod", PodCleaner);
                      ("ConfigMap", ConfigMapCleaner); ("Secret", SecretCleaner) ] →
  Kind obj = kind →
  cleanupKubernetesObject obj options NewObjectCleanerFactory
  = Clean (cleaner (GenericObjectCleaner GenericMetadataCleaner)) obj options.
Proof.
  intros Hin Hkind. unfold cleanupKubernetesObject.
  rewrite GetCleaner_registry, Hkind.
  repeat (apply elem_of_cons in Hin as [[= -> ->]|Hin]; [reflexivity|]).
  by apply elem_of_nil in Hin.
Qed.

Lemma ports_step_lookup (spec : gmap string value) (k : string) :
  k ≠ "ports" →
  match spec !! "ports" with
  | Some (VList ports) =>
      match omap clean_port_entry ports with
      | [] => delete "ports" spec
      | cleanedPorts => <["ports" := VList cleanedPorts]> spec
      end
  | _ => spec
  end !! k = spec !! k.
Proof.
  intros Hk. destruct (spec !! "ports") as [[]|]; try done.
  destruct (omap _ _); [by rewrite lookup_delete_ne|by rewrite lookup_insert_ne].
Qed.

(** X16. A cleaned Service never carries the addresses the cluster assigned:
    [spec.clusterIP] and [spec.clusterIPs] are absent from the output under
    every combination of options (the preservation gate removes them in
    Desired mode, the Service cleaner otherwise); the ip-family fields and
    the internal traffic policy are absent unless Desired-mode preservation
    is on. *)
Theorem Service_drops_cluster_addresses (obj cleaned : KubernetesObject)
    (options : CleanupOptions) :
  Kind obj = "Service" →
  cleanupKubernetesObject obj options NewObjectCleanerFactory = Done cleaned →
  lacks (Spec cleaned) "clusterIP" ∧
  lacks (Spec cleaned) "clusterIPs" ∧
  (preserves_desired options = false →
   lacks (Spec cleaned) "ipFamilies" ∧
   lacks (Spec cleaned) "ipFamilyPolicy" ∧
   lacks (Spec cleaned) "internalTrafficPolicy").
Proof.
  intros Hkind. rewrite (cleanup_specific obj options "Service" ServiceCleaner);
    [|in_list|done].
  cbn [Clean mbind outcome_bind]. intros [= <-].
  rewrite final_cleanup_Spec.
  assert (∀ k, k ≠ "ports" →
            (k ∈ service_fieldsToRemove ∧ preserves_desired options = false) ∨
            k ∈ gate_spec_keys "Service" options →
            lacks (prune_if options
                     (Spec (with_Spec
                              (GenericObjectCleaner_Clean GenericMetadataCleaner
                                                          obj options)
                              (λ spec,
                                 let spec :=
                                   if negb (preserves_desired options)
                                   then foldr delete spec service_fieldsToRemove
                                   else spec in
                                 Some match spec !! "ports" with
                                      | Some (VList ports) =>
                                          match omap clean_port_entry ports with
                                          | [] => delete "ports" spec
                                          | cleanedPorts =>
                                              <["ports" := VList cleanedPorts]> spec
                                          end
                                      | _ => spec
                                      end)))) k) as Hgo.
  { intros k Hports Hk. apply prune_if_lacks. unfold with_Spec.
    rewrite GenericObjectCleaner_Clean_Spec, Hkind.
    destruct (Spec obj) as [spec|] eqn:Hs;
      cbn -[foldr service_fieldsToRemove gate_spec_keys].
    - apply lacks_Some. rewrite ports_step_lookup by done.
      destruct Hk as [[Hin ->]|Hin];
        cbn -[foldr service_fieldsToRemove gate_spec_keys].
      + rewrite foldr_delete_lookup. by rewrite decide_True.
      + destruct (negb _); rewrite ?foldr_delete_lookup;
          repeat case_decide; done.
    - rewrite GenericObjectCleaner_Clean_Spec, Hs. apply lacks_None. }
  assert (preserves_desired options = true →
          gate_spec_keys "Service" options = ["clusterIPs"; "clusterIP"]) as Hgate.
  { unfold preserves_desired, gate_spec_keys.
    intros [-> ->%String.eqb_eq]%andb_true_iff. by vm_compute. }
  destruct (preserves_desired options) eqn:Hpd.
  - rewrite Hgate in Hgo by done. split_and!; [| |done].
    + apply Hgo; [done|]. right. in_list.
    + apply Hgo; [done|]. right. in_list.
  - split_and!; try intros _; try split_and!;
      (apply Hgo; [done|]; left; split; [unfold service_fieldsToRemove; in_list|done]).
Qed.

Lemma Service_drops_cluster_addresses_witness :
  ∃ cleaned,
    cleanupKubernetesObject service_example preserving_options
                            NewObjectCleanerFactory = Done cleaned ∧
    lacks (Spec cleaned) "clusterIP" ∧
    lacks (Spec cleaned) "clusterIPs".
Proof.
  assert (∃ cleaned,
            cleanupKubernetesObject service_example preserving_options
                                    NewObjectCleanerFactory = Done cleaned)
    as [cleaned H] by (eexists; vm_compute; reflexivity).
  exists cleaned. split; [exact H|].
  destruct (Service_drops_cluster_addresses service_example cleaned
              preserving_options eq_refl H) as (H1 & H2 & _).
  by split.
Defined.

(** X17. ConfigMap data.  The cleaner removes a data entry by its key only:
    the entry under the last-applied-configuration key is absent from the
    output, and a scalar under any other key is still there, whatever its
    content. *)
Theorem ConfigMap_data_entries (obj cleaned : KubernetesObject)
    (options : CleanupOptions) :
  Kind obj = "ConfigMap" →
  cleanupKubernetesObject obj options NewObjectCleanerFactory = Done cleaned →
  lacks (Data cleaned) last_applied ∧
  (∀ data k v,
     Data obj = Some data → data !! k = Some v → is_scalar v = true →
     k ≠ last_applied →
     ∃ cleanedData, Data cleaned = Some cleanedData ∧ cleanedData !! k = Some v).
Proof.
  intros Hkind.
  rewrite (cleanup_specific obj options "ConfigMap" ConfigMapCleaner);
    [|in_list|done].
  cbn [Clean mbind outcome_bind]. intros [= <-].
  destruct (final_cleanup_Data
              match Data (GenericObjectCleaner_Clean GenericMetadataCleaner obj options) with
              | Some data =>
                  set_Data (GenericObjectCleaner_Clean GenericMetadataCleaner obj options)
                    (if len_zero (cleanConfigMapData data) then None
                     else Some (cleanConfigMapData data))
              | None => GenericObjectCleaner_Clean GenericMetadataCleaner obj options
              end options) as [-> _].
  destruct (GenericObjectCleaner_Clean_payload GenericMetadataCleaner obj options)
    as (_ & _ & Hd & _).
  destruct (Data (GenericObjectCleaner_Clean GenericMetadataCleaner obj options))
    as [data0|] eqn:Hd0; cbn [Data set_Data]; rewrite ?Hd0.
  - assert (∀ k, cleanConfigMapData data0 !! k
                 = if decide (k = last_applied) then None else data0 !! k) as Hl.
    { intros k. unfold cleanConfigMapData. rewrite filter_key_ne_delete.
      case_decide as Hk; [subst; apply lookup_delete_eq|].
      by rewrite lookup_delete_ne. }
    split.
    + apply prune_if_lacks. destruct (len_zero _); [apply lacks_None|].
      apply lacks_Some. by rewrite Hl, decide_True.
    + intros data k v Hdata Hk Hv Hne. rewrite <- Hd in Hdata.
      injection Hdata as <-.
      assert (cleanConfigMapData data0 !! k = Some v) as Hk'
        by (by rewrite Hl, decide_False).
      destruct (len_zero _) eqn:Hz.
      { apply len_zero_true in Hz. by rewrite Hz in Hk'. }
      by apply prune_if_scalar.
  - split; [apply prune_if_lacks, lacks_None|].
    intros data k v Hdata. congruence.
Qed.

Lemma ConfigMap_data_entries_witness :
  ∃ cleaned cleanedData,
    cleanupKubernetesObject configmap_marker_content default_options
                            NewObjectCleanerFactory = Done cleaned ∧
    Data cleaned = Some cleanedData ∧
    cleanedData !! "extra"
    = Some (VStr "kubectl.kubernetes.io/last-applied-configuration=1") ∧
    lacks (Data cleaned) last_applied.
Proof.
  assert (∃ cleaned,
            cleanupKubernetesObject configmap_marker_content default_options
                                    NewObjectCleanerFactory = Done cleaned)
    as [cleaned H] by (eexists; vm_compute; reflexivity).
  destruct (ConfigMap_data_entries configmap_marker_content cleaned
              default_options eq_refl H) as (Hgone & Hkeep).
  destruct (Hkeep _ "extra" _ eq_refl (lookup_insert_eq _ _ _) eq_refl)
    as (cleanedData & Hc & Hk); [discriminate|].
  by exists cleaned, cleanedData.
Defined.

(** X18. Secret payload.  The Secret cleaner never deletes payload: every
    scalar entry of [data] and of [stringData] is still in the output, and
    the [type] is unchanged, also for a default service-account token. *)
Theorem Secret_payload_kept (obj cleaned : KubernetesObject)
    (options : CleanupOptions) :
  Kind obj = "Secret" →
  cleanupKubernetesObject obj options NewObjectCleanerFactory = Done cleaned →
  Type_ cleaned = Type_ obj ∧
  (∀ data k v,
     Data obj = Some data → data !! k = Some v → is_scalar v = true →
     ∃ cleanedData, Data cleaned = Some cleanedData ∧ cleanedData !! k = Some v) ∧
  (∀ stringData k v,
     StringData obj = Some stringData → stringData !! k = Some v →
     is_scalar v = true →
     ∃ cleanedData,
       StringData cleaned = Some cleanedData ∧ cleanedData !! k = Some v).
Proof.
  intros Hkind.
  rewrite (cleanup_specific obj options "Secret" SecretCleaner); [|in_list|done].
  cbn [Clean mbind outcome_bind]. intros [= <-].
  destruct (GenericObjectCleaner_Clean_payload GenericMetadataCleaner obj options)
    as (_ & _ & Hd & Hsd & Ht).
  set (generic := GenericObjectCleaner_Clean GenericMetadataCleaner obj options) in *.
  set (o1 := match Data generic with
             | Some data => if len_zero data then set_Data generic None else generic
             | None => generic
             end).
  assert (Type_ o1 = Type_ obj ∧ StringData o1 = StringData obj ∧
          ∀ data k v, Data obj = Some data → data !! k = Some v →
                      Data o1 = Some data) as (Ht1 & Hsd1 & Hd1).
  { subst o1. destruct (Data generic) as [data0|] eqn:Hd0.
    - destruct (len_zero data0) eqn:Hz.
      + split_and!; try done. intros data k v Hdata Hk.
        rewrite <- Hd in Hdata. injection Hdata as <-.
        apply len_zero_true in Hz. by rewrite Hz in Hk.
      + split_and!; try done. intros data k v Hdata Hk. congruence.
    - split_and!; try done. intros data k v Hdata Hk. congruence. }
  set (o2 := match StringData o1 with
             | Some stringData =>
                 if len_zero stringData then set_StringData o1 None else o1
             | None => o1
             end).
  assert (Type_ o2 = Type_ obj ∧
          (∀ data k v, Data obj = Some data → data !! k = Some v →
                       Data o2 = Some data) ∧
          (∀ stringData k v, StringData obj = Some stringData →
                             stringData !! k = Some v →
                             StringData o2 = Some stringData))
    as (Ht2 & Hd2 & Hsd2).
  { subst o2. destruct (StringData o1) as [sd0|] eqn:Hsd0.
    - destruct (len_zero sd0) eqn:Hz.
      + split_and!; try done. intros sd k v Hsdata Hk.
        rewrite <- Hsd1 in Hsdata. injection Hsdata as <-.
        apply len_zero_true in Hz. by rewrite Hz in Hk.
      + split_and!; try done. intros sd k v Hsdata Hk. congruence.
    - split_and!; try done. intros sd k v Hsdata Hk. congruence. }
  destruct (final_cleanup_Data o2 options) as [-> ->].
  destruct (final_cleanup_identity o2 options) as [_ ->].
  split_and!; [done| |].
  - intros data k v Hdata Hk Hv. rewrite (Hd2 data k v) by done.
    by apply prune_if_scalar.
  - intros sd k v Hsdata Hk Hv. rewrite (Hsd2 sd k v) by done.
    by apply prune_if_scalar.
Qed.

Lemma Secret_payload_kept_witness :
  ∃ cleaned cleanedData,
    cleanupKubernetesObject token_secret default_options NewObjectCleanerFactory
    = Done cleaned ∧
    Type_ cleaned = "kubernetes.io/service-account-token" ∧
    Data cleaned = Some cleanedData ∧
    cleanedData !! "ca.crt" = Some (VStr "").
Proof.
  assert (∃ cleaned,
            cleanupKubernetesObject token_secret default_options
                                    NewObjectCleanerFactory = Done cleaned)
    as [cleaned H] by (eexists; vm_compute; reflexivity).
  destruct (Secret_payload_kept token_secret cleaned default_options eq_refl H)
    as (Ht & Hkeep & _).
  destruct (Hkeep _ "ca.crt" _ eq_refl (lookup_insert_eq _ _ _) eq_refl)
    as (cleanedData & Hc & Hk).
  by exists cleaned, cleanedData.
Defined.

(** ** Pod specs, containers and volumes *)

Lemma pod_field_remove_listed (mode field : string) :
  field ∈ pod_fieldsToRemove →
  pod_field_remove mode field = negb (String.eqb mode "Runtime").
Proof.
  unfold pod_fieldsToRemove. intros Hin.
  repeat (apply elem_of_cons in Hin as [->|Hin];
          [unfold pod_field_remove;
           destruct (String.eqb mode "Runtime"), (String.eqb mode "Desired");
           vm_compute; reflexivity|]).
  by apply elem_of_nil in Hin.
Qed.

Lemma clean_containers_of_type_lookup (options : CleanupOptions)
    (spec : gmap string value) (containerType k : string) :
  k ≠ containerType →
  clean_containers_of_type options spec containerType !! k = spec !! k.
Proof.
  intros Hk. unfold clean_containers_of_type.
  destruct (spec !! containerType) as [[]|]; try done.
  destruct (omap _ _); [by rewrite lookup_delete_ne|by rewrite lookup_insert_ne].
Qed.

Lemma cleanPodVolumes_lookup (spec : gmap string value) (k : string) :
  k ∉ pod_list_keys → cleanPodVolumes spec !! k = spec !! k.
Proof.
  intros Hk.
  assert (k ≠ "containers" ∧ k ≠ "initContainers" ∧ k ≠ "volumes") as (H1 & H2 & H3).
  { unfold pod_list_keys in Hk. split_and!; intros ->; apply Hk; in_list. }
  unfold cleanPodVolumes.
  destruct (spec !! "volumes") as [[| | | | |volumes| |]|];
    try (case_bool_decide; [done|]; cbn [foldl containerTypes];
         by rewrite !filter_mounts_of_type_lookup).
  destruct (scan_volumes volumes) as [toRemove cleaned].
  case_bool_decide; cbn [foldl containerTypes];
    rewrite ?filter_mounts_of_type_lookup by done;
    destruct cleaned; by rewrite ?lookup_delete_ne, ?lookup_insert_ne.
Qed.

(** X19. The pod-level fields.  For every key but the three list keys,
    [cleanPodSpec] returns the input's entry, except that the eighteen
    runtime fields (node name, DNS policy, scheduler, host namespaces and so
    on) are deleted; under state preservation in Runtime mode none of them
    is deleted. *)
Theorem cleanPodSpec_pod_level_fields (spec : gmap string value)
    (options : CleanupOptions) (k : string) :
  k ∉ pod_list_keys →
  cleanPodSpec spec options !! k
  = if preserves_runtime options then spec !! k
    else if decide (k ∈ pod_fieldsToRemove) then None else spec !! k.
Proof.
  intros Hk.
  assert (k ≠ "containers" ∧ k ≠ "initContainers" ∧ k ≠ "volumes") as (H1 & H2 & H3).
  { unfold pod_list_keys in Hk. split_and!; intros ->; apply Hk; in_list. }
  unfold cleanPodSpec.
  set (fieldsToRemove := if PreserveResourceState options then _ else _).
  set (specA := foldr delete spec fieldsToRemove).
  set (specB := foldl _ specA containerTypes).
  set (specC := cleanPodVolumes specB).
  assert (specC !! k = specA !! k) as HC.
  { subst specC specB. rewrite cleanPodVolumes_lookup by done.
    cbn [foldl containerTypes].
    by rewrite !clean_containers_of_type_lookup. }
  assert (match specC !! "volumes" with
          | Some (VList []) => delete "volumes" specC
          | _ => specC
          end !! k = specC !! k) as ->.
  { destruct (specC !! "volumes") as [[| | | | |[|]| |]|]; try done.
    by rewrite lookup_delete_ne. }
  rewrite HC. subst specA. rewrite foldr_delete_lookup.
  subst fieldsToRemove. unfold preserves_runtime.
  destruct (PreserveResourceState options); [simpl|done].
  destruct (decide (k ∈ pod_fieldsToRemove)) as [Hin|Hnin].
  - pose proof (pod_field_remove_listed (ResourceStateMode options) k Hin) as Hr.
    destruct (String.eqb (ResourceStateMode options) "Runtime"); simpl in Hr.
    + rewrite decide_False; [done|]. intros [? _]%list_elem_of_filter. congruence.
    + rewrite decide_True; [done|]. by apply list_elem_of_filter.
  - rewrite decide_False; [by destruct (String.eqb _ _)|].
    by intros [_ ?]%list_elem_of_filter.
Qed.

Lemma cleanPodSpec_pod_level_fields_witness :
  cleanPodSpec scenario_pod_spec default_options !! "nodeName" = None ∧
  cleanPodSpec scenario_pod_spec
    (set_ResourceStateMode preserving_options "Runtime") !! "nodeName"
  = Some (VStr "node-1").
Proof.
  assert ("nodeName" ∉ pod_list_keys) as Hk by (unfold pod_list_keys; not_in_list).
  split.
  - rewrite (cleanPodSpec_pod_level_fields scenario_pod_spec default_options
               "nodeName" Hk).
    reflexivity.
  - rewrite (cleanPodSpec_pod_level_fields scenario_pod_spec
               (set_ResourceStateMode preserving_options "Runtime") "nodeName" Hk).
    apply lookup_insert_eq.
Defined.

(** *** The container cleaner *)

Lemma clean_port_entry_result (p p' : value) :
  clean_port_entry p = Some p' →
  default_protocol p' = false ∧ empty_entry p' = false ∧
  clean_port_entry p' = Some p'.
Proof.
  destruct p as [| | | | | |portMap|]; try by intros [= <-].
  unfold clean_port_entry.
  destruct (portMap !! "protocol") as [[| protoStr | | | | | |]|] eqn:Hp;
    try (destruct (len_zero portMap) eqn:Hz; [done|]; intros [= <-];
         simpl; by rewrite Hp, Hz).
  destruct (String.eqb (ToUpper protoStr) "TCP") eqn:Ht.
  - destruct (len_zero (delete "protocol" portMap)) eqn:Hz; [done|].
    intros [= <-]. simpl. by rewrite lookup_delete_eq, Hz.
  - destruct (len_zero portMap) eqn:Hz; [done|]. intros [= <-].
    simpl. by rewrite Hp, Ht, Hz.
Qed.

Lemma omap_clean_port_entry_result (ports : list value) :
  Forall (λ p, default_protocol p = false ∧ empty_entry p = false)
         (omap clean_port_entry ports) ∧
  omap clean_port_entry (omap clean_port_entry ports) = omap clean_port_entry ports.
Proof.
  induction ports as [|p ports [IH1 IH2]]; [done|]. csimpl.
  destruct (clean_port_entry p) as [p'|] eqn:Hp; [|done].
  apply clean_port_entry_result in Hp as (Hd & He & Hfix). csimpl.
  rewrite Hfix, IH2. split; [|done]. by apply Forall_cons.
Qed.

(** X20. The container cleaner.  After [cleanContainerSpec] the six
    defaulted fields are absent and every other key but [ports] holds what
    it held; a [ports] list in the result is not empty, none of its
    string-keyed entries is empty and none still names a protocol that
    upper-cases to TCP; and cleaning the result again changes nothing. *)
Theorem cleanContainerSpec_result (container : gmap string value)
    (options : CleanupOptions) :
  let cleaned := cleanContainerSpec container options in
  (∀ k, k ≠ "ports" →
        cleaned !! k
        = if decide (k ∈ container_fieldsToRemove) then None else container !! k) ∧
  (∀ cleanedPorts,
     cleaned !! "ports" = Some (VList cleanedPorts) →
     cleanedPorts ≠ [] ∧
     Forall (λ p, default_protocol p = false ∧ empty_entry p = false) cleanedPorts) ∧
  cleanContainerSpec cleaned options = cleaned.
Proof.
  unfold cleanContainerSpec.
  set (stripped := foldr delete container container_fieldsToRemove).
  assert (∀ k, stripped !! k
               = if decide (k ∈ container_fieldsToRemove) then None
                 else container !! k) as Hs
    by (intros k; apply foldr_delete_lookup).
  assert (∀ m : gmap string value,
            (∀ k, k ∈ container_fieldsToRemove → m !! k = None) →
            foldr delete m container_fieldsToRemove = m) as Hfix.
  { intros m Hm. apply map_eq. intros k. rewrite foldr_delete_lookup.
    case_decide; [by rewrite Hm|done]. }
  assert ("ports" ∉ container_fieldsToRemove) as Hports
    by (unfold container_fieldsToRemove; not_in_list).
  destruct (stripped !! "ports") as [[| | | | |ports| |]|] eqn:Hp; cbv zeta;
    try (split_and!;
         [intros k _; apply Hs
         |intros cleanedPorts; by rewrite Hp
         |rewrite Hfix, Hp;
          [done|intros k Hk; by rewrite Hs, decide_True]]).
  destruct (omap_clean_port_entry_result ports) as [Hall Hidem].
  destruct (omap clean_port_entry ports) as [|p cleanedPorts] eqn:Ho.
  - split_and!.
    + intros k Hk. rewrite lookup_delete_ne by done. apply Hs.
    + intros cleanedPorts. by rewrite lookup_delete_eq.
    + rewrite Hfix, lookup_delete_eq; [done|].
      intros k Hk. rewrite lookup_delete_ne by (by intros <-).
      by rewrite Hs, decide_True.
  - split_and!.
    + intros k Hk. rewrite lookup_insert_ne by done. apply Hs.
    + intros cleanedPorts'. rewrite lookup_insert_eq. by intros [= <-].
    + rewrite Hfix, lookup_insert_eq.
      * rewrite Hidem. by rewrite insert_insert_eq.
      * intros k Hk. rewrite lookup_insert_ne by (by intros <-).
        by rewrite Hs, decide_True.
Qed.

(** *** The Volume Rule *)






(** ** The manifest stream *)

Lemma manifest_loop_app (encode : KubernetesObject → bool)
    (options : CleanupOptions) (docs tail : list decoded) (count : nat) :
  Forall (passes encode options) docs →
  manifest_loop encode options NewObjectCleanerFactory count (docs ++ tail)
  = ((docs ≫= written_for options)
     ++ (manifest_loop encode options NewObjectCleanerFactory
                       (count + length docs) tail).1,
     (manifest_loop encode options NewObjectCleanerFactory
                    (count + length docs) tail).2).
Proof.
  intros Hall. revert count.
  induction Hall as [|d docs Hd _ IH]; intros count.
  - simpl. rewrite Nat.add_0_r. by destruct (manifest_loop _ _ _ _ _).
  - destruct d as [obj|]; [|by destruct Hd].
    cbn [app manifest_loop]. rewrite IH.
    replace (S count + length docs) with (count + length (Document obj :: docs))
      by (simpl; lia).
    change ((Document obj :: docs) ≫= written_for options)
      with (written_for options (Document obj) ++ (docs ≫= written_for options)).
    cbn [written_for].
    destruct (String.eqb (Kind obj) "") eqn:Hk,
             (String.eqb (APIVersion obj) "") eqn:Ha;
      cbn [andb orb app]; try done.
    apply String.eqb_neq in Hk, Ha.
    destruct Hd as [?|[?|(cleaned & -> & ->)]]; done.
Qed.

(** X22. The manifest loop stops at the first document it cannot get past.
    After a run of documents that are skipped or cleaned and accepted by the
    sink, the output holds their cleaned forms in input order; if the stream
    ends there the run finishes; if a malformed document follows, the run
    ends with a decode failure whose index is the 1-based position of that
    document, skipped documents counted; a document whose cleaning panics
    or that the sink rejects ends the run in the same way; nothing after
    the failing document is written. *)
Theorem cleanupManifest_stops_at_first_failure (encode : KubernetesObject → bool)
    (options : CleanupOptions) (docs rest : list decoded) :
  Forall (passes encode options) docs →
  let written := docs ≫= written_for options in
  cleanupManifest encode docs options = (written, Finished) ∧
  cleanupManifest encode (docs ++ Malformed :: rest) options
  = (written, DecodeFailure (S (length docs))) ∧
  (∀ obj msg,
     Kind obj ≠ "" → APIVersion obj ≠ "" →
     cleanupKubernetesObject obj options NewObjectCleanerFactory = Panic msg →
     cleanupManifest encode (docs ++ Document obj :: rest) options
     = (written, Panicked msg)) ∧
  (∀ obj cleaned,
     Kind obj ≠ "" → APIVersion obj ≠ "" →
     cleanupKubernetesObject obj options NewObjectCleanerFactory = Done cleaned →
     encode cleaned = false →
     cleanupManifest encode (docs ++ Document obj :: rest) options
     = (written, EncodeFailure (S (length docs)))).
Proof.
  intros Hall written. unfold cleanupManifest. split_and!.
  - rewrite <- (app_nil_r docs) at 1. rewrite manifest_loop_app by done.
    simpl. by rewrite app_nil_r.
  - rewrite manifest_loop_app by done. simpl. by rewrite app_nil_r.
  - intros obj msg Hk Ha Hp. rewrite manifest_loop_app by done. simpl.
    apply String.eqb_neq in Hk, Ha. rewrite Hk, Ha, Hp. simpl.
    by rewrite app_nil_r.
  - intros obj cleaned Hk Ha Hc He. rewrite manifest_loop_app by done. simpl.
    apply String.eqb_neq in Hk, Ha. rewrite Hk, Ha, Hc, He. simpl.
    by rewrite app_nil_r.
Qed.

Lemma cleanupManifest_stops_at_first_failure_witness :
  ∃ service configmap,
    cleanupManifest (λ _, true) (three_documents ++ [Malformed; Document scenario_pod])
                    default_options
    = ([service; configmap], DecodeFailure 4) ∧
    Kind service = "Service" ∧ Kind configmap = "ConfigMap".
Proof.
  assert (Forall (passes (λ _, true) default_options) three_documents) as Hall.
  { unfold three_documents. constructor; [|constructor; [|constructor; [|constructor]]].
    - right. right. eexists. split; [vm_compute; reflexivity|done].
    - left. reflexivity.
    - right. right. eexists. split; [vm_compute; reflexivity|done]. }
  destruct (cleanupManifest_stops_at_first_failure (λ _, true) default_options
              three_documents [Document scenario_pod] Hall) as (_ & H & _).
  assert (∃ service configmap,
            three_documents ≫= written_for default_options = [service; configmap] ∧
            Kind service = "Service" ∧ Kind configmap = "ConfigMap")
    as (service & configmap & Hw & Hs & Hc).
  { eexists _, _. split; [vm_compute; reflexivity|]. split; reflexivity. }
  exists service, configmap. rewrite H, Hw.
  split; [reflexivity|]. split; assumption.
Defined.

(** ** Deriving the base name *)

(** *** Go's string functions *)

Lemma prefix_app (p s : string) :
  String.prefix p s = true ↔ ∃ rest, s = p +:+ rest.
Proof.
  revert s. induction p as [|c p IH]; intros s.
  - destruct s; simpl; split; by eauto.
  - destruct s as [|c' s]; simpl; [split; [done|by intros [? ?]]|].
    destruct (ascii_dec c c') as [->|Hne].
    + rewrite IH. split; intros [rest Hr]; exists rest.
      * by rewrite Hr.
      * by injection Hr.
    + split; [done|]. intros [rest [= ? _]]. done.
Qed.

Lemma app_String (c : ascii) (a b : string) :
  String c a +:+ b = String c (a +:+ b).
Proof. done. Qed.

Lemma substring_0_S (c : ascii) (s : string) (n : nat) :
  String.substring 0 (S n) (String c s) = String c (String.substring 0 n s).
Proof. done. Qed.

Lemma LastIndex_Some (s substr : string) (index : nat) :
  LastIndex s substr = Some index →
  ∃ rest, s = String.substring 0 index s +:+ substr +:+ rest.
Proof.
  revert index. induction s as [|c s IH]; intros index; cbn [LastIndex].
  - destruct (String.eqb_spec substr "") as [->|]; [|done].
    intros [= <-]. by exists "".
  - destruct (LastIndex s substr) as [i|] eqn:Hi.
    + intros [= <-]. destruct (IH i eq_refl) as [rest Hr]. exists rest.
      rewrite substring_0_S.
      change (String c s = String c (String.substring 0 i s +:+ substr +:+ rest)).
      by f_equal.
    + destruct (String.prefix substr (String c s)) eqn:Hp; [|done].
      intros [= <-]. apply prefix_app in Hp as [rest Hr]. by exists rest.
Qed.

Lemma LastIndex_None (s substr : string) :
  LastIndex s substr = None → ∀ before after, s ≠ before +:+ substr +:+ after.
Proof.
  induction s as [|c s IH]; cbn [LastIndex].
  - destruct (String.eqb_spec substr "") as [|Hne]; [done|].
    intros _ before after.
    destruct before; [destruct substr|]; done.
  - destruct (LastIndex s substr) as [i|]; [done|].
    destruct (String.prefix substr (String c s)) eqn:Hp; [done|].
    intros _ before after Heq. destruct before as [|c' before].
    + assert (String.prefix substr (String c s) = true) as Hp'
        by (apply prefix_app; by exists after).
      congruence.
    + injection Heq as _ Heq. by apply (IH eq_refl before after).
Qed.

Lemma substring_0_length (s : string) :
  String.substring 0 (String.length s) s = s.
Proof. induction s as [|c s IH]; [done|]. simpl. by rewrite IH. Qed.

Lemma substring_app_length (a b : string) :
  String.substring 0 (String.length a) (a +:+ b) = a ∧
  String.substring (String.length a) (String.length b) (a +:+ b) = b.
Proof.
  induction a as [|c a [IH1 IH2]].
  - split; [by destruct b|apply substring_0_length].
  - split; simpl; [by rewrite IH1|done].
Qed.

Lemma substring_split (s : string) (n : nat) :
  n ≤ String.length s →
  s = String.substring 0 n s +:+ String.substring n (String.length s - n) s.
Proof.
  revert n. induction s as [|c s IH]; intros n Hn; simpl in *.
  - by destruct n.
  - destruct n as [|n]; simpl.
    + by rewrite substring_0_length.
    + rewrite app_String. f_equal. apply IH. lia.
Qed.

Lemma HasSuffix_true (s suffix : string) :
  HasSuffix s suffix = true → s = TrimSuffix s suffix +:+ suffix.
Proof.
  intros H. unfold TrimSuffix. rewrite H. unfold HasSuffix in H.
  apply andb_true_iff in H as [Hlen Heq].
  apply Nat.leb_le in Hlen. apply String.eqb_eq in Heq.
  rewrite (substring_split s (String.length s - String.length suffix)) at 1 by lia.
  f_equal. rewrite <- Heq at 3. f_equal. lia.
Qed.

Lemma string_app_length (a b : string) :
  String.length (a +:+ b) = String.length a + String.length b.
Proof. induction a as [|c a IH]; simpl; [done|by rewrite IH]. Qed.

Lemma HasSuffix_false (s suffix : string) :
  HasSuffix s suffix = false → ∀ before, s ≠ before +:+ suffix.
Proof.
  intros H before ->. unfold HasSuffix in H.
  rewrite string_app_length in H.
  replace (String.length before + String.length suffix - String.length suffix)
    with (String.length before) in H by lia.
  destruct (substring_app_length before suffix) as [_ Hsub].
  rewrite Hsub, String.eqb_refl, andb_true_r in H.
  apply Nat.leb_gt in H. lia.
Qed.

Lemma LastIndex_last (s substr : string) (index : nat) :
  LastIndex s substr = Some index →
  index ≤ String.length s ∧
  ∀ before after, s = before +:+ substr +:+ after → String.length before ≤ index.
Proof.
  revert index. induction s as [|c s IH]; intros index; cbn [LastIndex].
  - destruct (String.eqb_spec substr "") as [->|]; [|done].
    intros [= <-]. split; [done|]. intros before after. by destruct before.
  - destruct (LastIndex s substr) as [i|] eqn:Hi.
    + intros [= <-]. destruct (IH i eq_refl) as [Hle Hlast].
      split; [simpl; lia|]. intros [|c' before] after Heq; simpl; [lia|].
      rewrite app_String in Heq. injection Heq as _ Heq.
      specialize (Hlast before after Heq). lia.
    + destruct (String.prefix substr (String c s)) eqn:Hp; [|done].
      intros [= <-]. split; [simpl; lia|].
      intros [|c' before] after Heq; [done|].
      rewrite app_String in Heq. injection Heq as _ Heq.
      by destruct (LastIndex_None _ _ Hi before after).
Qed.

Lemma substring_0_length_le (s : string) (n : nat) :
  n ≤ String.length s → String.length (String.substring 0 n s) = n.
Proof.
  revert n. induction s as [|c s IH]; intros [|n] Hn; simpl in *; try done; try lia.
  rewrite IH; lia.
Qed.

Lemma append_assoc (a b c : string) : (a +:+ b) +:+ c = a +:+ b +:+ c.
Proof.
  induction a as [|x a IH]; [done|]. rewrite !app_String. by rewrite IH.
Qed.

Lemma append_nil_r (a : string) : a +:+ "" = a.
Proof. induction a as [|x a IH]; [done|]. rewrite app_String. by rewrite IH. Qed.

(** X23. [deriveBaseName] finds the name in front of the hash.  It succeeds
    exactly when the pod name contains the hash between two dashes or ends
    with a dash and the hash; the base it returns is then a prefix of the
    pod name followed by a dash, the hash and either nothing or a dash and a
    suffix, and it is the longest prefix that is followed by the hash
    between two dashes. *)
Theorem deriveBaseName_finds_prefix (podName hash : string) :
  match deriveBaseName podName hash with
  | Some baseName =>
      (∃ rest, podName = baseName +:+ "-" +:+ hash +:+ rest ∧
               (rest = "" ∨ ∃ suffix, rest = "-" +:+ suffix)) ∧
      (∀ before after,
         podName = before +:+ "-" +:+ hash +:+ "-" +:+ after →
         String.length before ≤ String.length baseName)
  | None =>
      ∀ before after,
        podName ≠ before +:+ "-" +:+ hash +:+ "-" +:+ after ∧
        podName ≠ before +:+ "-" +:+ hash
  end.
Proof.
  unfold deriveBaseName.
  destruct (LastIndex podName ("-" +:+ hash +:+ "-")) as [index|] eqn:Hi.
  - destruct (LastIndex_last _ _ _ Hi) as [Hle Hlast].
    apply LastIndex_Some in Hi as [rest Hr]. split.
    + exists ("-" +:+ rest). split; [|right; by eexists].
      rewrite Hr at 1. by rewrite !append_assoc.
    + intros before after Heq. rewrite substring_0_length_le by done.
      apply (Hlast before after). rewrite Heq. by rewrite !append_assoc.
  - pose proof (LastIndex_None _ _ Hi) as Hnone.
    destruct (HasSuffix podName ("-" +:+ hash)) eqn:Hs.
    + split.
      * exists "". split; [|by left].
        rewrite (HasSuffix_true _ _ Hs) at 1. by rewrite append_nil_r.
      * intros before after Heq. destruct (Hnone before after).
        rewrite Heq. by rewrite !append_assoc.
    + intros before after. split.
      * intros Heq. apply (Hnone before after). rewrite Heq.
        by rewrite !append_assoc.
      * apply (HasSuffix_false _ _ Hs).
Qed.

(** ** Workload specs *)

Lemma cleanup_workload (obj : KubernetesObject) (options : CleanupOptions) :
  Kind obj ∈ workload_kinds →
  cleanupKubernetesObject obj options NewObjectCleanerFactory =
  Done (final_cleanup
          (with_Spec (GenericObjectCleaner_Clean GenericMetadataCleaner obj options)
             (λ spec,
                Some (clean_workload_template
                        (if negb (preserves_runtime options)
                         then foldr delete spec (workload_fieldsToRemove (Kind obj))
                         else spec) options)))
          options).
Proof.
  unfold workload_kinds. intros Hin.
  apply elem_of_cons in Hin as [Hk|Hin].
  { rewrite (cleanup_specific obj options "Deployment" DeploymentCleaner);
      [|in_list|done]. by rewrite Hk. }
  apply elem_of_cons in Hin as [Hk|Hin].
  { rewrite (cleanup_specific obj options "StatefulSet" StatefulSetCleaner);
      [|in_list|done]. by rewrite Hk. }
  apply elem_of_cons in Hin as [Hk|Hin]; [|by apply elem_of_nil in Hin].
  rewrite (cleanup_specific obj options "DaemonSet" DaemonSetCleaner);
    [|in_list|done]. by rewrite Hk.
Qed.

Lemma clean_workload_template_scalar (spec : gmap string value)
    (options : CleanupOptions) (k : string) (v : value) :
  spec !! k = Some v → is_scalar v = true →
  clean_workload_template spec options !! k = Some v.
Proof.
  intros Hk Hv. destruct (decide (k = "template")) as [->|Hne].
  - unfold clean_workload_template. rewrite Hk. by destruct v.
  - by rewrite clean_workload_template_other.
Qed.

(** X24. Workload specs.  For a Deployment, StatefulSet or DaemonSet, unless
    Runtime-mode preservation is on, [spec.revisionHistoryLimit] (and for a
    Deployment [spec.progressDeadlineSeconds]) is absent from the output;
    every other scalar of [spec] that the preservation gate did not queue,
    [replicas] included, is still there with its value. *)
Theorem workload_spec_entries (obj cleaned : KubernetesObject)
    (options : CleanupOptions) :
  Kind obj ∈ workload_kinds →
  cleanupKubernetesObject obj options NewObjectCleanerFactory = Done cleaned →
  (preserves_runtime options = false →
   ∀ k, k ∈ workload_fieldsToRemove (Kind obj) → lacks (Spec cleaned) k) ∧
  (∀ spec k v,
     Spec obj = Some spec → spec !! k = Some v → is_scalar v = true →
     k ∉ workload_fieldsToRemove (Kind obj) →
     k ∉ gate_spec_keys (Kind obj) options →
     ∃ cleanedSpec, Spec cleaned = Some cleanedSpec ∧ cleanedSpec !! k = Some v).
Proof.
  intros Hkind. rewrite cleanup_workload by done. intros [= <-].
  rewrite final_cleanup_Spec. unfold with_Spec.
  rewrite GenericObjectCleaner_Clean_Spec.
  assert (∀ k, k ∈ workload_fieldsToRemove (Kind obj) → k ≠ "template") as Hnt.
  { intros k Hin ->. unfold workload_fieldsToRemove in Hin.
    destruct (String.eqb _ _); revert Hin; not_in_list. }
  split.
  - intros Hpr k Hk. apply prune_if_lacks.
    destruct (Spec obj) as [spec|] eqn:Hs; cbn [fmap option_fmap option_map].
    + cbn [Spec set_Spec]. apply lacks_Some.
      rewrite clean_workload_template_other by by apply Hnt.
      rewrite Hpr. cbn [negb]. rewrite foldr_delete_lookup. by rewrite decide_True.
    + rewrite GenericObjectCleaner_Clean_Spec, Hs. apply lacks_None.
  - intros spec k v Hs Hk Hv Hnw Hng. rewrite Hs.
    cbn [fmap option_fmap option_map Spec set_Spec].
    apply prune_if_scalar; [|done].
    apply clean_workload_template_scalar; [|done].
    assert (foldr delete spec (gate_spec_keys (Kind obj) options) !! k = Some v)
      as Hg by (by rewrite foldr_delete_lookup, decide_False).
    destruct (negb _); [|done].
    by rewrite foldr_delete_lookup, decide_False.
Qed.

Lemma workload_spec_entries_witness :
  ∃ cleaned cleanedSpec,
    cleanupKubernetesObject statefulset_example default_options
                            NewObjectCleanerFactory = Done cleaned ∧
    Spec cleaned = Some cleanedSpec ∧
    cleanedSpec !! "replicas" = Some (VInt 3) ∧
    lacks (Spec cleaned) "revisionHistoryLimit".
Proof.
  assert (∃ cleaned,
            cleanupKubernetesObject statefulset_example default_options
                                    NewObjectCleanerFactory = Done cleaned)
    as [cleaned H] by (eexists; vm_compute; reflexivity).
  assert (Kind statefulset_example ∈ workload_kinds) as Hk
    by (unfold workload_kinds; in_list).
  destruct (workload_spec_entries statefulset_example cleaned default_options Hk H)
    as (Hgone & Hkeep).
  destruct (Hkeep _ "replicas" (VInt 3) eq_refl (lookup_insert_eq _ _ _) eq_refl)
    as (cleanedSpec & Hc & Hr).
  - unfold workload_fieldsToRemove. simpl. not_in_list.
  - unfold gate_spec_keys. simpl. by intros ?%elem_of_nil.
  - exists cleaned, cleanedSpec. split_and!; try done.
    apply Hgone; [reflexivity|]. unfold workload_fieldsToRemove. simpl. in_list.
Defined.

(** ** Runtime pod fields, end to end *)

Lemma value_at_absent (mids : list string) (final : string) (more : list string)
    (m sub : gmap string value) :
  descend m mids = Some sub → sub !! final = None →
  value_at m (mids ++ final :: more) = None.
Proof.
  revert m. induction mids as [|k mids IH]; intros m Hd Hf; simpl in Hd.
  - injection Hd as ->. simpl. destruct more; by rewrite Hf.
  - destruct (m !! k) as [[| | | | | |next|]|] eqn:Hk; try done.
    specialize (IH next Hd Hf).
    change ((k :: mids) ++ final :: more) with (k :: (mids ++ final :: more)).
    destruct (mids ++ final :: more) as [|s l] eqn:E; [by destruct mids|].
    simpl. by rewrite Hk.
Qed.

Lemma pruned_value_at_absent (mids : list string) (final : string)
    (more : list string) (m sub cleaned : gmap string value) :
  descend m mids = Some sub → sub !! final = None →
  removeEmptyFields (VMap m) = VMap cleaned →
  value_at cleaned (mids ++ final :: more) = None.
Proof.
  revert m cleaned. induction mids as [|k mids IH]; intros m cleaned Hd Hf Hr;
    simpl in Hd.
  - injection Hd as ->.
    pose proof (removeEmptyFields_absent _ _ _ Hr Hf) as Hc.
    simpl. destruct more; by rewrite Hc.
  - destruct (m !! k) as [[| | | | | |next|]|] eqn:Hk; try done.
    assert (cleaned !! k = keep_item (removeEmptyFields (VMap next))) as Hc.
    { rewrite removeEmptyFields_VMap in Hr. simpl in Hr.
      destruct (len_zero _); [done|]. injection Hr as <-.
      by rewrite lookup_omap, Hk; simpl; rewrite keep_entry_pruned. }
    change ((k :: mids) ++ final :: more) with (k :: (mids ++ final :: more)).
    destruct (removeEmptyFields_VMap_cases next) as [Hn|(next' & Hn & _)];
      rewrite Hn in Hc; simpl in Hc.
    + destruct (mids ++ final :: more) as [|s l] eqn:E; [by destruct mids|].
      simpl. by rewrite Hc.
    + specialize (IH next next' Hd Hf Hn).
      destruct (mids ++ final :: more) as [|s l] eqn:E; [by destruct mids|].
      simpl. by rewrite Hc.
Qed.

Lemma prune_if_value_at_absent (options : CleanupOptions) (mids : list string)
    (final : string) (more : list string) (m sub : gmap string value) :
  descend m mids = Some sub → sub !! final = None →
  (cleaned ← prune_if options (Some m); value_at cleaned (mids ++ final :: more))
  = None.
Proof.
  intros Hd Hf. unfold prune_if, prune_top_level.
  destruct (RemoveEmpty options); [|simpl; by eapply value_at_absent].
  destruct (removeEmptyFields_VMap_cases m) as [->|(cleaned & Hr & _)]; [done|].
  rewrite Hr. simpl. by eapply pruned_value_at_absent.
Qed.

Lemma workload_gate_spec_keys (kind : string) (options : CleanupOptions) :
  kind ∈ workload_kinds → preserves_runtime options = false →
  gate_spec_keys kind options = [].
Proof.
  unfold workload_kinds, gate_spec_keys, preserves_runtime. intros Hin Hpr.
  destruct (PreserveResourceState options); [simpl in Hpr|done].
  apply elem_of_cons in Hin as [->|Hin].
  - rewrite Deployment_stateFields. apply elem_of_nil_inv. intros k Hk.
    apply list_elem_of_omap in Hk as (p & Hp & Hs).
    apply elem_of_fieldsToRemoveForState in Hp as (d & Hd & Hq).
    unfold queued_for_removal in Hq. rewrite Hpr in Hq.
    destruct d; [by destruct (String.eqb _ "Desired")|].
    by apply deployment_runtime_paths in Hd as [-> | ->].
  - assert (resourceStateFields !! kind = None) as ->; [|done].
    destruct (resourceStateFields !! kind) eqn:Ht; [|done].
    assert (kind ∈ stateful_kinds) as Hst by (apply stateful_kinds_table; by eexists).
    unfold stateful_kinds in Hst.
    repeat (apply elem_of_cons in Hin as [->|Hin];
            [revert Hst; not_in_list|]).
    by apply elem_of_nil in Hin.
Qed.

Lemma clean_template_metadata_spec (template : gmap string value) :
  clean_template_metadata template !! "spec" = template !! "spec".
Proof.
  unfold clean_template_metadata.
  destruct (template !! "metadata") as [[| | | | | |templateMeta|]|]; try done.
  destruct (removeEmptyFields _);
    by rewrite ?lookup_delete_ne, ?lookup_insert_ne.
Qed.

Lemma cleanPodSpec_runtime_field (spec : gmap string value)
    (options : CleanupOptions) (field : string) :
  preserves_runtime options = false → field ∈ pod_fieldsToRemove →
  cleanPodSpec spec options !! field = None.
Proof.
  intros Hpr Hin.
  assert (field ∉ pod_list_keys) as Hk.
  { unfold pod_list_keys, pod_fieldsToRemove in *. intros Hl.
    repeat (apply elem_of_cons in Hl as [->|Hl]; [revert Hin; not_in_list|]).
    by apply elem_of_nil in Hl. }
  unfold cleanPodSpec.
  set (fieldsToRemove := if PreserveResourceState options then _ else _).
  set (specA := foldr delete spec fieldsToRemove).
  set (specB := foldl _ specA containerTypes).
  set (specC := cleanPodVolumes specB).
  assert (field ≠ "containers" ∧ field ≠ "initContainers" ∧ field ≠ "volumes")
    as (H1 & H2 & H3).
  { unfold pod_list_keys in Hk. split_and!; intros ->; apply Hk; in_list. }
  assert (specC !! field = specA !! field) as HC.
  { subst specC specB. rewrite cleanPodVolumes_lookup by done.
    cbn [foldl containerTypes].
    by rewrite !clean_containers_of_type_lookup. }
  assert (match specC !! "volumes" with
          | Some (VList []) => delete "volumes" specC
          | _ => specC
          end !! field = specC !! field) as ->.
  { destruct (specC !! "volumes") as [[| | | | |[|]| |]|]; try done.
    by rewrite lookup_delete_ne. }
  rewrite HC. subst specA. rewrite foldr_delete_lookup.
  rewrite decide_True; [done|]. subst fieldsToRemove.
  unfold preserves_runtime in Hpr.
  destruct (PreserveResourceState options); [simpl in Hpr|done].
  apply list_elem_of_filter. split; [|done].
  by rewrite pod_field_remove_listed, Hpr.
Qed.

(** X25. Runtime pod fields, end to end.  Without Runtime-mode
    preservation none of the eighteen runtime fields of a pod spec survives
    cleaning: they are absent from the [spec] of a Pod that is not reverted,
    and from [spec.template.spec] of a Deployment, StatefulSet or DaemonSet
    whose template and template spec are string-keyed maps. *)
Theorem runtime_pod_fields_removed (obj cleaned : KubernetesObject)
    (options : CleanupOptions) (field : string) :
  preserves_runtime options = false →
  field ∈ pod_fieldsToRemove →
  cleanupKubernetesObject obj options NewObjectCleanerFactory = Done cleaned →
  (Kind obj = "Pod" →
   RevertToDeployment options = false ∨ revert_hash obj = None →
   lacks (Spec cleaned) field) ∧
  (Kind obj ∈ workload_kinds →
   ∀ spec template podSpec,
     Spec obj = Some spec →
     spec !! "template" = Some (VMap template) →
     template !! "spec" = Some (VMap podSpec) →
     field_at cleaned "spec" ["template"; "spec"; field] = None).
Proof.
  intros Hpr Hfield H. split.
  - intros Hkind Hnorev. revert H.
    rewrite (cleanup_specific obj options "Pod" PodCleaner); [|in_list|done].
    cbn [Clean].
    assert ((if RevertToDeployment options then revertPodToDeployment obj
             else Done (obj, false)) = Done (obj, false)) as ->.
    { destruct Hnorev as [-> | Hh]; [done|].
      rewrite revert_guard_fails by done. by destruct (RevertToDeployment options). }
    cbn [mbind outcome_bind]. intros [= <-].
    rewrite final_cleanup_Spec. apply prune_if_lacks. unfold with_Spec.
    destruct (Spec (GenericObjectCleaner_Clean _ obj options)) as [spec|] eqn:Hs;
      [|rewrite Hs; apply lacks_None].
    cbn [Spec set_Spec].
    pose proof (cleanPodSpec_runtime_field spec options field Hpr Hfield) as Hf.
    destruct (len_zero _); [apply lacks_None|].
    apply lacks_Some. by rewrite lookup_omap, Hf.
  - intros Hkind spec template podSpec Hs Ht Hp. revert H.
    rewrite cleanup_workload by done. intros [= <-].
    rewrite field_at_spec, final_cleanup_Spec. unfold with_Spec.
    rewrite GenericObjectCleaner_Clean_Spec, Hs, workload_gate_spec_keys by done.
    cbn [fmap option_fmap option_map foldr Spec set_Spec].
    rewrite Hpr. cbn [negb].
    set (spec1 := foldr delete spec (workload_fieldsToRemove (Kind obj))).
    assert (spec1 !! "template" = Some (VMap template)) as Ht1.
    { subst spec1. rewrite foldr_delete_lookup, decide_False; [done|].
      unfold workload_fieldsToRemove. destruct (String.eqb _ _); not_in_list. }
    unfold clean_workload_template. rewrite Ht1.
    set (template1 := clean_template_spec (clean_template_metadata template) options).
    assert (template1 !! "spec"
            = keep_item (removeEmptyFields (VMap (cleanPodSpec podSpec options))))
      as Hs1.
    { subst template1. apply clean_template_spec_lookup.
      by rewrite clean_template_metadata_spec. }
    pose proof (cleanPodSpec_runtime_field podSpec options field Hpr Hfield) as Hf.
    destruct (removeEmptyFields_VMap_cases (cleanPodSpec podSpec options))
      as [Hr|(sp & Hr & _)]; rewrite Hr in Hs1; simpl in Hs1.
    + apply (prune_if_value_at_absent options ["template"] "spec" [field]
               _ template1); [|done].
      simpl. by rewrite lookup_insert_eq.
    + apply (prune_if_value_at_absent options ["template"; "spec"] field []
               _ sp); [|by eapply removeEmptyFields_absent].
      simpl. by rewrite lookup_insert_eq, Hs1.
Qed.

Lemma runtime_pod_fields_removed_witness :
  ∃ cleaned,
    cleanupKubernetesObject statefulset_example default_options
                            NewObjectCleanerFactory = Done cleaned ∧
    field_at statefulset_example "spec" ["template"; "spec"; "nodeName"]
    = Some (VStr "node-1") ∧
    field_at cleaned "spec" ["template"; "spec"; "nodeName"] = None.
Proof.
  assert (∃ cleaned,
            cleanupKubernetesObject statefulset_example default_options
                                    NewObjectCleanerFactory = Done cleaned)
    as [cleaned H] by (eexists; vm_compute; reflexivity).
  exists cleaned. split; [exact H|]. split; [vm_compute; reflexivity|].
  assert ("nodeName" ∈ pod_fieldsToRemove) as Hf
    by (unfold pod_fieldsToRemove; in_list).
  destruct (runtime_pod_fields_removed statefulset_example cleaned default_options
              "nodeName" eq_refl Hf H) as (_ & Hw).
  eapply Hw.
  - unfold workload_kinds. in_list.
  - reflexivity.
  - rewrite !lookup_insert_ne by done. apply lookup_singleton_eq.
  - rewrite lookup_insert_ne by done. apply lookup_singleton_eq.
Defined.

(** ** The first cleaner's path walk *)

Lemma foldr_delete_delete (k : string) (fields : list string)
    (m : gmap string value) :
  foldr delete (delete k m) fields = delete k (foldr delete m fields).
Proof.
  apply map_eq. intros i. rewrite foldr_delete_lookup.
  destruct (decide (i = k)) as [->|Hne].
  - rewrite !lookup_delete_eq. by case_decide.
  - rewrite !lookup_delete_ne by done. by rewrite foldr_delete_lookup.
Qed.

Lemma match_not_VMap {A} (o : option value) (f : gmap string value → A) (x : A) :
  (∀ next, o ≠ Some (VMap next)) →
  match o with
  | Some (VMap next) => f next
  | _ => x
  end = x.
Proof. intros H. destruct o as [[| | | | | |next|]|]; try done. by destruct (H next). Qed.

Lemma Legacy_walk_metadata (finals : list string) (m : gmap string value) :
  foldl (λ m final, Legacy.delete_last_reached ["metadata"; final] m) m finals
  = match m !! "metadata" with
    | Some (VMap metadata) => <["metadata" := VMap (foldr delete metadata finals)]> m
    | _ => foldr delete m finals
    end.
Proof.
  revert m. induction finals as [|final finals IH]; intros m.
  - simpl. destruct (m !! "metadata") as [[| | | | | |metadata|]|] eqn:Hm; try done.
    by rewrite insert_id.
  - cbn [foldl]. rewrite IH.
    change (Legacy.delete_last_reached ["metadata"; final] m)
      with (match m !! "metadata" with
            | Some (VMap next) => <["metadata" := VMap (delete final next)]> m
            | _ => delete final m
            end).
    assert ((∃ metadata, m !! "metadata" = Some (VMap metadata)) ∨
            (∀ metadata, m !! "metadata" ≠ Some (VMap metadata))) as [[metadata Hm]|Hno].
    { destruct (m !! "metadata") as [[| | | | | |metadata|]|]; eauto. }
    + rewrite Hm, lookup_insert_eq, insert_insert_eq. cbn [foldr].
      by rewrite foldr_delete_delete.
    + rewrite !(match_not_VMap (m !! "metadata")) by done.
      rewrite match_not_VMap.
      * cbn [foldr]. by rewrite foldr_delete_delete.
      * intros metadata. destruct (decide (final = "metadata")) as [->|Hne].
        -- by rewrite lookup_delete_eq.
        -- rewrite lookup_delete_ne by done. apply Hno.
Qed.

Lemma Legacy_removeRuntimeFields_steps (m : gmap string value) :
  Legacy.removeRuntimeFields m
  = foldl (λ m final, Legacy.delete_last_reached ["metadata"; final] m)
      (Legacy.delete_last_reached ["template"; "generation"] (delete "status" m))
      Legacy.metadata_finals.
Proof.
  unfold Legacy.removeRuntimeFields, Legacy.runtimeFieldsToRemove,
    Legacy.metadata_finals.
  cbn [foldl].
  repeat match goal with
         | |- context [Split ?s "."] =>
             let r := eval vm_compute in (Split s ".") in
             change (Split s ".") with r
         end.
  reflexivity.
Qed.

(** X26. The first cleaner's path walk deletes from the last map reached.
    [removeRuntimeFields] always deletes the top-level [status].  When
    [metadata] is a string-keyed map the eight bookkeeping keys are deleted
    from it and nothing else in it changes.  When it is not (it is missing,
    or it is the interface-keyed map yaml.v2 produces) the walk breaks at
    the first segment, the eight keys are deleted from the document itself
    and [metadata] is returned as it was. *)
Theorem Legacy_removeRuntimeFields_last_reached (m : gmap string value) :
  Legacy.removeRuntimeFields m !! "status" = None ∧
  (∀ metadata,
     m !! "metadata" = Some (VMap metadata) →
     ∃ cleaned,
       Legacy.removeRuntimeFields m !! "metadata" = Some (VMap cleaned) ∧
       ∀ k, cleaned !! k
            = if decide (k ∈ Legacy.metadata_finals) then None else metadata !! k) ∧
  ((∀ metadata, m !! "metadata" ≠ Some (VMap metadata)) →
   Legacy.removeRuntimeFields m !! "metadata" = m !! "metadata" ∧
   ∀ k, k ∈ Legacy.metadata_finals → Legacy.removeRuntimeFields m !! k = None).
Proof.
  rewrite Legacy_removeRuntimeFields_steps, Legacy_walk_metadata.
  set (m1 := delete "status" m).
  set (m2 := Legacy.delete_last_reached ["template"; "generation"] m1).
  assert (∀ k, k ≠ "template" → k ≠ "generation" → m2 !! k = m1 !! k) as H2.
  { intros k Ht Hg. subst m2. cbn [Legacy.delete_last_reached last default].
    destruct (m1 !! "template") as [[]|];
      by rewrite ?lookup_delete_ne, ?lookup_insert_ne. }
  assert (m2 !! "metadata" = m !! "metadata") as Hmeta.
  { rewrite H2 by done. subst m1. by rewrite lookup_delete_ne. }
  assert (m2 !! "status" = None) as Hstatus.
  { rewrite H2 by done. subst m1. apply lookup_delete_eq. }
  assert (("status" ∉ Legacy.metadata_finals) ∧ ("metadata" ∉ Legacy.metadata_finals))
    as [Hs Hm] by (unfold Legacy.metadata_finals; split; not_in_list).
  rewrite Hmeta. split_and!.
  - destruct (m !! "metadata") as [[| | | | | |metadata|]|];
      rewrite ?foldr_delete_lookup, ?decide_False, ?lookup_insert_ne by done; done.
  - intros metadata ->. eexists. split; [apply lookup_insert_eq|].
    intros k. apply foldr_delete_lookup.
  - intros Hno.
    assert (match m !! "metadata" with
            | Some (VMap metadata) =>
                <["metadata" := VMap (foldr delete metadata Legacy.metadata_finals)]> m2
            | _ => foldr delete m2 Legacy.metadata_finals
            end = foldr delete m2 Legacy.metadata_finals) as ->.
    { destruct (m !! "metadata") as [[| | | | | |metadata|]|] eqn:E; try done.
      by destruct (Hno metadata). }
    split.
    + by rewrite foldr_delete_lookup, decide_False.
    + intros k Hk. by rewrite foldr_delete_lookup, decide_True.
Qed.

Lemma Legacy_removeRuntimeFields_last_reached_witness :
  Legacy.removeRuntimeFields Legacy.decoded_document !! "uid" = None ∧
  Legacy.removeRuntimeFields Legacy.decoded_document !! "metadata"
  = Some (VIMap {[ KStr "name" := VStr "settings"; KStr "uid" := VStr "1f0c" ]}).
Proof.
  destruct (Legacy_removeRuntimeFields_last_reached Legacy.decoded_document)
    as (_ & _ & Hbreak).
  destruct Hbreak as [Hmeta Hkeys].
  - intros metadata. vm_compute. discriminate.
  - split.
    + apply Hkeys. unfold Legacy.metadata_finals. in_list.
    + rewrite Hmeta. vm_compute. reflexivity.
Defined.
